(** * Edge flight-control supervisor of the search-and-rescue drone fleet

    A shallow embedding of the edge components under [src/edge/]:
    the configuration ([edge/config.py]), the fail-safe manager
    ([edge/mission_executor/fail_safe.py]), the store-and-forward cloud
    connector ([edge/cloud_connector/connector.py]), the mission executor
    ([edge/mission_executor/executor.py]), the MAVLink bridge
    ([edge/mavlink_bridge/bridge.py]) and the obstacle classifier
    ([edge/obstacle_avoidance/avoidance.py]).

    Conventions.
    - A Python method [def op(self, x)] that mutates [self] becomes a function
      [op x self] returning the new object; one that can raise returns the
      object together with an [outcome].
    - Python [int] is [Z] (or [nat] for list indices and lengths).
    - The floats of the fail-safe manager (the readings of
      [time.monotonic()] and their differences) and of the obstacle
      classifier are IEEE binary64 ([PrimFloat]), the type Python's [float]
      has.
    - The trigonometry of the haversine distance is stated over the reals
      ([R]): [math.sin], [math.cos], [math.atan2] and [math.sqrt] are taken as
      the real functions they approximate, and so are the coordinates the
      executor and the bridge pass on.  What is proved of them holds of the
      code up to rounding. *)

From Stdlib Require Import Floats.
From Stdlib Require Import ZArith QArith Lqa List Bool String DecimalString Lia.
From Stdlib Require Import Reals Lra.
Import ListNotations.

Set Warnings "-inexact-float".
Close Scope Q_scope.
Close Scope R_scope.

(** ** Exceptions *)

(** The exception classes the edge components raise. *)
Inductive exn : Type :=
| ConnectionError
| TimeoutError
| ValueError
| RuntimeError
| IndexError
| ValidationError
| AttributeError.

(** The result of a call: a returned value or a raised exception. *)
Inductive outcome (A : Type) : Type :=
| Returned (a : A)
| Raised (e : exn).

Arguments Returned {A} a.
Arguments Raised {A} e.

(** ** edge/config.py *)

Module Config.

(** The integer-valued settings of [EdgeSettings] that carry a [Field]
    range.  The string- and float-valued fields are validated on their
    own, field by field, and are kept with the components that read them. *)
Record EdgeSettings : Type := {
  mqtt_port : Z;
  image_capture_interval_seconds : Z;
  image_compression_quality : Z;
  telemetry_report_interval_seconds : Z;
  degraded_threshold_seconds : Z;
  holding_threshold_seconds : Z;
  return_threshold_seconds : Z
}.

(** The field defaults. *)
Definition defaults : EdgeSettings := {|
  mqtt_port := 1883;
  image_capture_interval_seconds := 5;
  image_compression_quality := 85;
  telemetry_report_interval_seconds := 2;
  degraded_threshold_seconds := 10;
  holding_threshold_seconds := 30;
  return_threshold_seconds := 120
|}.

(** [Field(ge=lo, le=hi)]. *)
Definition field_ok (lo hi v : Z) : bool := (lo <=? v)%Z && (v <=? hi)%Z.

(** One entry per field whose constraint fails, in declaration order:
    the content of pydantic's [ValidationError]. *)
Definition field_errors (s : EdgeSettings) : list string :=
  let check (name : string) (ok : bool) := if ok then [] else [name] in
  check "mqtt_port"%string (field_ok 1 65535 (mqtt_port s))
  ++ check "image_capture_interval_seconds"%string
       (field_ok 1 60 (image_capture_interval_seconds s))
  ++ check "image_compression_quality"%string
       (field_ok 1 100 (image_compression_quality s))
  ++ check "telemetry_report_interval_seconds"%string
       (field_ok 1 30 (telemetry_report_interval_seconds s))
  ++ check "degraded_threshold_seconds"%string
       (field_ok 5 60 (degraded_threshold_seconds s))
  ++ check "holding_threshold_seconds"%string
       (field_ok 15 120 (holding_threshold_seconds s))
  ++ check "return_threshold_seconds"%string
       (field_ok 60 600 (return_threshold_seconds s)).

(** Constructing [EdgeSettings(...)]: the settings, or [ValidationError]. *)
Definition validate (s : EdgeSettings) : outcome EdgeSettings :=
  match field_errors s with
  | [] => Returned s
  | _ :: _ => Raised ValidationError
  end.

End Config.

(** ** edge/mission_executor/fail_safe.py *)

Module FailSafe.

Local Open Scope float_scope.

Inductive FailSafeState : Type :=
| CONNECTED
| DEGRADED
| HOLDING
| RETURNING.

Record FailSafeManager : Type := {
  _degraded_threshold_seconds : Z;
  _holding_threshold_seconds : Z;
  _return_threshold_seconds : Z;
  _state : FailSafeState;
  _disconnected_since : option float
}.

Definition __init__ (settings : Config.EdgeSettings) : FailSafeManager := {|
  _degraded_threshold_seconds := Config.degraded_threshold_seconds settings;
  _holding_threshold_seconds := Config.holding_threshold_seconds settings;
  _return_threshold_seconds := Config.return_threshold_seconds settings;
  _state := CONNECTED;
  _disconnected_since := None
|}.

Definition state (self : FailSafeManager) : FailSafeState := _state self.

Definition set_state (st : FailSafeState) (self : FailSafeManager) : FailSafeManager := {|
  _degraded_threshold_seconds := _degraded_threshold_seconds self;
  _holding_threshold_seconds := _holding_threshold_seconds self;
  _return_threshold_seconds := _return_threshold_seconds self;
  _state := st;
  _disconnected_since := _disconnected_since self
|}.

Definition set_disconnected_since (t : option float) (self : FailSafeManager)
  : FailSafeManager := {|
  _degraded_threshold_seconds := _degraded_threshold_seconds self;
  _holding_threshold_seconds := _holding_threshold_seconds self;
  _return_threshold_seconds := _return_threshold_seconds self;
  _state := _state self;
  _disconnected_since := t
|}.

(** The value of a finite binary64 number with sign [s], mantissa [m] and
    exponent [e]: plus or minus [m * 2^e]. *)
Definition value (s : bool) (m : positive) (e : Z) : Q :=
  Qmult (inject_Z (if s then Zneg m else Zpos m)) (Qpower (2 # 1) e).

(** [elapsed_seconds >= threshold], a float against an int: Python compares
    the two by value, the int not being rounded to a float.  NaN is not
    [>=] anything. *)
Definition reached (elapsed : float) (threshold : Z) : bool :=
  match Prim2SF elapsed with
  | S754_nan => false
  | S754_infinity s => negb s
  | S754_zero _ => (threshold <=? 0)%Z
  | S754_finite s m e => Qle_bool (inject_Z threshold) (value s m e)
  end.

Definition _handle_connected (self : FailSafeManager) : FailSafeManager :=
  set_disconnected_since None (set_state CONNECTED self).

(** [current_time] is the value [time.monotonic()] returns in this call; the
    subtraction is the binary64 one. *)
Definition _handle_disconnected (current_time : float) (self : FailSafeManager)
  : FailSafeManager :=
  let self :=
    match _disconnected_since self with
    | None => set_disconnected_since (Some current_time) self
    | Some _ => self
    end in
  let since :=
    match _disconnected_since self with
    | Some t => t
    | None => current_time
    end in
  let elapsed_seconds := current_time - since in
  if reached elapsed_seconds (_return_threshold_seconds self) then
    set_state RETURNING self
  else if reached elapsed_seconds (_holding_threshold_seconds self) then
    set_state HOLDING self
  else if reached elapsed_seconds (_degraded_threshold_seconds self) then
    set_state DEGRADED self
  else self.

Definition update_connectivity (is_connected : bool) (current_time : float)
    (self : FailSafeManager) : FailSafeManager :=
  if is_connected then _handle_connected self
  else _handle_disconnected current_time self.

Definition FailSafeState_eqb (a b : FailSafeState) : bool :=
  match a, b with
  | CONNECTED, CONNECTED | DEGRADED, DEGRADED
  | HOLDING, HOLDING | RETURNING, RETURNING => true
  | _, _ => false
  end.

Definition should_hold (self : FailSafeManager) : bool :=
  FailSafeState_eqb (_state self) HOLDING.

Definition should_return (self : FailSafeManager) : bool :=
  FailSafeState_eqb (_state self) RETURNING.

Definition reset (self : FailSafeManager) : FailSafeManager :=
  set_disconnected_since None (set_state CONNECTED self).

(** A call of [update_connectivity]: the flag passed and the clock reading
    the call takes. *)
Definition call : Type := (bool * float)%type.

(** The manager after a sequence of calls, and the state seen after each. *)
Fixpoint run (calls : list call) (self : FailSafeManager) : FailSafeManager :=
  match calls with
  | [] => self
  | (c, t) :: rest => run rest (update_connectivity c t self)
  end.

Fixpoint observe (calls : list call) (self : FailSafeManager) : list FailSafeState :=
  match calls with
  | [] => []
  | (c, t) :: rest =>
      let self' := update_connectivity c t self in
      _state self' :: observe rest self'
  end.

(** The managers a sequence of [update_connectivity] calls leads to from a
    fresh manager, with the last reading of the monotonic clock: readings
    never go back. *)
Inductive reaches (settings : Config.EdgeSettings) : float -> FailSafeManager -> Prop :=
| reaches_init : forall t, reaches settings t (__init__ settings)
| reaches_call : forall t self is_connected now,
    reaches settings t self ->
    (t <=? now) = true ->
    reaches settings now (update_connectivity is_connected now self).

(** The severity order of the states. *)
Definition severity (st : FailSafeState) : nat :=
  match st with
  | CONNECTED => 0
  | DEGRADED => 1
  | HOLDING => 2
  | RETURNING => 3
  end.

(** The threshold of [st] has been crossed after [elapsed] seconds. *)
Definition crossed (self : FailSafeManager) (elapsed : float) (st : FailSafeState) : Prop :=
  match st with
  | CONNECTED => True
  | DEGRADED => reached elapsed (_degraded_threshold_seconds self) = true
  | HOLDING => reached elapsed (_holding_threshold_seconds self) = true
  | RETURNING => reached elapsed (_return_threshold_seconds self) = true
  end.

(** [st] is the most severe state whose threshold has been crossed. *)
Definition highest_crossed (self : FailSafeManager) (elapsed : float)
    (st : FailSafeState) : Prop :=
  crossed self elapsed st /\
  forall st', crossed self elapsed st' -> (severity st' <= severity st)%nat.

End FailSafe.

(** ** edge/cloud_connector/connector.py *)

Module Connector.

Definition _MAX_BUFFER_SIZE : nat := 1000.

(** A buffer entry: the topic and the serialized payload. *)
Definition message : Type := (string * string)%type.

(** The connector, with the messages handed to [self._client.publish] so
    far (oldest first) standing for the MQTT client. *)
Record CloudConnector : Type := {
  _is_connected : bool;
  _message_buffer : list message;
  published : list message
}.

Definition __init__ : CloudConnector := {|
  _is_connected := false;
  _message_buffer := [];
  published := []
|}.

Definition is_connected (self : CloudConnector) : bool := _is_connected self.

Definition set_is_connected (b : bool) (self : CloudConnector) : CloudConnector := {|
  _is_connected := b;
  _message_buffer := _message_buffer self;
  published := published self
|}.

Definition set_message_buffer (l : list message) (self : CloudConnector) : CloudConnector := {|
  _is_connected := _is_connected self;
  _message_buffer := l;
  published := published self
|}.

(** [self._client.publish(topic=..., payload=..., qos=1)]. *)
Definition client_publish (m : message) (self : CloudConnector) : CloudConnector := {|
  _is_connected := _is_connected self;
  _message_buffer := _message_buffer self;
  published := published self ++ [m]
|}.

(** [self._message_buffer.pop(0)] is applied to a buffer of at least
    [_MAX_BUFFER_SIZE] entries only, so it drops the head. *)
Definition _buffer_message (topic payload : string) (self : CloudConnector)
  : CloudConnector :=
  let self :=
    if _MAX_BUFFER_SIZE <=? List.length (_message_buffer self)
    then set_message_buffer (tl (_message_buffer self)) self
    else self in
  set_message_buffer (_message_buffer self ++ [(topic, payload)]) self.

Definition _drain_buffer (self : CloudConnector) : CloudConnector :=
  match _message_buffer self with
  | [] => self
  | _ :: _ =>
      let messages_to_send := _message_buffer self in
      let self := set_message_buffer [] self in
      fold_left (fun self m => client_publish m self) messages_to_send self
  end.

(** [publish_telemetry], given the topic and the payload it computes from
    the telemetry message. *)
Definition publish_telemetry (topic payload : string) (self : CloudConnector)
  : CloudConnector :=
  if negb (_is_connected self) then _buffer_message topic payload self
  else client_publish (topic, payload) self.

(** A reason code of the MQTT client library, by its numeric value (0 is
    success). *)
Definition ReasonCode : Type := Z.

(** [mqtt.ReasonCode(mqtt.ReasonCodes.SUCCESS)], the value [_on_connect]
    compares the reason code with.  The client library's [ReasonCodes] class
    has no attribute [SUCCESS]: evaluating the expression raises
    [AttributeError]. *)
Definition ReasonCodes_SUCCESS : outcome ReasonCode := Raised AttributeError.

(** [_on_connect]: the comparison value is evaluated first, and its
    exception leaves the callback before the flag or the buffer is
    touched. *)
Definition _on_connect (reason_code : ReasonCode) (self : CloudConnector)
  : CloudConnector * outcome unit :=
  match ReasonCodes_SUCCESS with
  | Raised e => (self, Raised e)
  | Returned success =>
      if (reason_code =? success)%Z
      then (_drain_buffer (set_is_connected true self), Returned tt)
      else (set_is_connected false self, Returned tt)
  end.

Definition _on_disconnect (self : CloudConnector) : CloudConnector :=
  set_is_connected false self.

Definition disconnect (self : CloudConnector) : CloudConnector :=
  set_is_connected false self.

(** The operations that touch the connectivity flag or the buffer: the
    calls of the application and the callbacks of the client library. *)
Inductive operation : Type :=
| PublishTelemetry (topic payload : string)
| OnConnect (reason_code : ReasonCode)
| OnDisconnect
| Disconnect.

(** The connector after an operation; an exception of the connect callback
    is the client library's to handle. *)
Definition apply (o : operation) (self : CloudConnector) : CloudConnector :=
  match o with
  | PublishTelemetry topic payload => publish_telemetry topic payload self
  | OnConnect reason_code => fst (_on_connect reason_code self)
  | OnDisconnect => _on_disconnect self
  | Disconnect => disconnect self
  end.

Definition run (ops : list operation) (self : CloudConnector) : CloudConnector :=
  fold_left (fun self o => apply o self) ops self.

(** Publishing the messages of a list one after the other. *)
Definition publish_all (ms : list message) (self : CloudConnector) : CloudConnector :=
  fold_left (fun self m => publish_telemetry (fst m) (snd m) self) ms self.

End Connector.

(** ** edge/mavlink_bridge/models.py *)

Module MavlinkModels.

Inductive AutopilotState : Type :=
| DISCONNECTED
| CONNECTING
| CONNECTED
| ARMED
| FLYING
| LANDING
| LANDED.

Record TelemetryData : Type := {
  latitude : R;
  longitude : R;
  altitude : R;
  heading : R;
  ground_speed : R;
  vertical_speed : R;
  battery_voltage : R;
  battery_remaining : Z;
  gps_fix_type : Z;
  satellites_visible : Z
}.

End MavlinkModels.

(** ** edge/mission_executor/models.py and executor.py *)

Module Executor.

Local Open Scope R_scope.

Inductive ExecutorState : Type :=
| IDLE
| LOADING
| EXECUTING
| PAUSED
| COMPLETING
| COMPLETED
| ABORTED.

Definition ExecutorState_eqb (a b : ExecutorState) : bool :=
  match a, b with
  | IDLE, IDLE | LOADING, LOADING | EXECUTING, EXECUTING | PAUSED, PAUSED
  | COMPLETING, COMPLETING | COMPLETED, COMPLETED | ABORTED, ABORTED => true
  | _, _ => false
  end.

Record Waypoint : Type := {
  latitude : R;
  longitude : R;
  altitude : R;
  speed : R;
  loiter_time_seconds : Z
}.

Record MissionSegment : Type := {
  segment_id : string;
  mission_id : string;
  waypoints : list Waypoint;
  capture_images : bool
}.

(** *** Navigation constants and the haversine distance *)

Definition _EARTH_RADIUS_METERS : R := 6371000.
Definition _DEFAULT_ARRIVAL_THRESHOLD_METERS : R := 2.
Definition _DEGREES_TO_RADIANS : R := PI / 180.

(** [math.atan2(y, x)]: the angle of the point [(x, y)], in (-pi, pi]. *)
Definition atan2 (y x : R) : R :=
  if Rlt_dec 0 x then atan (y / x)
  else if Rlt_dec x 0 then
    if Rle_dec 0 y then atan (y / x) + PI else atan (y / x) - PI
  else if Rlt_dec 0 y then PI / 2
  else if Rlt_dec y 0 then - (PI / 2)
  else 0.

(** Over the reals [haversine] lies between 0 and 1.  In binary64 it can
    round above 1 for two nearly antipodal points, and [math.sqrt] then
    raises [ValueError]; what is proved of the distance is stated where the
    term is a squared sine, or of both directions alike. *)
Definition _haversine_distance
    (latitude_1 longitude_1 latitude_2 longitude_2 : R) : R :=
  let delta_latitude := (latitude_2 - latitude_1) * _DEGREES_TO_RADIANS in
  let delta_longitude := (longitude_2 - longitude_1) * _DEGREES_TO_RADIANS in
  let latitude_1_radians := latitude_1 * _DEGREES_TO_RADIANS in
  let latitude_2_radians := latitude_2 * _DEGREES_TO_RADIANS in
  let haversine :=
    sin (delta_latitude / 2) ^ 2
    + cos latitude_1_radians * cos latitude_2_radians
      * sin (delta_longitude / 2) ^ 2 in
  let angular_distance := 2 * atan2 (sqrt haversine) (sqrt (1 - haversine)) in
  _EARTH_RADIUS_METERS * angular_distance.

(** *** The bridge, as the executor drives it *)

(** What another actor (the command callback, the supervisor loop) asks of
    the executor while a bridge call of [execute] blocks. *)
Inductive request : Type :=
| RequestPause
| RequestAbort.

(** One call of [bridge.get_telemetry()]: what it returns or raises, and
    the request that arrives while it blocks, if any. *)
Record poll : Type := {
  reply : outcome MavlinkModels.TelemetryData;
  meanwhile : option request
}.

(** The bridge object the executor holds: the [goto] and [set_mode] calls it
    has received (oldest first) and what the coming [get_telemetry] calls
    do.  [goto] and [set_mode] return; a [ConnectionError] of theirs would
    leave [execute] as it is raised. *)
Record Bridge : Type := {
  goto_calls : list (R * R * R);
  set_mode_calls : list string;
  telemetry_script : list poll
}.

Record MissionExecutor : Type := {
  _bridge : Bridge;
  _state : ExecutorState;
  _current_segment : option MissionSegment;
  _current_waypoint_index : nat;
  _arrival_threshold_meters : R
}.

Definition __init__ (bridge : Bridge) : MissionExecutor := {|
  _bridge := bridge;
  _state := IDLE;
  _current_segment := None;
  _current_waypoint_index := 0;
  _arrival_threshold_meters := _DEFAULT_ARRIVAL_THRESHOLD_METERS
|}.

Definition state (self : MissionExecutor) : ExecutorState := _state self.

Definition set_bridge (b : Bridge) (self : MissionExecutor) : MissionExecutor := {|
  _bridge := b;
  _state := _state self;
  _current_segment := _current_segment self;
  _current_waypoint_index := _current_waypoint_index self;
  _arrival_threshold_meters := _arrival_threshold_meters self
|}.

Definition set_state (st : ExecutorState) (self : MissionExecutor) : MissionExecutor := {|
  _bridge := _bridge self;
  _state := st;
  _current_segment := _current_segment self;
  _current_waypoint_index := _current_waypoint_index self;
  _arrival_threshold_meters := _arrival_threshold_meters self
|}.

Definition set_current_segment (s : option MissionSegment) (self : MissionExecutor)
  : MissionExecutor := {|
  _bridge := _bridge self;
  _state := _state self;
  _current_segment := s;
  _current_waypoint_index := _current_waypoint_index self;
  _arrival_threshold_meters := _arrival_threshold_meters self
|}.

Definition set_current_waypoint_index (i : nat) (self : MissionExecutor)
  : MissionExecutor := {|
  _bridge := _bridge self;
  _state := _state self;
  _current_segment := _current_segment self;
  _current_waypoint_index := i;
  _arrival_threshold_meters := _arrival_threshold_meters self
|}.

(** [self._bridge.goto(latitude=..., longitude=..., altitude=...)]. *)
Definition bridge_goto (target : R * R * R) (self : MissionExecutor) : MissionExecutor :=
  set_bridge {|
    goto_calls := goto_calls (_bridge self) ++ [target];
    set_mode_calls := set_mode_calls (_bridge self);
    telemetry_script := telemetry_script (_bridge self)
  |} self.

(** [self._bridge.set_mode(mode)]. *)
Definition bridge_set_mode (mode : string) (self : MissionExecutor) : MissionExecutor :=
  set_bridge {|
    goto_calls := goto_calls (_bridge self);
    set_mode_calls := set_mode_calls (_bridge self) ++ [mode];
    telemetry_script := telemetry_script (_bridge self)
  |} self.

Definition bridge_set_script (script : list poll) (self : MissionExecutor)
  : MissionExecutor :=
  set_bridge {|
    goto_calls := goto_calls (_bridge self);
    set_mode_calls := set_mode_calls (_bridge self);
    telemetry_script := script
  |} self.

(** *** The executor's operations *)

Definition load_segment (segment : MissionSegment) (self : MissionExecutor)
  : MissionExecutor * outcome unit :=
  if negb (ExecutorState_eqb (_state self) IDLE
           || ExecutorState_eqb (_state self) COMPLETED
           || ExecutorState_eqb (_state self) ABORTED)
  then (self, Raised RuntimeError)
  else
    match waypoints segment with
    | [] => (self, Raised ValueError)
    | _ :: _ =>
        let self := set_state LOADING self in
        let self := set_current_segment (Some segment) self in
        let self := set_current_waypoint_index 0 self in
        let self := set_state EXECUTING self in
        (self, Returned tt)
    end.

Definition pause (self : MissionExecutor) : MissionExecutor * outcome unit :=
  if negb (ExecutorState_eqb (_state self) EXECUTING) then (self, Raised RuntimeError)
  else
    let self := set_state PAUSED self in
    let self := bridge_set_mode "LOITER" self in
    (self, Returned tt).

Definition resume (self : MissionExecutor) : MissionExecutor * outcome unit :=
  if negb (ExecutorState_eqb (_state self) PAUSED) then (self, Raised RuntimeError)
  else (set_state EXECUTING self, Returned tt).

Definition abort (self : MissionExecutor) : MissionExecutor * outcome unit :=
  if ExecutorState_eqb (_state self) IDLE then (self, Raised RuntimeError)
  else
    let self := set_state ABORTED self in
    let self := bridge_set_mode "LOITER" self in
    (self, Returned tt).

Definition _require_segment (self : MissionExecutor) : outcome MissionSegment :=
  match _current_segment self with
  | None => Raised RuntimeError
  | Some segment => Returned segment
  end.

Definition _has_arrived (target : Waypoint) (current : MavlinkModels.TelemetryData)
    (threshold : R) : bool :=
  let distance :=
    _haversine_distance
      (MavlinkModels.latitude current) (MavlinkModels.longitude current)
      (latitude target) (longitude target) in
  if Rle_dec distance threshold then true else false.

(** The executor after the request of another actor: its call of [pause()]
    or [abort()], whose exception, if any, is the caller's. *)
Definition serve (r : option request) (self : MissionExecutor) : MissionExecutor :=
  match r with
  | None => self
  | Some RequestPause => fst (pause self)
  | Some RequestAbort => fst (abort self)
  end.

(** The polling loop of [_navigate_to_waypoint] over the [get_telemetry]
    calls of the script; [None] when the script ends with the loop still
    polling.  [time.sleep] changes nothing the executor holds. *)
Fixpoint poll_until_arrival (waypoint : Waypoint) (script : list poll)
    (self : MissionExecutor) : MissionExecutor * option (outcome unit) :=
  if ExecutorState_eqb (_state self) PAUSED || ExecutorState_eqb (_state self) ABORTED
  then (self, Some (Returned tt))
  else
    match script with
    | [] => (self, None)
    | p :: script =>
        let self := serve (meanwhile p) (bridge_set_script script self) in
        match reply p with
        | Raised ConnectionError | Raised TimeoutError =>
            poll_until_arrival waypoint script self
        | Raised e => (self, Some (Raised e))
        | Returned telemetry =>
            if _has_arrived waypoint telemetry (_arrival_threshold_meters self)
            then (self, Some (Returned tt))
            else poll_until_arrival waypoint script self
        end
    end.

Definition _navigate_to_waypoint (waypoint : Waypoint) (self : MissionExecutor)
  : MissionExecutor * option (outcome unit) :=
  let self :=
    bridge_goto (latitude waypoint, longitude waypoint, altitude waypoint) self in
  poll_until_arrival waypoint (telemetry_script (_bridge self)) self.

(** The [while] loop of [execute]; every turn that does not return moves
    the index forward, so [fuel] above the number of waypoints left is never
    used up. *)
Fixpoint execute_loop (fuel : nat) (segment : MissionSegment) (self : MissionExecutor)
  : MissionExecutor * option (outcome unit) :=
  match fuel with
  | O => (self, None)
  | S fuel =>
      if (_current_waypoint_index self <? List.length (waypoints segment))%nat then
        if ExecutorState_eqb (_state self) PAUSED then (self, Some (Returned tt))
        else if ExecutorState_eqb (_state self) ABORTED then (self, Some (Returned tt))
        else
          match nth_error (waypoints segment) (_current_waypoint_index self) with
          | None => (self, Some (Raised IndexError))
          | Some waypoint =>
              match _navigate_to_waypoint waypoint self with
              | (self, Some (Returned _)) =>
                  (* time.sleep(waypoint.loiter_time_seconds) when positive *)
                  execute_loop fuel segment
                    (set_current_waypoint_index (S (_current_waypoint_index self)) self)
              | (self, r) => (self, r)
              end
          end
      else (set_state COMPLETED self, Some (Returned tt))
  end.

Definition execute (self : MissionExecutor) : MissionExecutor * option (outcome unit) :=
  if negb (ExecutorState_eqb (_state self) EXECUTING)
  then (self, Some (Raised RuntimeError))
  else
    match _require_segment self with
    | Raised e => (self, Some (Raised e))
    | Returned segment =>
        execute_loop
          (S (List.length (waypoints segment) - _current_waypoint_index self))
          segment self
    end.

(** *** Progress reporting *)

Record WaypointProgress : Type := {
  progress_segment_id : string;
  current_waypoint_index : nat;
  total_waypoints : nat;
  distance_to_next_meters : R;
  estimated_time_remaining_seconds : R
}.

(** [WaypointProgress(...)]: the record, or pydantic's [ValidationError]
    when [total_waypoints] is below 1 or a float field is negative. *)
Definition make_progress (p : WaypointProgress) : outcome WaypointProgress :=
  if (1 <=? total_waypoints p)%nat then
    if Rle_dec 0 (distance_to_next_meters p) then
      if Rle_dec 0 (estimated_time_remaining_seconds p) then Returned p
      else Raised ValidationError
    else Raised ValidationError
  else Raised ValidationError.

(** The record [get_progress] builds once [distance_to_next] is known. *)
Definition progress_report (segment : MissionSegment) (distance_to_next : R)
    (self : MissionExecutor) : outcome WaypointProgress :=
  let remaining_waypoints :=
    (Z.of_nat (List.length (waypoints segment))
     - Z.of_nat (_current_waypoint_index self))%Z in
  let estimated_time := IZR remaining_waypoints * 30 in
  make_progress {|
    progress_segment_id := segment_id segment;
    current_waypoint_index := _current_waypoint_index self;
    total_waypoints := List.length (waypoints segment);
    distance_to_next_meters := distance_to_next;
    estimated_time_remaining_seconds := estimated_time
  |}.

(** [get_progress]; [None] when the script has no reply for the
    [get_telemetry] call it makes. *)
Definition get_progress (self : MissionExecutor)
  : MissionExecutor * option (outcome WaypointProgress) :=
  match _require_segment self with
  | Raised e => (self, Some (Raised e))
  | Returned segment =>
      if (_current_waypoint_index self <? List.length (waypoints segment))%nat then
        match telemetry_script (_bridge self) with
        | [] => (self, None)
        | p :: script =>
            let self := serve (meanwhile p) (bridge_set_script script self) in
            match reply p with
            | Returned telemetry =>
                match nth_error (waypoints segment) (_current_waypoint_index self) with
                | None => (self, Some (Raised IndexError))
                | Some target =>
                    (self,
                     Some (progress_report segment
                             (_haversine_distance
                                (MavlinkModels.latitude telemetry)
                                (MavlinkModels.longitude telemetry)
                                (latitude target) (longitude target))
                             self))
                end
            | Raised ConnectionError | Raised TimeoutError =>
                (self, Some (progress_report segment 0 self))
            | Raised e => (self, Some (Raised e))
            end
        end
      else (self, Some (progress_report segment 0 self))
  end.

End Executor.

(** ** edge/mavlink_bridge/bridge.py *)

Module Bridge.

Import MavlinkModels.
Local Open Scope R_scope.

Record MavlinkCommand : Type := {
  command_type : string;
  parameters : list (string * R);
  cmd_target_system : Z;
  cmd_target_component : Z
}.

(** [d.get(key)] on a dict kept as an association list. *)
Fixpoint dict_get {A : Type} (key : string) (d : list (string * A)) : option A :=
  match d with
  | [] => None
  | (k, v) :: d => if String.eqb k key then Some v else dict_get key d
  end.

(** *** The pymavlink connection *)

Record GLOBAL_POSITION_INT : Type := {
  lat : Z;
  lon : Z;
  relative_alt : Z;
  hdg : Z;
  vx : Z;
  vz : Z
}.

Record SYS_STATUS : Type := {
  voltage_battery : Z;
  status_battery_remaining : Z
}.

Record GPS_RAW_INT : Type := {
  fix_type : Z;
  gps_satellites_visible : Z
}.

(** What the bridge asks of the connection. *)
Inductive sent : Type :=
| request_data_stream_send (system component : Z) (stream_id rate start : Z)
| arducopter_arm
| motors_armed_wait
| arducopter_disarm
| motors_disarmed_wait
| set_mode_send (mode_id : Z)
| mission_item_int_send (system component : Z) (latitude_int longitude_int : Z) (altitude : R)
| command_long_send_takeoff (system component : Z) (altitude : R)
| close.

(** The [mavfile] object: the autopilot's identifiers and mode table, what
    has been sent through it (oldest first), and what the coming
    [recv_match] calls return for each message type ([None] on timeout, as
    when no reply is left). *)
Record mavfile : Type := {
  target_system : Z;
  target_component : Z;
  mode_mapping : list (string * Z);
  outbox : list sent;
  position_replies : list (option GLOBAL_POSITION_INT);
  status_replies : list (option SYS_STATUS);
  gps_replies : list (option GPS_RAW_INT)
}.

Definition MAV_DATA_STREAM_EXTENDED_STATUS : Z := 2.
Definition MAV_DATA_STREAM_POSITION : Z := 6.

(** *** The bridge *)

Definition _HEARTBEAT_TIMEOUT_SECONDS : Z := 30.
Definition _MESSAGE_TIMEOUT_SECONDS : R := 5.
Definition _COORDINATE_SCALE : R := 1 / 10 ^ 7.
Definition _HEADING_SCALE : R := 100.
Definition _SPEED_SCALE : R := 100.
Definition _DATA_STREAM_RATE_HZ : Z := 4.
Definition _VOLTAGE_SCALE : R := 1000.

Definition _COMMAND_ARM : string := "ARM".
Definition _COMMAND_DISARM : string := "DISARM".
Definition _COMMAND_SET_MODE : string := "SET_MODE".
Definition _COMMAND_TAKEOFF : string := "TAKEOFF".
Definition _COMMAND_GOTO : string := "GOTO".
Definition _COMMAND_LAND : string := "LAND".
Definition _COMMAND_RTL : string := "RTL".

Record MavlinkBridge : Type := {
  _connection : option mavfile;
  _state : AutopilotState
}.

Definition __init__ : MavlinkBridge := {|
  _connection := None;
  _state := DISCONNECTED
|}.

Definition state (self : MavlinkBridge) : AutopilotState := _state self.

(** A method of the bridge: from the bridge before the call to the bridge
    after it and what the call returns or raises. *)
Definition method (A : Type) : Type := MavlinkBridge -> MavlinkBridge * outcome A.

Definition ret {A : Type} (a : A) : method A := fun self => (self, Returned a).

Definition raise {A : Type} (e : exn) : method A := fun self => (self, Raised e).

Definition bind {A B : Type} (m : method A) (k : A -> method B) : method B :=
  fun self =>
    match m self with
    | (self, Returned a) => k a self
    | (self, Raised e) => (self, Raised e)
    end.

Notation "x <- m ;; k" := (bind m (fun x => k))
  (at level 61, m at next level, right associativity).
Notation "m ;; k" := (bind m (fun _ => k))
  (at level 61, right associativity).

Definition set_state (st : AutopilotState) : method unit :=
  fun self => ({| _connection := _connection self; _state := st |}, Returned tt).

Definition set_connection (c : option mavfile) : method unit :=
  fun self => ({| _connection := c; _state := _state self |}, Returned tt).

Definition AutopilotState_eqb (a b : AutopilotState) : bool :=
  match a, b with
  | DISCONNECTED, DISCONNECTED | CONNECTING, CONNECTING | CONNECTED, CONNECTED
  | ARMED, ARMED | FLYING, FLYING | LANDING, LANDING | LANDED, LANDED => true
  | _, _ => false
  end.

Definition _require_connection : method unit :=
  fun self =>
    match _connection self with
    | None => (self, Raised ConnectionError)
    | Some _ =>
        if AutopilotState_eqb (_state self) DISCONNECTED
        then (self, Raised ConnectionError)
        else (self, Returned tt)
    end.

Definition _get_connection : method mavfile :=
  fun self =>
    match _connection self with
    | None => (self, Raised ConnectionError)
    | Some connection => (self, Returned connection)
    end.

(** A call on the connection object that sends [s]. *)
Definition send (s : sent) : method unit :=
  connection <- _get_connection ;;
  set_connection (Some {|
    target_system := target_system connection;
    target_component := target_component connection;
    mode_mapping := mode_mapping connection;
    outbox := outbox connection ++ [s];
    position_replies := position_replies connection;
    status_replies := status_replies connection;
    gps_replies := gps_replies connection
  |}).

(** [connection.recv_match(type=..., blocking=True, timeout=5.0)], one
    function per message type. *)
Definition recv_position : method (option GLOBAL_POSITION_INT) :=
  connection <- _get_connection ;;
  set_connection (Some {|
    target_system := target_system connection;
    target_component := target_component connection;
    mode_mapping := mode_mapping connection;
    outbox := outbox connection;
    position_replies := tl (position_replies connection);
    status_replies := status_replies connection;
    gps_replies := gps_replies connection
  |}) ;;
  ret (match position_replies connection with r :: _ => r | [] => None end).

Definition recv_status : method (option SYS_STATUS) :=
  connection <- _get_connection ;;
  set_connection (Some {|
    target_system := target_system connection;
    target_component := target_component connection;
    mode_mapping := mode_mapping connection;
    outbox := outbox connection;
    position_replies := position_replies connection;
    status_replies := tl (status_replies connection);
    gps_replies := gps_replies connection
  |}) ;;
  ret (match status_replies connection with r :: _ => r | [] => None end).

Definition recv_gps : method (option GPS_RAW_INT) :=
  connection <- _get_connection ;;
  set_connection (Some {|
    target_system := target_system connection;
    target_component := target_component connection;
    mode_mapping := mode_mapping connection;
    outbox := outbox connection;
    position_replies := position_replies connection;
    status_replies := status_replies connection;
    gps_replies := tl (gps_replies connection)
  |}) ;;
  ret (match gps_replies connection with r :: _ => r | [] => None end).

Definition _request_data_streams : method unit :=
  connection <- _get_connection ;;
  send (request_data_stream_send (target_system connection) (target_component connection)
          MAV_DATA_STREAM_POSITION _DATA_STREAM_RATE_HZ 1) ;;
  send (request_data_stream_send (target_system connection) (target_component connection)
          MAV_DATA_STREAM_EXTENDED_STATUS _DATA_STREAM_RATE_HZ 1).

(** [connect]; [link] is what [mavutil.mavlink_connection] gives and
    [heartbeat] what [wait_heartbeat] then does: either can raise, and the
    connection object stays assigned when only the second does. *)
Definition connect (link : outcome mavfile) (heartbeat : outcome unit) : method unit :=
  set_state CONNECTING ;;
  match link with
  | Raised _ => set_state DISCONNECTED ;; raise ConnectionError
  | Returned connection =>
      set_connection (Some connection) ;;
      match heartbeat with
      | Raised _ => set_state DISCONNECTED ;; raise ConnectionError
      | Returned _ => set_state CONNECTED ;; _request_data_streams
      end
  end.

Definition disconnect : method unit :=
  fun self =>
    match _connection self with
    | Some _ => (send close ;; set_connection None ;; set_state DISCONNECTED) self
    | None => set_state DISCONNECTED self
    end.

Definition Rleb (x y : R) : bool := if Rle_dec x y then true else false.

(** [TelemetryData(...)]: the record, or pydantic's [ValidationError] when a
    field is outside its [Field] range. *)
Definition make_telemetry (t : TelemetryData) : method TelemetryData :=
  if Rleb 0 (heading t) && Rleb (heading t) 360
     && Rleb 0 (ground_speed t)
     && Rleb 0 (battery_voltage t)
     && (0 <=? battery_remaining t)%Z && (battery_remaining t <=? 100)%Z
     && (0 <=? gps_fix_type t)%Z
     && (0 <=? satellites_visible t)%Z
  then ret t
  else raise ValidationError.

Definition get_telemetry : method TelemetryData :=
  _require_connection ;;
  position <- recv_position ;;
  match position with
  | None => raise TimeoutError
  | Some position =>
      system_status <- recv_status ;;
      match system_status with
      | None => raise TimeoutError
      | Some system_status =>
          gps_raw <- recv_gps ;;
          match gps_raw with
          | None => raise TimeoutError
          | Some gps_raw =>
              make_telemetry {|
                latitude := IZR (lat position) * _COORDINATE_SCALE;
                longitude := IZR (lon position) * _COORDINATE_SCALE;
                altitude := IZR (relative_alt position) / _SPEED_SCALE;
                heading := IZR (hdg position) / _HEADING_SCALE;
                ground_speed := Rmax 0 (IZR (vx position) / _SPEED_SCALE);
                vertical_speed := IZR (vz position) / _SPEED_SCALE;
                battery_voltage := IZR (voltage_battery system_status) / _VOLTAGE_SCALE;
                battery_remaining := status_battery_remaining system_status;
                gps_fix_type := fix_type gps_raw;
                satellites_visible := gps_satellites_visible gps_raw
              |}
          end
      end
  end.

Definition arm : method unit :=
  _require_connection ;;
  send arducopter_arm ;;
  send motors_armed_wait ;;
  set_state ARMED.

Definition disarm : method unit :=
  _require_connection ;;
  send arducopter_disarm ;;
  send motors_disarmed_wait ;;
  set_state CONNECTED.

Definition set_mode (mode : string) : method unit :=
  _require_connection ;;
  connection <- _get_connection ;;
  match dict_get mode (mode_mapping connection) with
  | None => raise ValueError
  | Some mode_id => send (set_mode_send mode_id)
  end.

(** [int(x)] of a float: truncation towards zero. *)
Definition int_of (x : R) : Z :=
  if Rle_dec 0 x then Int_part x else (- Int_part (- x))%Z.

(** [goto].  The coordinates go out as the integers
    [int(latitude / _COORDINATE_SCALE)] and [int(longitude / _COORDINATE_SCALE)].
    The code truncates the binary64 quotient, the model the exact one, and
    the two can differ by one; what is proved of [goto] leaves the two
    integers open. *)
Definition goto (latitude longitude altitude : R) : method unit :=
  _require_connection ;;
  connection <- _get_connection ;;
  send (mission_item_int_send (target_system connection) (target_component connection)
          (int_of (latitude / _COORDINATE_SCALE))
          (int_of (longitude / _COORDINATE_SCALE))
          altitude) ;;
  set_state FLYING.

Definition takeoff (altitude : R) : method unit :=
  _require_connection ;;
  connection <- _get_connection ;;
  send (command_long_send_takeoff (target_system connection) (target_component connection)
          altitude) ;;
  set_state FLYING.

Definition land : method unit :=
  set_mode "LAND" ;;
  set_state LANDING.

Definition _handle_arm (_command : MavlinkCommand) : method unit := arm.

Definition _handle_disarm (_command : MavlinkCommand) : method unit := disarm.

(** The parameters are floats, so the mode is [str(int(mode))]. *)
Definition _handle_set_mode (command : MavlinkCommand) : method unit :=
  match dict_get "mode" (parameters command) with
  | None => raise ValueError
  | Some mode => set_mode (NilEmpty.string_of_int (Z.to_int (int_of mode)))
  end.

Definition _handle_takeoff (command : MavlinkCommand) : method unit :=
  match dict_get "altitude" (parameters command) with
  | None => raise ValueError
  | Some altitude => takeoff altitude
  end.

Definition _handle_goto (command : MavlinkCommand) : method unit :=
  match dict_get "latitude" (parameters command),
        dict_get "longitude" (parameters command),
        dict_get "altitude" (parameters command) with
  | Some latitude, Some longitude, Some altitude => goto latitude longitude altitude
  | _, _, _ => raise ValueError
  end.

Definition _handle_land (_command : MavlinkCommand) : method unit := land.

Definition _handle_rtl (_command : MavlinkCommand) : method unit :=
  set_mode "RTL" ;;
  set_state FLYING.

Definition _command_handlers : list (string * (MavlinkCommand -> method unit)) :=
  [ (_COMMAND_ARM, _handle_arm);
    (_COMMAND_DISARM, _handle_disarm);
    (_COMMAND_SET_MODE, _handle_set_mode);
    (_COMMAND_TAKEOFF, _handle_takeoff);
    (_COMMAND_GOTO, _handle_goto);
    (_COMMAND_LAND, _handle_land);
    (_COMMAND_RTL, _handle_rtl) ].

Definition send_command (command : MavlinkCommand) : method unit :=
  _require_connection ;;
  match dict_get (command_type command) _command_handlers with
  | None => raise ValueError
  | Some handler => handler command
  end.

End Bridge.

(** ** edge/obstacle_avoidance/models.py and avoidance.py *)

Module Avoidance.

Local Open Scope float_scope.

Inductive ObstacleSeverity : Type :=
| NONE
| LOW
| MEDIUM
| HIGH
| CRITICAL.

Definition ObstacleSeverity_eqb (a b : ObstacleSeverity) : bool :=
  match a, b with
  | NONE, NONE | LOW, LOW | MEDIUM, MEDIUM | HIGH, HIGH | CRITICAL, CRITICAL => true
  | _, _ => false
  end.

Record DepthFrame : Type := {
  width : Z;
  height : Z;
  min_distance_meters : float;
  max_distance_meters : float;
  timestamp_ms : Z
}.

(** The [Field] ranges of [ObstacleDetection] and [AvoidanceManeuver] are
    not checked again when the classifier builds them. *)
Record ObstacleDetection : Type := {
  distance_meters : float;
  bearing_degrees : float;
  severity : ObstacleSeverity;
  width_meters : float;
  height_meters : float
}.

Record AvoidanceManeuver : Type := {
  maneuver_type : string;
  magnitude_meters : float;
  duration_seconds : float;
  priority : Z
}.

Definition _CRITICAL_RATIO : float := 0.2.
Definition _HIGH_RATIO : float := 0.4.
Definition _MEDIUM_RATIO : float := 0.6.
Definition _LOW_RATIO : float := 0.8.

Definition _CLIMB_MAGNITUDE_METERS : float := 5.0.
Definition _LATERAL_MAGNITUDE_METERS : float := 3.0.
Definition _HOLD_DURATION_SECONDS : float := 2.0.
Definition _CLIMB_DURATION_SECONDS : float := 3.0.
Definition _LATERAL_DURATION_SECONDS : float := 2.5.

Definition _MANEUVER_HOLD : string := "hold".
Definition _MANEUVER_CLIMB : string := "climb".
Definition _MANEUVER_LATERAL_LEFT : string := "lateral_left".
Definition _MANEUVER_LATERAL_RIGHT : string := "lateral_right".

Definition _PRIORITY_CRITICAL : Z := 10.
Definition _PRIORITY_HIGH : Z := 8.
Definition _PRIORITY_MEDIUM : Z := 5.
Definition _PRIORITY_LOW : Z := 2.

Definition _BEARING_CENTER_THRESHOLD_DEGREES : float := 15.0.

(** The two settings the classifier reads from [EdgeSettings]. *)
Record ObstacleAvoidance : Type := {
  _detection_range_meters : float;
  _minimum_clearance_meters : float
}.

Definition __init__ (obstacle_detection_range_meters minimum_clearance_meters : float)
  : ObstacleAvoidance := {|
  _detection_range_meters := obstacle_detection_range_meters;
  _minimum_clearance_meters := minimum_clearance_meters
|}.

(** Python's [max(a, b)]: [b] when [b > a], else [a]. *)
Definition max (a b : float) : float := if a <? b then b else a.

Definition _classify_severity (distance detection_range : float) : ObstacleSeverity :=
  if detection_range <=? 0.0 then NONE
  else
    let ratio := distance / detection_range in
    if ratio <=? _CRITICAL_RATIO then CRITICAL
    else if ratio <=? _HIGH_RATIO then HIGH
    else if ratio <=? _MEDIUM_RATIO then MEDIUM
    else if ratio <=? _LOW_RATIO then LOW
    else NONE.

Definition _estimate_obstacle_width (frame : DepthFrame) : float :=
  if max_distance_meters frame <=? 0.0 then 1.0
  else
    let depth_range := max_distance_meters frame - min_distance_meters frame in
    let coverage_ratio := 1.0 - depth_range / max_distance_meters frame in
    max 0.5 (coverage_ratio * min_distance_meters frame * 0.5).

Definition _estimate_bearing (frame : DepthFrame) : float := 0.0.

Definition process_depth_frame (frame : DepthFrame) (self : ObstacleAvoidance)
  : list ObstacleDetection :=
  let detections : list ObstacleDetection := [] in
  if min_distance_meters frame <=? 0.0 then detections
  else if _detection_range_meters self <? min_distance_meters frame then detections
  else
    let severity :=
      _classify_severity (min_distance_meters frame) (_detection_range_meters self) in
    if negb (ObstacleSeverity_eqb severity NONE) then
      let estimated_width := _estimate_obstacle_width frame in
      let estimated_bearing := _estimate_bearing frame in
      let detection := {|
        distance_meters := min_distance_meters frame;
        bearing_degrees := estimated_bearing;
        severity := severity;
        width_meters := estimated_width;
        height_meters := estimated_width * 0.75
      |} in
      detections ++ [detection]
    else detections.

Definition _choose_lateral_direction (bearing_degrees : float) : string :=
  if _BEARING_CENTER_THRESHOLD_DEGREES <? bearing_degrees then _MANEUVER_LATERAL_LEFT
  else if bearing_degrees <? - _BEARING_CENTER_THRESHOLD_DEGREES then _MANEUVER_LATERAL_RIGHT
  else _MANEUVER_CLIMB.

Definition _select_maneuver (detection : ObstacleDetection) : AvoidanceManeuver :=
  if ObstacleSeverity_eqb (severity detection) CRITICAL then {|
    maneuver_type := _MANEUVER_HOLD;
    magnitude_meters := 0.0;
    duration_seconds := _HOLD_DURATION_SECONDS;
    priority := _PRIORITY_CRITICAL
  |}
  else if ObstacleSeverity_eqb (severity detection) HIGH then {|
    maneuver_type := _MANEUVER_CLIMB;
    magnitude_meters := _CLIMB_MAGNITUDE_METERS;
    duration_seconds := _CLIMB_DURATION_SECONDS;
    priority := _PRIORITY_HIGH
  |}
  else
    let lateral_direction := _choose_lateral_direction (bearing_degrees detection) in
    let priority :=
      if ObstacleSeverity_eqb (severity detection) MEDIUM
      then _PRIORITY_MEDIUM else _PRIORITY_LOW in
    {|
      maneuver_type := lateral_direction;
      magnitude_meters := _LATERAL_MAGNITUDE_METERS;
      duration_seconds := _LATERAL_DURATION_SECONDS;
      priority := priority
    |}.

(** [sorted(detections, key=lambda detection: detection.distance_meters)]:
    a stable sort, each detection going behind those that are not farther. *)
Fixpoint insert_by_distance (d : ObstacleDetection) (l : list ObstacleDetection)
  : list ObstacleDetection :=
  match l with
  | [] => [d]
  | x :: l' =>
      if distance_meters d <? distance_meters x then d :: x :: l'
      else x :: insert_by_distance d l'
  end.

Definition sorted_by_distance (detections : list ObstacleDetection)
  : list ObstacleDetection :=
  fold_left (fun acc d => insert_by_distance d acc) detections [].

Definition compute_avoidance (detections : list ObstacleDetection)
    (self : ObstacleAvoidance) : option AvoidanceManeuver :=
  match detections with
  | [] => None
  | _ :: _ =>
      match sorted_by_distance detections with
      | [] => None
      | most_critical :: _ =>
          if ObstacleSeverity_eqb (severity most_critical) NONE then None
          else if _minimum_clearance_meters self <=? distance_meters most_critical then None
          else Some (_select_maneuver most_critical)
      end
  end.

End Avoidance.

(** ** edge/main.py: the supervisor's reaction to the fail-safe state *)

Module Supervisor.

(** [EdgeApplication._handle_fail_safe_state].  The application and the
    executor hold the same bridge object, so the mode the application sets
    is recorded on the bridge the executor carries. *)
Definition _handle_fail_safe_state (fail_safe : FailSafe.FailSafeManager)
    (executor : Executor.MissionExecutor) : Executor.MissionExecutor * outcome unit :=
  if FailSafe.should_return fail_safe then
    match Executor.abort executor with
    | (executor, Raised e) => (executor, Raised e)
    | (executor, Returned _) => (Executor.bridge_set_mode "RTL" executor, Returned tt)
    end
  else if FailSafe.should_hold fail_safe then
    (Executor.bridge_set_mode "LOITER" executor, Returned tt)
  else (executor, Returned tt).

End Supervisor.

(* ================================================================== *)
(** * Properties *)

(** ** Configuration *)

Section ConfigFacts.
Import Config.

Lemma field_ok_iff (lo hi v : Z) :
  field_ok lo hi v = true <-> (lo <= v <= hi)%Z.
Proof. unfold field_ok. rewrite andb_true_iff, !Z.leb_le. tauto. Qed.

Lemma app_nil_iff {A : Type} (l1 l2 : list A) :
  l1 ++ l2 = [] <-> l1 = [] /\ l2 = [].
Proof.
  split.
  - apply app_eq_nil.
  - intros [-> ->]. reflexivity.
Qed.

Lemma check_nil_iff (name : string) (ok : bool) :
  (if ok then [] else [name]) = [] <-> ok = true.
Proof. destruct ok; split; intro H; try reflexivity; discriminate H. Qed.

Lemma validate_accepts_iff (s : EdgeSettings) :
  validate s = Returned s <->
  (1 <= mqtt_port s <= 65535)%Z /\
  (1 <= image_capture_interval_seconds s <= 60)%Z /\
  (1 <= image_compression_quality s <= 100)%Z /\
  (1 <= telemetry_report_interval_seconds s <= 30)%Z /\
  (5 <= degraded_threshold_seconds s <= 60)%Z /\
  (15 <= holding_threshold_seconds s <= 120)%Z /\
  (60 <= return_threshold_seconds s <= 600)%Z.
Proof.
  unfold validate.
  assert (E : field_errors s = [] <->
    (1 <= mqtt_port s <= 65535)%Z /\
    (1 <= image_capture_interval_seconds s <= 60)%Z /\
    (1 <= image_compression_quality s <= 100)%Z /\
    (1 <= telemetry_report_interval_seconds s <= 30)%Z /\
    (5 <= degraded_threshold_seconds s <= 60)%Z /\
    (15 <= holding_threshold_seconds s <= 120)%Z /\
    (60 <= return_threshold_seconds s <= 600)%Z).
  { unfold field_errors.
    rewrite !app_nil_iff, !check_nil_iff, !field_ok_iff. tauto. }
  destruct (field_errors s) eqn:F.
  - split; [intros _; apply E; reflexivity | reflexivity].
  - split; [discriminate | intro H; apply E in H; discriminate H].
Qed.

End ConfigFacts.

(** The settings of the repository's own test [test_degraded_threshold_maximum]:
    every field at its default but a degraded threshold of 60 s. *)
Definition settings_degraded_60 : Config.EdgeSettings := {|
  Config.mqtt_port := 1883;
  Config.image_capture_interval_seconds := 5;
  Config.image_compression_quality := 85;
  Config.telemetry_report_interval_seconds := 2;
  Config.degraded_threshold_seconds := 60;
  Config.holding_threshold_seconds := 30;
  Config.return_threshold_seconds := 120
|}.

(** Every field at its default but a holding threshold of 120 s and a return
    threshold of 60 s, each at an end of its own range. *)
Definition settings_return_60 : Config.EdgeSettings := {|
  Config.mqtt_port := 1883;
  Config.image_capture_interval_seconds := 5;
  Config.image_compression_quality := 85;
  Config.telemetry_report_interval_seconds := 2;
  Config.degraded_threshold_seconds := 10;
  Config.holding_threshold_seconds := 120;
  Config.return_threshold_seconds := 60
|}.

(** C3, as stated, fails in both halves: settings whose degraded threshold
    (60 s) is above the holding threshold (30 s) pass validation, and so do
    settings whose holding threshold (120 s) is above the return threshold
    (60 s). *)
Lemma validate_accepts_unordered_thresholds :
  (Config.validate settings_degraded_60 = Returned settings_degraded_60 /\
   (Config.holding_threshold_seconds settings_degraded_60
    < Config.degraded_threshold_seconds settings_degraded_60)%Z) /\
  (Config.validate settings_return_60 = Returned settings_return_60 /\
   (Config.return_threshold_seconds settings_return_60
    < Config.holding_threshold_seconds settings_return_60)%Z).
Proof. repeat split. Qed.

(** C3, amended: validation raises exactly when some field is outside its own
    range; for the fail-safe thresholds these are degraded in [5,60], holding
    in [15,120] and return in [60,600].  Every accepted configuration has its
    thresholds in these ranges, hence degraded <= return; the thresholds are
    not compared with each other: whenever each of the three is in its range
    the thresholds are accepted, so there are accepted configurations with
    holding below degraded and accepted configurations with return below
    holding. *)
Theorem validate_checks_each_threshold_range :
  (forall s : Config.EdgeSettings,
     (Config.validate s = Returned s \/ Config.validate s = Raised ValidationError) /\
     (Config.validate s = Returned s ->
        (5 <= Config.degraded_threshold_seconds s <= 60)%Z /\
        (15 <= Config.holding_threshold_seconds s <= 120)%Z /\
        (60 <= Config.return_threshold_seconds s <= 600)%Z /\
        (Config.degraded_threshold_seconds s <= Config.return_threshold_seconds s)%Z) /\
     (~ ((5 <= Config.degraded_threshold_seconds s <= 60)%Z /\
         (15 <= Config.holding_threshold_seconds s <= 120)%Z /\
         (60 <= Config.return_threshold_seconds s <= 600)%Z) ->
      Config.validate s = Raised ValidationError)) /\
  (forall degraded holding return_ : Z,
     (5 <= degraded <= 60)%Z -> (15 <= holding <= 120)%Z -> (60 <= return_ <= 600)%Z ->
     exists s : Config.EdgeSettings,
       Config.validate s = Returned s /\
       Config.degraded_threshold_seconds s = degraded /\
       Config.holding_threshold_seconds s = holding /\
       Config.return_threshold_seconds s = return_) /\
  (exists s : Config.EdgeSettings,
     Config.validate s = Returned s /\
     (Config.holding_threshold_seconds s < Config.degraded_threshold_seconds s)%Z) /\
  (exists s : Config.EdgeSettings,
     Config.validate s = Returned s /\
     (Config.return_threshold_seconds s < Config.holding_threshold_seconds s)%Z).
Proof.
  split; [ | split; [ | split]].
  - intro s.
    assert (D : Config.validate s = Returned s \/ Config.validate s = Raised ValidationError).
    { unfold Config.validate. destruct (Config.field_errors s); [left | right]; reflexivity. }
    split; [exact D | split].
    + intro H. apply validate_accepts_iff in H. lia.
    + intro N. destruct D as [A | A]; [ | exact A].
      exfalso. apply N. apply validate_accepts_iff in A. lia.
  - intros degraded holding return_ D H R.
    exists {| Config.mqtt_port := 1883;
              Config.image_capture_interval_seconds := 5;
              Config.image_compression_quality := 85;
              Config.telemetry_report_interval_seconds := 2;
              Config.degraded_threshold_seconds := degraded;
              Config.holding_threshold_seconds := holding;
              Config.return_threshold_seconds := return_ |}.
    split; [ | auto]. apply validate_accepts_iff. cbn. lia.
  - exists settings_degraded_60. split; reflexivity.
  - exists settings_return_60. split; reflexivity.
Qed.

Lemma validate_checks_each_threshold_range_defaults :
  Config.validate Config.defaults = Returned Config.defaults /\
  (5 <= Config.degraded_threshold_seconds Config.defaults <= 60)%Z /\
  (15 <= Config.holding_threshold_seconds Config.defaults <= 120)%Z /\
  (60 <= Config.return_threshold_seconds Config.defaults <= 600)%Z /\
  (Config.degraded_threshold_seconds Config.defaults
   <= Config.return_threshold_seconds Config.defaults)%Z.
Proof.
  split; [reflexivity | ].
  destruct validate_checks_each_threshold_range as (A & _).
  destruct (A Config.defaults) as (_ & R & _).
  apply R. reflexivity.
Defined.

(** ** Binary64 rounding

    What [SFsub], the subtraction of [PrimFloat] ([sub_spec]), computes:
    the exact difference rounded to 53 digits, ties to even.  It is used
    below for one fact, that the elapsed time [now - since] of the fail-safe
    manager does not go back when the clock does not. *)

Section Binary64Rounding.
Local Open Scope Z_scope.

(** *** Shifting and rounding a mantissa *)

Lemma pow2_pred (j : Z) : 0 < j -> 2 ^ j = 2 * 2 ^ (j - 1).
Proof.
  intro P. replace j with (Z.succ (j - 1)) at 1 by lia. apply Z.pow_succ_r. lia.
Qed.

(** The low [j] bits of [m]: the low [j - 1] bits and the bit above them. *)
Lemma mod_pow2_split (m j : Z) :
  0 < j ->
  m mod 2 ^ j = m mod 2 ^ (j - 1) + 2 ^ (j - 1) * ((m / 2 ^ (j - 1)) mod 2).
Proof.
  intro P. rewrite (pow2_pred j P), (Z.mul_comm 2).
  apply Z.rem_mul_r; lia.
Qed.

(** [shr_1] on a mantissa that is not negative. *)
Lemma shr_1_nonneg (m : Z) (r s : bool) :
  0 <= m ->
  shr_1 {| shr_m := m; shr_r := r; shr_s := s |}
  = {| shr_m := m / 2; shr_r := Z.odd m; shr_s := r || s |}.
Proof.
  intro P. destruct m as [ | p | p]; [reflexivity | | lia].
  destruct p as [p | p | ]; cbn [shr_1]; rewrite <- Z.div2_div; reflexivity.
Qed.

(** The record after [j] shifts of [m]: the quotient, the last bit shifted
    out, and whether a bit shifted out before it was set. *)
Definition shifted (m : Z) (j : Z) : shr_record := {|
  shr_m := m / 2 ^ j;
  shr_r := if j =? 0 then false else Z.odd (m / 2 ^ (j - 1));
  shr_s := if j =? 0 then false else negb (m mod 2 ^ (j - 1) =? 0)
|}.

Lemma shr_1_shifted (m j : Z) :
  0 <= m -> 0 <= j -> shr_1 (shifted m j) = shifted m (j + 1).
Proof.
  intros P J. unfold shifted. rewrite shr_1_nonneg by (apply Z.div_pos; lia).
  replace (j + 1 - 1) with j by lia.
  replace (j + 1 =? 0) with false by (symmetry; apply Z.eqb_neq; lia).
  f_equal.
  - rewrite Z.div_div by lia. rewrite Z.pow_add_r by lia. reflexivity.
  - destruct (Z.eqb_spec j 0) as [E | N].
    + subst j. cbn. rewrite Z.mod_1_r. reflexivity.
    + rewrite (mod_pow2_split m j) by lia.
      pose proof (Z.mod_pos_bound m (2 ^ (j - 1)) ltac:(lia)) as B.
      assert (T : 0 < 2 ^ (j - 1)) by lia.
      rewrite Zodd_mod.
      destruct (Z.eqb_spec ((m / 2 ^ (j - 1)) mod 2) 1) as [O | O].
      * rewrite O. cbn [orb]. symmetry. apply negb_true_iff, Z.eqb_neq. lia.
      * assert (Zr : (m / 2 ^ (j - 1)) mod 2 = 0).
        { pose proof (Z.mod_pos_bound (m / 2 ^ (j - 1)) 2 ltac:(lia)). lia. }
        rewrite Zr. cbn [orb]. rewrite Z.mul_0_r, Z.add_0_r. reflexivity.
Qed.

Lemma iter_pos_shr_1 (p : positive) (m j : Z) :
  0 <= m -> 0 <= j ->
  SpecFloat.iter_pos shr_1 p (shifted m j) = shifted m (j + Zpos p).
Proof.
  intro P. revert j. induction p as [p IH | p IH | ]; intros j J; cbn [SpecFloat.iter_pos].
  - rewrite shr_1_shifted, IH, IH by lia. f_equal. lia.
  - rewrite IH, IH by lia. f_equal. lia.
  - apply shr_1_shifted; assumption.
Qed.

Lemma shifted_0 (m : Z) :
  shifted m 0 = {| shr_m := m; shr_r := false; shr_s := false |}.
Proof. unfold shifted. cbn. rewrite Z.div_1_r. reflexivity. Qed.

(** [shr] from an exact record. *)
Lemma shr_exact (m e n : Z) :
  0 <= m -> 0 <= n ->
  shr {| shr_m := m; shr_r := false; shr_s := false |} e n = (shifted m n, e + n).
Proof.
  intros P N. rewrite <- shifted_0. unfold shr. destruct n as [ | p | p]; [ | | lia].
  - rewrite Z.add_0_r. reflexivity.
  - rewrite iter_pos_shr_1 by lia. reflexivity.
Qed.

(** Rounding [m / 2^n] to the nearest integer, ties to even. *)
Definition rne (m n : Z) : Z :=
  let q := m / 2 ^ n in
  match 2 * (m mod 2 ^ n) ?= 2 ^ n with
  | Lt => q
  | Eq => if Z.even q then q else q + 1
  | Gt => q + 1
  end.

Lemma round_shifted (m n : Z) :
  0 <= m -> 0 <= n ->
  round_nearest_even (shr_m (shifted m n)) (loc_of_shr_record (shifted m n)) = rne m n.
Proof.
  intros P N. unfold rne, shifted. cbn [shr_m loc_of_shr_record].
  destruct (Z.eqb_spec n 0) as [E | NE].
  - subst n. cbn. rewrite Z.mod_1_r. reflexivity.
  - pose proof (Z.mod_pos_bound m (2 ^ (n - 1)) ltac:(lia)) as B.
    assert (T' : 0 < 2 ^ (n - 1)) by lia.
    rewrite (mod_pow2_split m n) by lia. rewrite (pow2_pred n) by lia.
    rewrite Zodd_mod.
    destruct (Z.eqb_spec ((m / 2 ^ (n - 1)) mod 2) 1) as [O | O].
    + rewrite O.
      destruct (Z.eqb_spec (m mod 2 ^ (n - 1)) 0) as [S | S]; cbn [negb round_nearest_even].
      * rewrite S. replace (2 * (0 + 2 ^ (n - 1) * 1)) with (2 * 2 ^ (n - 1)) by lia.
        rewrite Z.compare_refl. reflexivity.
      * assert (G : 2 * (m mod 2 ^ (n - 1) + 2 ^ (n - 1) * 1) > 2 * 2 ^ (n - 1)) by lia.
        rewrite G. reflexivity.
    + assert (Zr : (m / 2 ^ (n - 1)) mod 2 = 0).
      { pose proof (Z.mod_pos_bound (m / 2 ^ (n - 1)) 2 ltac:(lia)). lia. }
      rewrite Zr, Z.mul_0_r, Z.add_0_r.
      assert (L : 2 * (m mod 2 ^ (n - 1)) < 2 * 2 ^ (n - 1)) by lia.
      rewrite L.
      destruct (negb (m mod 2 ^ (n - 1) =? 0)); reflexivity.
Qed.

(** *** The number of binary digits *)

Lemma digits2_pos_bounds (m : positive) :
  2 ^ (Zpos (digits2_pos m) - 1) <= Zpos m < 2 ^ Zpos (digits2_pos m).
Proof.
  induction m as [m IH | m IH | ]; cbn [digits2_pos].
  - rewrite Pos2Z.inj_succ.
    replace (Z.succ (Zpos (digits2_pos m)) - 1) with (Z.succ (Zpos (digits2_pos m) - 1))
      by lia.
    rewrite !Z.pow_succ_r by lia. lia.
  - rewrite Pos2Z.inj_succ.
    replace (Z.succ (Zpos (digits2_pos m)) - 1) with (Z.succ (Zpos (digits2_pos m) - 1))
      by lia.
    rewrite !Z.pow_succ_r by lia. lia.
  - cbn. lia.
Qed.

Lemma Zdigits2_bounds (a : Z) :
  0 < a -> 0 < Zdigits2 a /\ 2 ^ (Zdigits2 a - 1) <= a < 2 ^ Zdigits2 a.
Proof.
  intro P. destruct a as [ | p | p]; try lia. cbn [Zdigits2].
  split; [lia | apply digits2_pos_bounds].
Qed.

Lemma Zdigits2_unique (a d : Z) :
  2 ^ (d - 1) <= a < 2 ^ d -> 0 < d -> Zdigits2 a = d.
Proof.
  intros [L U] D.
  assert (P : 0 < a) by (pose proof (Z.pow_pos_nonneg 2 (d - 1)); lia).
  destruct (Zdigits2_bounds a P) as (D' & L' & U').
  assert (A : d - 1 < Zdigits2 a).
  { apply (Z.pow_lt_mono_r_iff 2); lia. }
  assert (B : Zdigits2 a - 1 < d).
  { apply (Z.pow_lt_mono_r_iff 2); lia. }
  lia.
Qed.

Lemma Zdigits2_shift (a j : Z) :
  0 < a -> 0 <= j -> Zdigits2 (a * 2 ^ j) = Zdigits2 a + j.
Proof.
  intros P J. destruct (Zdigits2_bounds a P) as (D & L & U).
  apply Zdigits2_unique; [ | lia].
  replace (Zdigits2 a + j - 1) with (Zdigits2 a - 1 + j) by lia.
  rewrite !Z.pow_add_r by lia.
  assert (T : 0 < 2 ^ j) by (apply Z.pow_pos_nonneg; lia).
  nia.
Qed.

Lemma Zdigits2_mono (a b : Z) : 0 < a -> a <= b -> Zdigits2 a <= Zdigits2 b.
Proof.
  intros P L.
  destruct (Zdigits2_bounds a P) as (Da & La & Ua).
  destruct (Zdigits2_bounds b ltac:(lia)) as (Db & Lb & Ub).
  assert (A : Zdigits2 a - 1 < Zdigits2 b).
  { apply (Z.pow_lt_mono_r_iff 2); lia. }
  lia.
Qed.

(** *** Rounding to nearest even *)

Lemma rne_bounds (m n : Z) : m / 2 ^ n <= rne m n <= m / 2 ^ n + 1.
Proof.
  unfold rne. destruct (2 * (m mod 2 ^ n) ?= 2 ^ n); [ | lia | lia].
  destruct (Z.even (m / 2 ^ n)); lia.
Qed.

Lemma rne_exact (x n : Z) : 0 <= n -> rne (x * 2 ^ n) n = x.
Proof.
  intro N. assert (T : 0 < 2 ^ n) by (apply Z.pow_pos_nonneg; lia).
  unfold rne. rewrite Z.mod_mul, Z.div_mul by lia.
  replace (2 * 0 ?= 2 ^ n) with Lt by (symmetry; apply Z.compare_lt_iff; lia).
  reflexivity.
Qed.

Lemma rne_scale (m n j : Z) : 0 <= n -> 0 <= j -> rne (m * 2 ^ j) (n + j) = rne m n.
Proof.
  intros N J.
  assert (Tn : 0 < 2 ^ n) by (apply Z.pow_pos_nonneg; lia).
  assert (Tj : 0 < 2 ^ j) by (apply Z.pow_pos_nonneg; lia).
  unfold rne. rewrite Z.pow_add_r by lia.
  rewrite Z.div_mul_cancel_r by lia.
  rewrite Z.mul_mod_distr_r by lia.
  replace (2 * (m mod 2 ^ n * 2 ^ j) ?= 2 ^ n * 2 ^ j) with (2 * (m mod 2 ^ n) ?= 2 ^ n).
  - reflexivity.
  - destruct (Z.compare_spec (2 * (m mod 2 ^ n)) (2 ^ n)) as [E | L | G]; symmetry.
    + apply Z.compare_eq_iff. nia.
    + apply Z.compare_lt_iff. nia.
    + apply Z.compare_gt_iff. nia.
Qed.

Lemma rne_mono (a b n : Z) : 0 <= n -> a <= b -> rne a n <= rne b n.
Proof.
  intros N L. assert (T : 0 < 2 ^ n) by (apply Z.pow_pos_nonneg; lia).
  pose proof (Z.div_le_mono a b (2 ^ n) T L) as Q.
  destruct (Z.eq_dec (a / 2 ^ n) (b / 2 ^ n)) as [E | NE].
  - pose proof (Z.div_mod a (2 ^ n) ltac:(lia)) as Da.
    pose proof (Z.div_mod b (2 ^ n) ltac:(lia)) as Db.
    assert (R : a mod 2 ^ n <= b mod 2 ^ n) by nia.
    unfold rne. rewrite E.
    destruct (Z.compare_spec (2 * (a mod 2 ^ n)) (2 ^ n)) as [Ea | La | Ga];
      destruct (Z.compare_spec (2 * (b mod 2 ^ n)) (2 ^ n)) as [Eb | Lb | Gb];
      try lia; destruct (Z.even (b / 2 ^ n)); lia.
  - pose proof (rne_bounds a n). pose proof (rne_bounds b n). lia.
Qed.

Lemma rne_nonneg (m n : Z) : 0 <= m -> 0 <= n -> 0 <= rne m n.
Proof.
  intros P N. pose proof (rne_bounds m n) as B.
  assert (0 <= m / 2 ^ n) by (apply Z.div_pos; [lia | apply Z.pow_pos_nonneg; lia]).
  lia.
Qed.

(** *** [binary_round] in binary64 *)

Definition fexp64 (l : Z) : Z := Z.max (l - 53) (-1074).

Lemma fexp_fexp64 (l : Z) : fexp prec emax l = fexp64 l.
Proof. reflexivity. Qed.

Lemma pos_iter_xO (m d : positive) : Zpos (Pos.iter xO m d) = Zpos m * 2 ^ Zpos d.
Proof.
  induction d as [ | d IH] using Pos.peano_ind.
  - cbn [Pos.iter]. rewrite Pos2Z.inj_xO. change (2 ^ 1) with 2. lia.
  - rewrite Pos.iter_succ, Pos2Z.inj_xO, IH, Pos2Z.inj_succ, Z.pow_succ_r by lia. lia.
Qed.

(** [shl_align] towards an exponent: the value is kept and the exponent is
    the smaller of the two. *)
Lemma shl_align_spec (m : positive) (e c : Z) :
  Zpos (fst (shl_align m e c)) = Zpos m * 2 ^ (e - Z.min e c) /\
  snd (shl_align m e c) = Z.min e c.
Proof.
  unfold shl_align. destruct (c - e) as [ | d | d] eqn:E; cbn [fst snd].
  - replace (Z.min e c) with e by lia. rewrite Z.sub_diag. cbn. lia.
  - replace (Z.min e c) with e by lia. rewrite Z.sub_diag. cbn. lia.
  - replace (Z.min e c) with c by lia. rewrite pos_iter_xO.
    replace (e - c) with (Zpos d) by lia. auto.
Qed.

Lemma shr_not_positive (mrs : shr_record) (e n : Z) : n <= 0 -> shr mrs e n = (mrs, e).
Proof. intro N. destruct n; [reflexivity | lia | reflexivity]. Qed.

(** The mantissa and the exponent [binary_round] arrives at before it looks
    for an overflow: the value is rounded to a multiple of [2^c]. *)
Definition rounded_exponent (m : positive) (e : Z) : Z :=
  fexp64 (Zpos (digits2_pos m) + e).

Definition rounded_mantissa (m : positive) (e : Z) : Z :=
  let c := rounded_exponent m e in
  rne (Zpos m * 2 ^ (e - Z.min e c)) (c - Z.min e c).

Lemma rounded_mantissa_bounds (m : positive) (e : Z) :
  0 <= rounded_mantissa m e <= 2 ^ 53 /\
  (-1074 < rounded_exponent m e -> 2 ^ 52 <= rounded_mantissa m e).
Proof.
  unfold rounded_mantissa, rounded_exponent. cbv zeta.
  set (c := fexp64 (Zpos (digits2_pos m) + e)).
  set (z := Z.min e c).
  set (a := Zpos m * 2 ^ (e - z)).
  assert (Pa : 0 < a) by (unfold a; apply Z.mul_pos_pos; [lia | apply Z.pow_pos_nonneg; lia]).
  assert (Da : Zdigits2 a = Zpos (digits2_pos m) + (e - z)).
  { unfold a. rewrite Zdigits2_shift by lia. reflexivity. }
  destruct (Zdigits2_bounds a Pa) as (D & L & U).
  assert (C : Zpos (digits2_pos m) + e - 53 <= c /\ -1074 <= c) by (unfold c, fexp64; lia).
  assert (N : 0 <= c - z) by lia.
  assert (T : 0 < 2 ^ (c - z)) by (apply Z.pow_pos_nonneg; lia).
  pose proof (rne_bounds a (c - z)) as B.
  pose proof (rne_nonneg a (c - z) ltac:(lia) N) as NN.
  split; [split; [exact NN | ] | ].
  - assert (Q : a / 2 ^ (c - z) < 2 ^ 53).
    { apply Z.div_lt_upper_bound; [lia | ].
      eapply Z.lt_le_trans; [exact U | ].
      rewrite <- Z.pow_add_r by lia. apply Z.pow_le_mono_r; lia. }
    lia.
  - intro G. assert (Ec : c = Zpos (digits2_pos m) + e - 53) by (unfold c, fexp64 in *; lia).
    assert (Q : 2 ^ 52 <= a / 2 ^ (c - z)).
    { apply Z.div_le_lower_bound; [lia | ].
      eapply Z.le_trans; [ | exact L].
      rewrite Z.mul_comm, <- Z.pow_add_r by lia. apply Z.pow_le_mono_r; lia. }
    lia.
Qed.

Lemma binary_round_spec (s : bool) (m : positive) (e : Z) :
  binary_round prec emax s m e
  = let k := rounded_mantissa m e in
    let c := rounded_exponent m e in
    if k =? 0 then S754_zero s
    else if k <? 2 ^ 53
         then if c <=? 971 then S754_finite s (Z.to_pos k) c else S754_infinity s
         else if c + 1 <=? 971 then S754_finite s (Z.to_pos (2 ^ 52)) (c + 1)
              else S754_infinity s.
Proof.
  destruct (rounded_mantissa_bounds m e) as [[K0 K1] _].
  unfold rounded_mantissa, rounded_exponent in *. cbv zeta in *.
  unfold binary_round. rewrite fexp_fexp64.
  set (c := fexp64 (Zpos (digits2_pos m) + e)) in *.
  destruct (shl_align_spec m e c) as [Vm Ve].
  destruct (shl_align m e c) as [mz ez]. cbn [fst snd] in Vm, Ve.
  assert (C : -1074 <= c /\ ez <= c /\ ez <= e) by (unfold c, fexp64 in *; lia).
  rewrite <- Ve in Vm, K0, K1 |- *. rewrite <- Vm in K0, K1 |- *.
  assert (Dz : Zpos (digits2_pos mz) + ez = Zpos (digits2_pos m) + e).
  { change (Zpos (digits2_pos mz)) with (Zdigits2 (Zpos mz)). rewrite Vm.
    rewrite Zdigits2_shift by lia. cbn [Zdigits2]. lia. }
  unfold binary_round_aux, shr_fexp. rewrite !fexp_fexp64.
  cbn [Zdigits2 shr_record_of_loc]. rewrite Dz. fold c.
  rewrite shr_exact by lia.
  replace (ez + (c - ez)) with c by lia.
  rewrite round_shifted by lia.
  set (k := rne (Zpos mz) (c - ez)) in *.
  rewrite ?fexp_fexp64. change (emax - prec) with 971.
  destruct (Z.eqb_spec k 0) as [Z0 | NZ].
  - rewrite Z0. cbn [Zdigits2]. rewrite shr_not_positive by (unfold fexp64; lia).
    reflexivity.
  - assert (Pk : 0 < k) by lia.
    destruct (Zdigits2_bounds k Pk) as (Dk & Lk & Uk).
    destruct (Z.ltb_spec k (2 ^ 53)) as [Lt | Ge].
    + assert (Dk53 : Zdigits2 k <= 53).
      { assert (Zdigits2 k - 1 < 53) by (apply (Z.pow_lt_mono_r_iff 2); lia). lia. }
      rewrite shr_not_positive by (unfold fexp64; lia).
      cbn [shr_m]. destruct k as [ | pk | pk]; try lia.
      cbn [Z.to_pos]. reflexivity.
    + assert (Ek : k = 2 ^ 53) by lia.
      assert (Dk54 : Zdigits2 k = 54) by (apply Zdigits2_unique; [rewrite Ek; cbn; lia | lia]).
      rewrite Dk54.
      replace (fexp64 (54 + c) - c) with 1 by (unfold fexp64; lia).
      rewrite shr_exact by lia. rewrite Ek. cbn [shifted shr_m fst snd].
      reflexivity.
Qed.

(** *** Binary64 numbers as multiples of [2^-1074] *)

(** The multiple of [2^-1074] a mantissa and an exponent stand for. *)
Definition steps (m : positive) (e : Z) : Z := Zpos m * 2 ^ (e + 1074).

(** A multiple of [2^-1074] rounded to 53 digits, ties to even. *)
Definition round53 (a : Z) : Z :=
  let n := Z.max (Zdigits2 a - 53) 0 in
  rne a n * 2 ^ n.

(** The first multiple of [2^-1074] too large for a binary64 number. *)
Definition overflow : Z := 2 ^ 2098.

Lemma steps_pos (m : positive) (e : Z) : -1074 <= e -> 0 < steps m e.
Proof.
  intro E. unfold steps. apply Z.mul_pos_pos; [lia | apply Z.pow_pos_nonneg; lia].
Qed.

Lemma Zdigits2_steps (m : positive) (e : Z) :
  -1074 <= e -> Zdigits2 (steps m e) = Zpos (digits2_pos m) + e + 1074.
Proof.
  intro E. unfold steps. rewrite Zdigits2_shift by lia. cbn [Zdigits2]. lia.
Qed.

Lemma rounded_round53 (m : positive) (e : Z) :
  -1074 <= e ->
  rounded_exponent m e + 1074 = Z.max (Zdigits2 (steps m e) - 53) 0 /\
  rounded_mantissa m e * 2 ^ (rounded_exponent m e + 1074) = round53 (steps m e).
Proof.
  intro E. unfold round53. cbv zeta. rewrite Zdigits2_steps by exact E.
  unfold rounded_mantissa, rounded_exponent. cbv zeta.
  set (c := fexp64 (Zpos (digits2_pos m) + e)).
  assert (C : c + 1074 = Z.max (Zpos (digits2_pos m) + e + 1074 - 53) 0)
    by (unfold c, fexp64; lia).
  split; [exact C | ]. rewrite <- C.
  set (z := Z.min e c).
  assert (Z1 : -1074 <= z /\ z <= e /\ z <= c) by (unfold z, c, fexp64; lia).
  f_equal. unfold steps.
  replace (Zpos m * 2 ^ (e + 1074)) with (Zpos m * 2 ^ (e - z) * 2 ^ (z + 1074)).
  - replace (c + 1074) with (c - z + (z + 1074)) by lia.
    symmetry. apply rne_scale; lia.
  - rewrite <- Z.mul_assoc, <- Z.pow_add_r by lia. do 2 f_equal. lia.
Qed.

Lemma round53_nonneg (a : Z) : 0 <= a -> 0 <= round53 a.
Proof.
  intro P. unfold round53. cbv zeta. apply Z.mul_nonneg_nonneg.
  - apply rne_nonneg; lia.
  - apply Z.pow_nonneg. lia.
Qed.

Lemma round53_mono (a b : Z) : 0 < a -> a <= b -> round53 a <= round53 b.
Proof.
  intros P L. unfold round53. cbv zeta.
  pose proof (Zdigits2_mono a b P L) as D.
  destruct (Zdigits2_bounds a P) as (Da & La & Ua).
  destruct (Zdigits2_bounds b ltac:(lia)) as (Db & Lb & Ub).
  set (na := Z.max (Zdigits2 a - 53) 0). set (nb := Z.max (Zdigits2 b - 53) 0).
  assert (N : 0 <= na <= nb) by lia.
  assert (Ta : 0 < 2 ^ na) by (apply Z.pow_pos_nonneg; lia).
  assert (Tb : 0 < 2 ^ nb) by (apply Z.pow_pos_nonneg; lia).
  destruct (Z.eq_dec na nb) as [E | NE].
  - rewrite <- E. apply Z.mul_le_mono_nonneg_r; [lia | ]. apply rne_mono; lia.
  - assert (Eb : nb = Zdigits2 b - 53) by lia.
    assert (Lt : Zdigits2 a < Zdigits2 b) by lia.
    (* the power of two between the two numbers *)
    apply Z.le_trans with (m := 2 ^ (Zdigits2 b - 1)).
    + replace (Zdigits2 b - 1) with (Zdigits2 b - 1 - na + na) by lia.
      rewrite Z.pow_add_r by lia.
      apply Z.mul_le_mono_nonneg_r; [lia | ].
      pose proof (rne_bounds a na) as B.
      assert (Q : a / 2 ^ na < 2 ^ (Zdigits2 b - 1 - na)).
      { apply Z.div_lt_upper_bound; [lia | ].
        rewrite <- Z.pow_add_r by lia.
        replace (na + (Zdigits2 b - 1 - na)) with (Zdigits2 b - 1) by lia.
        eapply Z.lt_le_trans; [exact Ua | ]. apply Z.pow_le_mono_r; lia. }
      lia.
    + replace (Zdigits2 b - 1) with (52 + nb) by lia.
      rewrite Z.pow_add_r by lia.
      apply Z.mul_le_mono_nonneg_r; [lia | ].
      pose proof (rne_bounds b nb) as B.
      assert (Q : 2 ^ 52 <= b / 2 ^ nb).
      { apply Z.div_le_lower_bound; [lia | ].
        rewrite Z.mul_comm, <- Z.pow_add_r by lia.
        replace (52 + nb) with (Zdigits2 b - 1) by lia. exact Lb. }
      lia.
Qed.

(** What [binary_round] returns, in multiples of [2^-1074]. *)
Lemma binary_round_steps (s : bool) (m : positive) (e : Z) :
  -1074 <= e ->
  match binary_round prec emax s m e with
  | S754_zero s' => s' = s /\ round53 (steps m e) = 0
  | S754_finite s' m' e' =>
      s' = s /\ -1074 <= e' /\ steps m' e' = round53 (steps m e) /\
      round53 (steps m e) < overflow
  | S754_infinity s' => s' = s /\ overflow <= round53 (steps m e)
  | S754_nan => False
  end.
Proof.
  intro E. rewrite binary_round_spec. cbv zeta.
  destruct (rounded_round53 m e E) as [C K].
  destruct (rounded_mantissa_bounds m e) as [[K0 K1] K2].
  set (k := rounded_mantissa m e) in *. set (c := rounded_exponent m e) in *.
  assert (Cn : 0 <= c + 1074) by lia.
  assert (T : 0 < 2 ^ (c + 1074)) by (apply Z.pow_pos_nonneg; lia).
  rewrite <- K. unfold overflow.
  destruct (Z.eqb_spec k 0) as [Z0 | NZ].
  - split; [reflexivity | ]. rewrite Z0. reflexivity.
  - destruct (Z.ltb_spec k (2 ^ 53)) as [Lt | Ge].
    + destruct (Z.leb_spec c 971) as [Lc | Gc].
      * split; [reflexivity | split; [lia | split]].
        -- unfold steps. rewrite Z2Pos.id by lia. reflexivity.
        -- replace 2098 with (53 + 2045) by lia. rewrite (Z.pow_add_r 2 53 2045) by lia.
           assert (2 ^ (c + 1074) <= 2 ^ 2045) by (apply Z.pow_le_mono_r; lia).
           assert (0 < 2 ^ 53) by (apply Z.pow_pos_nonneg; lia). nia.
      * split; [reflexivity | ].
        replace 2098 with (52 + 2046) by lia. rewrite (Z.pow_add_r 2 52 2046) by lia.
        assert (2 ^ 2046 <= 2 ^ (c + 1074)) by (apply Z.pow_le_mono_r; lia).
        assert (2 ^ 52 <= k) by (apply K2; lia).
        assert (0 < 2 ^ 52) by (apply Z.pow_pos_nonneg; lia).
        assert (0 < 2 ^ 2046) by (apply Z.pow_pos_nonneg; lia). nia.
    + assert (Ek : k = 2 ^ 53) by lia.
      destruct (Z.leb_spec (c + 1) 971) as [Lc | Gc].
      * split; [reflexivity | split; [lia | split]].
        -- unfold steps. rewrite Z2Pos.id by (apply Z.pow_pos_nonneg; lia).
           rewrite Ek. rewrite <- !Z.pow_add_r by lia. f_equal. lia.
        -- rewrite Ek. rewrite <- Z.pow_add_r by lia.
           apply Z.pow_lt_mono_r; lia.
      * split; [reflexivity | ].
        rewrite Ek. rewrite <- Z.pow_add_r by lia. apply Z.pow_le_mono_r; lia.
Qed.

(** *** Subtraction in multiples of [2^-1074] *)

Definition signed (s : bool) (a : Z) : Z := if s then - a else a.

(** The multiple of [2^-1074] a zero or a finite number stands for. *)
Definition steps_of (x : spec_float) : Z :=
  match x with
  | S754_finite s m e => signed s (steps m e)
  | _ => 0
  end.

Definition number (x : spec_float) : Prop :=
  match x with
  | S754_zero _ | S754_finite _ _ _ => True
  | _ => False
  end.

(** [x] is at least [n] multiples of [2^-1074]. *)
Definition at_least (x : spec_float) (n : Z) : Prop :=
  match x with
  | S754_nan => False
  | S754_infinity s => s = false
  | S754_zero _ => n <= 0
  | S754_finite s m e => n <= signed s (steps m e)
  end.

(** The binary64 number nearest to [a] multiples of [2^-1074] is at least
    [n] of them. *)
Definition rounds_at_least (a n : Z) : Prop :=
  (a = 0 /\ n <= 0) \/
  (0 < a /\ (n <= round53 a \/ overflow <= round53 a)) \/
  (a < 0 /\ round53 (- a) < overflow /\ n <= - round53 (- a)).

Lemma overflow_pos : 0 < overflow.
Proof. unfold overflow. apply Z.pow_pos_nonneg; lia. Qed.

Lemma rounds_at_least_mono (a b n : Z) :
  a <= b -> rounds_at_least a n -> rounds_at_least b n.
Proof.
  intros L. unfold rounds_at_least.
  pose proof overflow_pos as O.
  destruct (Z.lt_trichotomy a 0) as [A | [A | A]], (Z.lt_trichotomy b 0) as [B | [B | B]];
    try lia.
  - pose proof (round53_mono (- b) (- a) ltac:(lia) ltac:(lia)). lia.
  - pose proof (round53_nonneg (- a) ltac:(lia)). lia.
  - pose proof (round53_nonneg (- a) ltac:(lia)).
    pose proof (round53_nonneg b ltac:(lia)). lia.
  - pose proof (round53_nonneg b ltac:(lia)). lia.
  - pose proof (round53_mono a b ltac:(lia) ltac:(lia)). lia.
Qed.

Lemma binary_normalize_at_least (m e n : Z) :
  -1074 <= e ->
  at_least (binary_normalize prec emax m e false) n
  <-> rounds_at_least (m * 2 ^ (e + 1074)) n.
Proof.
  intro E. pose proof overflow_pos as O. unfold rounds_at_least.
  destruct m as [ | m | m]; cbn [binary_normalize].
  - rewrite Z.mul_0_l. cbn [at_least]. lia.
  - fold (steps m e). pose proof (steps_pos m e E) as P.
    pose proof (binary_round_steps false m e E) as B.
    destruct (binary_round prec emax false m e) as [s' | s' | | s' m' e'];
      cbn [at_least].
    + destruct B as [-> B]. lia.
    + destruct B as [-> B]. intuition lia.
    + destruct B.
    + destruct B as (-> & _ & B1 & B2). cbn [signed]. lia.
  - replace (Zneg m * 2 ^ (e + 1074)) with (- steps m e) by (unfold steps; lia).
    rewrite Z.opp_involutive.
    pose proof (steps_pos m e E) as P.
    pose proof (binary_round_steps true m e E) as B.
    destruct (binary_round prec emax true m e) as [s' | s' | | s' m' e'];
      cbn [at_least].
    + destruct B as [-> B]. lia.
    + destruct B as [-> B]. intuition (try discriminate; lia).
    + destruct B.
    + destruct B as (-> & _ & B1 & B2). cbn [signed]. lia.
Qed.

Lemma valid_finite_bounds (s : bool) (m : positive) (e : Z) :
  valid_binary (S754_finite s m e) = true ->
  Z.max (Zpos (digits2_pos m) + e - 53) (-1074) = e /\ e <= 971.
Proof.
  unfold valid_binary, SpecFloat.valid_binary, bounded, canonical_mantissa, fexp, emin,
    prec, emax.
  intro H. apply andb_prop in H. destruct H as [C B].
  apply Z.eqb_eq in C. apply Z.leb_le in B. split; [exact C | lia].
Qed.

(** A stored number is its own rounding. *)
Lemma valid_round53 (s : bool) (m : positive) (e : Z) :
  valid_binary (S754_finite s m e) = true ->
  -1074 <= e /\ round53 (steps m e) = steps m e /\ steps m e < overflow.
Proof.
  intro V. destruct (valid_finite_bounds s m e V) as [C B].
  assert (E : -1074 <= e) by lia.
  split; [exact E | split].
  - unfold round53. cbv zeta. rewrite Zdigits2_steps by exact E.
    replace (Z.max (Zpos (digits2_pos m) + e + 1074 - 53) 0) with (e + 1074) by lia.
    unfold steps. rewrite rne_exact by lia. reflexivity.
  - pose proof (digits2_pos_bounds m) as [_ U].
    assert (P : Zpos m < 2 ^ 53).
    { eapply Z.lt_le_trans; [exact U | ]. apply Z.pow_le_mono_r; lia. }
    unfold steps, overflow.
    replace 2098 with (53 + 2045) by lia. rewrite (Z.pow_add_r 2 53 2045) by lia.
    assert (2 ^ (e + 1074) <= 2 ^ 2045) by (apply Z.pow_le_mono_r; lia).
    assert (0 < 2 ^ (e + 1074)) by (apply Z.pow_pos_nonneg; lia).
    assert (0 < 2 ^ 53) by (apply Z.pow_pos_nonneg; lia). nia.
Qed.

Lemma number_at_least (x : spec_float) (n : Z) :
  number x -> valid_binary x = true ->
  at_least x n <-> rounds_at_least (steps_of x) n.
Proof.
  intros N V. pose proof overflow_pos as O. unfold rounds_at_least.
  destruct x as [s | s | | s m e]; try destruct N; cbn [at_least steps_of].
  - lia.
  - destruct (valid_round53 s m e V) as (E & R & B).
    pose proof (steps_pos m e E) as P.
    destruct s; cbn [signed]; rewrite ?Z.opp_involutive, R; lia.
Qed.

(** The difference of two numbers is the rounded difference of their
    values. *)
Lemma SFsub_at_least (x y : spec_float) (n : Z) :
  number x -> number y -> valid_binary x = true -> valid_binary y = true ->
  at_least (SFsub prec emax x y) n <-> rounds_at_least (steps_of x - steps_of y) n.
Proof.
  intros Nx Ny Vx Vy.
  destruct x as [sx | sx | | sx mx ex], y as [sy | sy | | sy my ey];
    try destruct Nx; try destruct Ny; cbn [SFsub].
  - cbn [steps_of]. unfold rounds_at_least.
    destruct sx, sy; cbn [at_least]; lia.
  - change (S754_finite (negb sy) my ey) with (SFopp (S754_finite sy my ey)).
    cbn [SFopp].
    rewrite (number_at_least (S754_finite (negb sy) my ey) n I).
    + cbn [steps_of]. destruct sy; cbn [negb signed]; rewrite ?Z.opp_involutive;
        replace (0 - steps my ey) with (- steps my ey) by lia;
        rewrite ?Z.sub_0_l, ?Z.opp_involutive; reflexivity.
    + exact Vy.
  - rewrite (number_at_least (S754_finite sx mx ex) n I Vx).
    cbn [steps_of]. rewrite Z.sub_0_r. reflexivity.
  - cbv zeta. set (ez := Z.min ex ey).
    destruct (valid_finite_bounds sx mx ex Vx) as [Cx _].
    destruct (valid_finite_bounds sy my ey Vy) as [Cy _].
    assert (E : -1074 <= ez) by (unfold ez; lia).
    rewrite (binary_normalize_at_least _ ez n E).
    destruct (shl_align_spec mx ex ez) as [-> _].
    destruct (shl_align_spec my ey ez) as [-> _].
    replace (Z.min ex ez) with ez by (unfold ez; lia).
    replace (Z.min ey ez) with ez by (unfold ez; lia).
    assert (Sx : Zpos mx * 2 ^ (ex - ez) * 2 ^ (ez + 1074) = steps mx ex).
    { unfold steps. rewrite <- Z.mul_assoc, <- Z.pow_add_r by (unfold ez; lia).
      do 2 f_equal. lia. }
    assert (Sy : Zpos my * 2 ^ (ey - ez) * 2 ^ (ez + 1074) = steps my ey).
    { unfold steps. rewrite <- Z.mul_assoc, <- Z.pow_add_r by (unfold ez; lia).
      do 2 f_equal. lia. }
    cbn [steps_of].
    replace ((cond_Zopp sx (Zpos mx * 2 ^ (ex - ez)) - cond_Zopp sy (Zpos my * 2 ^ (ey - ez)))
             * 2 ^ (ez + 1074))
      with (signed sx (steps mx ex) - signed sy (steps my ey)).
    + reflexivity.
    + rewrite <- Sx, <- Sy. destruct sx, sy; cbn [cond_Zopp signed]; ring.
Qed.

End Binary64Rounding.

(** ** Fail-safe manager *)

Section FailSafeFacts.
Import FailSafe.
Local Open Scope float_scope.

(** *** Binary64 numbers against integers *)

(** A finite binary64 number is stored with the exponent its size asks
    for. *)
Lemma valid_finite_exponent (s : bool) (m : positive) (e : Z) :
  valid_binary (S754_finite s m e) = true ->
  Z.max (Zpos (digits2_pos m) + e - 53) (-1074) = e.
Proof.
  unfold valid_binary, SpecFloat.valid_binary, bounded, canonical_mantissa, fexp, emin,
    prec, emax.
  intro H. apply andb_prop in H. destruct H as [C _].
  apply Z.eqb_eq in C. exact C.
Qed.

Lemma Qpower_2_pos (e : Z) : (0 < Qpower (2 # 1) e)%Q.
Proof. apply Qpower.Qpower_0_lt. reflexivity. Qed.

(** Of two positive stored numbers the one with the smaller exponent is the
    smaller. *)
Lemma value_lt_exponent (m1 m2 : positive) (e1 e2 : Z) :
  valid_binary (S754_finite false m1 e1) = true ->
  valid_binary (S754_finite false m2 e2) = true ->
  (e1 < e2)%Z ->
  (value false m1 e1 < value false m2 e2)%Q.
Proof.
  intros V1 V2 L.
  apply valid_finite_exponent in V1, V2.
  pose proof (digits2_pos_bounds m1) as [_ U1].
  pose proof (digits2_pos_bounds m2) as [L2 _].
  assert (D1 : (Zpos (digits2_pos m1) <= 53)%Z) by lia.
  assert (D2 : Zpos (digits2_pos m2) = 53%Z) by lia.
  rewrite D2 in L2.
  assert (P1 : (Zpos m1 < 2 ^ 53)%Z).
  { eapply Z.lt_le_trans; [exact U1 | ]. apply Z.pow_le_mono_r; lia. }
  assert (K : (Zpos m1 < Zpos m2 * 2 ^ (e2 - e1))%Z).
  { assert (T : (2 ^ 1 <= 2 ^ (e2 - e1))%Z) by (apply Z.pow_le_mono_r; lia).
    change (2 ^ (53 - 1))%Z with 4503599627370496%Z in L2.
    change (2 ^ 53)%Z with 9007199254740992%Z in P1.
    change (2 ^ 1)%Z with 2%Z in T. nia. }
  unfold value.
  assert (E : (Qpower (2 # 1) e2 == inject_Z (2 ^ (e2 - e1)) * Qpower (2 # 1) e1)%Q).
  { rewrite Qpower.Zpower_Qpower by lia. rewrite <- Qpower.Qpower_plus by discriminate.
    replace (e2 - e1 + e1)%Z with e2 by lia. reflexivity. }
  rewrite E, Qmult_assoc, <- inject_Z_mult.
  apply Qmult_lt_compat_r; [apply Qpower_2_pos | ].
  rewrite <- Zlt_Qlt. exact K.
Qed.

Lemma value_le_mantissa (m1 m2 : positive) (e : Z) :
  (Zpos m1 <= Zpos m2)%Z -> (value false m1 e <= value false m2 e)%Q.
Proof.
  intro L. unfold value. apply Qmult_le_compat_r.
  - rewrite <- Zle_Qle. exact L.
  - apply Qlt_le_weak, Qpower_2_pos.
Qed.

Lemma value_neg (m : positive) (e : Z) : (value true m e == - value false m e)%Q.
Proof.
  unfold value. change (inject_Z (Zneg m)) with (- inject_Z (Zpos m))%Q. ring.
Qed.

Lemma value_pos (m : positive) (e : Z) : (0 < value false m e)%Q.
Proof.
  unfold value. apply Qmult_lt_0_compat; [reflexivity | apply Qpower_2_pos].
Qed.

(** The order of stored numbers is the order of their values. *)
Lemma SFleb_value (s1 s2 : bool) (m1 m2 : positive) (e1 e2 : Z) :
  valid_binary (S754_finite s1 m1 e1) = true ->
  valid_binary (S754_finite s2 m2 e2) = true ->
  SFleb (S754_finite s1 m1 e1) (S754_finite s2 m2 e2) = true ->
  (value s1 m1 e1 <= value s2 m2 e2)%Q.
Proof.
  intros V1 V2. unfold SFleb, SFcompare.
  pose proof (value_pos m1 e1) as P1. pose proof (value_pos m2 e2) as P2.
  destruct s1, s2; rewrite ?value_neg.
  - destruct (Z.compare_spec e1 e2) as [E | L | G]; try discriminate.
    + subst e2. change (PosDef.Pos.compare_cont Eq m1 m2) with (Pos.compare m1 m2).
      destruct (Pos.compare_spec m1 m2) as [E | L | G]; cbn; try discriminate; intros _.
      * subst m2. apply Qle_refl.
      * apply Qopp_le_compat. apply value_le_mantissa. lia.
    + intros _. apply Qopp_le_compat, Qlt_le_weak.
      apply (value_lt_exponent m2 m1 e2 e1); assumption.
  - intros _. Lqa.lra.
  - discriminate.
  - destruct (Z.compare_spec e1 e2) as [E | L | G]; try discriminate.
    + subst e2. change (PosDef.Pos.compare_cont Eq m1 m2) with (Pos.compare m1 m2).
      destruct (Pos.compare_spec m1 m2) as [E | L | G]; cbn; try discriminate; intros _.
      * subst m2. apply Qle_refl.
      * apply value_le_mantissa. lia.
    + intros _. apply Qlt_le_weak. apply value_lt_exponent; assumption.
Qed.

(** A threshold the elapsed time has reached is reached by every elapsed
    time that is not smaller. *)
Lemma reached_mono (e1 e2 : float) (threshold : Z) :
  (e1 <=? e2)%float = true -> reached e1 threshold = true -> reached e2 threshold = true.
Proof.
  rewrite leb_spec. unfold reached.
  pose proof (Prim2SF_valid e1) as V1. pose proof (Prim2SF_valid e2) as V2.
  destruct (Prim2SF e1) as [s1 | s1 | | s1 m1 x1], (Prim2SF e2) as [s2 | s2 | | s2 m2 x2];
    unfold SFleb, SFcompare; try discriminate; try (intros _ H; exact H).
  - destruct s2; [discriminate | reflexivity ].
  - destruct s2; [discriminate | ]. intros _ H. apply Z.leb_le in H.
    apply Qle_bool_iff. pose proof (value_pos m2 x2) as P.
    apply Qle_trans with (y := 0%Q); [ | Lqa.lra].
    change 0%Q with (inject_Z 0). rewrite <- Zle_Qle. exact H.
  - destruct s1; discriminate.
  - destruct s1, s2; try discriminate; intros _ H; exact H.
  - destruct s1; discriminate.
  - destruct s1; [ | discriminate]. intros _ H. apply Qle_bool_iff in H. apply Z.leb_le.
    pose proof (value_pos m1 x1) as P. rewrite value_neg in H.
    rewrite Zle_Qle. change (inject_Z 0) with 0%Q. Lqa.lra.
  - destruct s2; [destruct s1; discriminate | reflexivity].
  - intros L H. apply Qle_bool_iff in H. apply Qle_bool_iff.
    apply Qle_trans with (y := value s1 m1 x1); [exact H | ].
    apply SFleb_value; assumption.
Qed.

Lemma reached_threshold_mono (elapsed : float) (lower upper : Z) :
  (lower <= upper)%Z -> reached elapsed upper = true -> reached elapsed lower = true.
Proof.
  intro L. unfold reached. destruct (Prim2SF elapsed) as [s | s | | s m e]; try (intro H; exact H).
  - intro H. apply Z.leb_le in H. apply Z.leb_le. lia.
  - intro H. apply Qle_bool_iff in H. apply Qle_bool_iff.
    apply Qle_trans with (y := inject_Z upper); [ | exact H].
    rewrite <- Zle_Qle. exact L.
Qed.

(** *** The elapsed time does not go back *)

Lemma value_steps (s : bool) (m : positive) (e : Z) :
  (-1074 <= e)%Z ->
  (value s m e * inject_Z (2 ^ 1074) == inject_Z (signed s (steps m e)))%Q.
Proof.
  intro E. unfold value, steps.
  assert (P : (inject_Z (2 ^ (e + 1074)) == Qpower (2 # 1) e * inject_Z (2 ^ 1074))%Q).
  { rewrite !Qpower.Zpower_Qpower by lia.
    rewrite <- Qpower.Qpower_plus by discriminate. reflexivity. }
  set (p := inject_Z (2 ^ 1074)) in *.
  destruct s; cbn [signed].
  - replace (- (Zpos m * 2 ^ (e + 1074)))%Z with (Zneg m * 2 ^ (e + 1074))%Z by lia.
    rewrite inject_Z_mult, P. ring.
  - rewrite inject_Z_mult, P. ring.
Qed.

Lemma reached_at_least (x : float) (n : Z) :
  reached x n = true <-> at_least (Prim2SF x) (n * 2 ^ 1074).
Proof.
  unfold reached. pose proof (Prim2SF_valid x) as V.
  assert (T : (0 < 2 ^ 1074)%Z) by (apply Z.pow_pos_nonneg; lia).
  destruct (Prim2SF x) as [s | s | | s m e]; cbn [at_least].
  - rewrite Z.leb_le. set (p := (2 ^ 1074)%Z) in *. nia.
  - destruct s; cbn; intuition congruence.
  - intuition discriminate.
  - destruct (valid_finite_bounds s m e V) as [C _].
    rewrite Qle_bool_iff, Zle_Qle, <- (value_steps s m e) by lia.
    rewrite inject_Z_mult. symmetry. apply Qmult_le_r.
    change 0%Q with (inject_Z 0). rewrite <- Zlt_Qlt. exact T.
Qed.

Lemma SFleb_steps (x y : spec_float) :
  number x -> number y -> valid_binary x = true -> valid_binary y = true ->
  SFleb x y = true -> (steps_of x <= steps_of y)%Z.
Proof.
  intros Nx Ny Vx Vy.
  destruct x as [sx | sx | | sx mx ex], y as [sy | sy | | sy my ey];
    try destruct Nx; try destruct Ny; cbn [steps_of].
  - intros _. lia.
  - destruct (valid_finite_bounds sy my ey Vy) as [C _].
    pose proof (steps_pos my ey ltac:(lia)).
    unfold SFleb, SFcompare. destruct sy; [discriminate | ]. cbn [signed]. lia.
  - destruct (valid_finite_bounds sx mx ex Vx) as [C _].
    pose proof (steps_pos mx ex ltac:(lia)).
    unfold SFleb, SFcompare. destruct sx; [ | discriminate]. cbn [signed]. lia.
  - intro L. pose proof (SFleb_value _ _ _ _ _ _ Vx Vy L) as Q.
    destruct (valid_finite_bounds sx mx ex Vx) as [Cx _].
    destruct (valid_finite_bounds sy my ey Vy) as [Cy _].
    rewrite Zle_Qle, <- !value_steps by lia.
    apply Qmult_le_compat_r; [exact Q | ].
    change 0%Q with (inject_Z 0). rewrite <- Zle_Qle. apply Z.pow_nonneg. lia.
Qed.

(** Subtracting the same number from two numbers keeps their order, also
    after rounding. *)
Lemma SFsub_at_least_mono (x y s : spec_float) (n : Z) :
  valid_binary x = true -> valid_binary y = true -> valid_binary s = true ->
  SFleb x y = true ->
  at_least (SFsub prec emax x s) n -> at_least (SFsub prec emax y s) n.
Proof.
  intros Vx Vy Vs L.
  assert (N : number x -> number y -> number s ->
              at_least (SFsub prec emax x s) n -> at_least (SFsub prec emax y s) n).
  { intros Nx Ny Ns. rewrite !SFsub_at_least by assumption.
    apply rounds_at_least_mono.
    pose proof (SFleb_steps x y Nx Ny Vx Vy L). lia. }
  destruct x as [sx | sx | | sx mx ex], y as [sy | sy | | sy my ey],
    s as [ss | ss | | ss ms es];
    try (apply N; exact I);
    unfold SFleb, SFcompare in L; cbn [SFsub at_least];
    repeat match goal with b : bool |- _ => destruct b end;
    cbn [negb at_least];
    try discriminate; try tauto; try congruence.
Qed.

Lemma sub_reached_mono (t now since : float) (threshold : Z) :
  (t <=? now) = true ->
  reached (t - since) threshold = true -> reached (now - since) threshold = true.
Proof.
  rewrite leb_spec, !reached_at_least, !sub_spec. unfold SF64sub.
  apply SFsub_at_least_mono; apply Prim2SF_valid.
Qed.

(** *** The state machine *)

(** The clock reading the timer holds after a disconnected update. *)
Definition timer_start (current_time : float) (self : FailSafeManager) : float :=
  match _disconnected_since self with
  | Some t => t
  | None => current_time
  end.

Lemma handle_disconnected_since (now : float) (self : FailSafeManager) :
  _disconnected_since (_handle_disconnected now self) = Some (timer_start now self).
Proof.
  unfold _handle_disconnected, timer_start.
  destruct (_disconnected_since self) eqn:E; cbn [_disconnected_since set_disconnected_since];
    rewrite ?E;
    repeat match goal with |- context [if ?b then _ else _] => destruct b end;
    cbn; rewrite ?E; reflexivity.
Qed.

Lemma crossed_same_thresholds (a b : FailSafeManager) (e : float) (st : FailSafeState) :
  _degraded_threshold_seconds a = _degraded_threshold_seconds b ->
  _holding_threshold_seconds a = _holding_threshold_seconds b ->
  _return_threshold_seconds a = _return_threshold_seconds b ->
  crossed a e st -> crossed b e st.
Proof. intros D H R. destruct st; cbn; rewrite ?D, ?H, ?R; trivial. Qed.

(** What a disconnected update leaves in the state: the most severe state
    whose threshold the elapsed time has crossed, provided the previous
    state was itself crossed. *)
Lemma handle_disconnected_state (now : float) (self : FailSafeManager) :
  crossed self (now - timer_start now self) (_state self) ->
  highest_crossed self (now - timer_start now self)
    (_state (_handle_disconnected now self)).
Proof.
  intro C.
  unfold _handle_disconnected.
  assert (S : (match
                 _disconnected_since
                   match _disconnected_since self with
                   | Some _ => self
                   | None => set_disconnected_since (Some now) self
                   end
               with
               | Some t => t
               | None => now
               end) = timer_start now self).
  { unfold timer_start. destruct (_disconnected_since self) eqn:E; cbn; rewrite ?E; reflexivity. }
  cbv zeta. rewrite S. clear S.
  set (e := now - timer_start now self) in *.
  set (self1 := match _disconnected_since self with
                | Some _ => self
                | None => set_disconnected_since (Some now) self
                end).
  assert (T : _degraded_threshold_seconds self1 = _degraded_threshold_seconds self /\
              _holding_threshold_seconds self1 = _holding_threshold_seconds self /\
              _return_threshold_seconds self1 = _return_threshold_seconds self /\
              _state self1 = _state self).
  { unfold self1. destruct (_disconnected_since self); cbn; auto. }
  destruct T as (TD & TH & TR & TS). rewrite TD, TH, TR.
  destruct (reached e (_return_threshold_seconds self)) eqn:R.
  { split; [exact R | intros st' _; destruct st'; cbn; lia]. }
  destruct (reached e (_holding_threshold_seconds self)) eqn:H.
  { split; [exact H | ].
    intros st' K; destruct st'; cbn in *; try lia. congruence. }
  destruct (reached e (_degraded_threshold_seconds self)) eqn:D.
  { split; [exact D | ].
    intros st' K; destruct st'; cbn in *; try lia; congruence. }
  rewrite TS. split; [exact C | ].
  destruct (_state self); cbn in C; fold e in C; try congruence.
  intros st' K; destruct st'; cbn in *; try lia; congruence.
Qed.

Lemma handle_disconnected_thresholds (now : float) (self : FailSafeManager) :
  _degraded_threshold_seconds (_handle_disconnected now self) = _degraded_threshold_seconds self /\
  _holding_threshold_seconds (_handle_disconnected now self) = _holding_threshold_seconds self /\
  _return_threshold_seconds (_handle_disconnected now self) = _return_threshold_seconds self.
Proof.
  unfold _handle_disconnected.
  destruct (_disconnected_since self); cbv zeta;
    repeat match goal with |- context [if ?b then _ else _] => destruct b end;
    cbn; auto.
Qed.

(** The invariant of the manager at clock reading [t]: without a timer the
    state is [CONNECTED]; with a timer started at [since], the threshold of
    the state has been crossed by the elapsed time [t - since]. *)
Definition consistent (t : float) (self : FailSafeManager) : Prop :=
  match _disconnected_since self with
  | None => _state self = CONNECTED
  | Some since => crossed self (t - since) (_state self)
  end.

(** A threshold crossed at a reading is crossed at every later reading of
    the same timer. *)
Lemma crossed_later (self : FailSafeManager) (t now since : float) (st : FailSafeState) :
  (t <=? now) = true -> crossed self (t - since) st -> crossed self (now - since) st.
Proof.
  intros L. destruct st; cbn; intro H; try exact I; eapply sub_reached_mono; eassumption.
Qed.

Lemma crossed_at_timer_start (t now : float) (self : FailSafeManager) :
  consistent t self -> (t <=? now) = true ->
  crossed self (now - timer_start now self) (_state self).
Proof.
  unfold consistent, timer_start. intros C L.
  destruct (_disconnected_since self) as [since | ].
  - apply (crossed_later self t); assumption.
  - rewrite C. exact I.
Qed.

Lemma reaches_consistent (settings : Config.EdgeSettings) (t : float)
    (self : FailSafeManager) :
  reaches settings t self -> consistent t self.
Proof.
  induction 1 as [t | t self c now R IH L].
  - reflexivity.
  - destruct c; cbn [update_connectivity].
    + reflexivity.
    + unfold consistent. rewrite handle_disconnected_since.
      pose proof (crossed_at_timer_start t now self IH L) as C.
      apply handle_disconnected_state in C. destruct C as [C _].
      destruct (handle_disconnected_thresholds now self) as (D & H & K).
      apply (crossed_same_thresholds self); auto.
Qed.

(** The scenario of the specification: thresholds 10/30/120 s and a link that
    stays down at t = 0, 5, 10, 20, 30, 90, 120, 200 s. *)
Example observe_continuous_disconnection :
  FailSafe.observe
    [(false, 0); (false, 5); (false, 10); (false, 20);
     (false, 30); (false, 90); (false, 120); (false, 200)]
    (FailSafe.__init__ Config.defaults)
  = [FailSafe.CONNECTED; FailSafe.CONNECTED; FailSafe.DEGRADED; FailSafe.DEGRADED;
     FailSafe.HOLDING; FailSafe.HOLDING; FailSafe.RETURNING; FailSafe.RETURNING].
Proof. vm_compute. reflexivity. Qed.

(** The elapsed time is the rounded difference of the readings: between the
    readings 0.1 and 10.1 it is 10, and the degraded threshold of 10 s is
    crossed. *)
Example observe_rounded_elapsed_time :
  10.1 - 0.1 = 10 /\
  FailSafe.observe [(false, 0.1); (false, 10.1)] (FailSafe.__init__ Config.defaults)
  = [FailSafe.CONNECTED; FailSafe.DEGRADED].
Proof. vm_compute. split; reflexivity. Qed.

(** C2.  After any sequence of [update_connectivity] calls (the monotonic
    clock never going back), a call with [is_connected = false] starts the
    timer at the current reading when none runs and otherwise keeps it; the
    state it leaves is the most severe one whose threshold the elapsed
    disconnection time, the binary64 difference of the reading and the
    timer, has crossed, and is never less severe than the state before.  A
    call with [is_connected = true] leaves [CONNECTED] and no timer, from
    any manager whatever. *)
Theorem update_connectivity_escalation
    (settings : Config.EdgeSettings) (t now : float) (self : FailSafe.FailSafeManager) :
  FailSafe.reaches settings t self ->
  (t <=? now) = true ->
  (match FailSafe._disconnected_since self with
   | None =>
       FailSafe._disconnected_since (FailSafe.update_connectivity false now self)
       = Some now /\
       FailSafe.highest_crossed self (now - now)
         (FailSafe._state (FailSafe.update_connectivity false now self))
   | Some since =>
       FailSafe._disconnected_since (FailSafe.update_connectivity false now self)
       = Some since /\
       FailSafe.highest_crossed self (now - since)
         (FailSafe._state (FailSafe.update_connectivity false now self))
   end) /\
  (FailSafe.severity (FailSafe._state self)
   <= FailSafe.severity (FailSafe._state (FailSafe.update_connectivity false now self)))%nat /\
  (forall (any : FailSafe.FailSafeManager) (t' : float),
     FailSafe._state (FailSafe.update_connectivity true t' any) = FailSafe.CONNECTED /\
     FailSafe._disconnected_since (FailSafe.update_connectivity true t' any) = None).
Proof.
  intros R L.
  pose proof (reaches_consistent settings t self R) as C.
  pose proof (crossed_at_timer_start t now self C L) as K.
  pose proof (handle_disconnected_state now self K) as H.
  pose proof (handle_disconnected_since now self) as S.
  cbn [FailSafe.update_connectivity].
  split; [ | split].
  - unfold timer_start in *.
    destruct (FailSafe._disconnected_since self); split; assumption.
  - destruct H as [_ H]. apply H. exact K.
  - intros any t'. split; reflexivity.
Qed.

Lemma update_connectivity_escalation_rounded_elapsed_time :
  FailSafe._disconnected_since
    (FailSafe.update_connectivity false 10.1
       (FailSafe.update_connectivity false 0.1 (FailSafe.__init__ Config.defaults)))
  = Some 0.1 /\
  FailSafe.highest_crossed
    (FailSafe.update_connectivity false 0.1 (FailSafe.__init__ Config.defaults))
    (10.1 - 0.1)
    (FailSafe._state
       (FailSafe.update_connectivity false 10.1
          (FailSafe.update_connectivity false 0.1 (FailSafe.__init__ Config.defaults)))) /\
  FailSafe._state
    (FailSafe.update_connectivity false 10.1
       (FailSafe.update_connectivity false 0.1 (FailSafe.__init__ Config.defaults)))
  = FailSafe.DEGRADED.
Proof.
  assert (R : FailSafe.reaches Config.defaults 0.1
                (FailSafe.update_connectivity false 0.1 (FailSafe.__init__ Config.defaults))).
  { apply FailSafe.reaches_call with (t := 0.1).
    - apply FailSafe.reaches_init.
    - reflexivity. }
  destruct (update_connectivity_escalation Config.defaults 0.1 10.1 _ R eq_refl)
    as ((A & B) & _).
  split; [exact A | split; [exact B | reflexivity]].
Defined.

End FailSafeFacts.

(** ** Store-and-forward buffer *)

Section ConnectorFacts.
Import Connector.

Lemma max_buffer_size_positive : 0 < _MAX_BUFFER_SIZE.
Proof. unfold _MAX_BUFFER_SIZE. apply Nat.lt_0_succ. Qed.

(** The buffer [_buffer_message] leaves, on a buffer within the bound: the
    old entries but the oldest when the buffer was full, then the new one. *)
Lemma buffer_message_buffer (topic payload : string) (self : CloudConnector) :
  List.length (_message_buffer self) <= _MAX_BUFFER_SIZE ->
  _is_connected (_buffer_message topic payload self) = _is_connected self /\
  published (_buffer_message topic payload self) = published self /\
  (List.length (_message_buffer self) < _MAX_BUFFER_SIZE ->
   _message_buffer (_buffer_message topic payload self)
   = _message_buffer self ++ [(topic, payload)]) /\
  (List.length (_message_buffer self) = _MAX_BUFFER_SIZE ->
   _message_buffer (_buffer_message topic payload self)
   = tl (_message_buffer self) ++ [(topic, payload)]).
Proof.
  intro B. unfold _buffer_message.
  destruct (Nat.leb_spec _MAX_BUFFER_SIZE (List.length (_message_buffer self))) as [F | F];
    cbn [_is_connected published _message_buffer set_message_buffer];
    repeat split; intros; try reflexivity; lia.
Qed.

Lemma buffer_message_length (topic payload : string) (self : CloudConnector) :
  List.length (_message_buffer self) <= _MAX_BUFFER_SIZE ->
  List.length (_message_buffer (_buffer_message topic payload self)) <= _MAX_BUFFER_SIZE.
Proof.
  intro B. pose proof max_buffer_size_positive as P.
  destruct (buffer_message_buffer topic payload self B) as (_ & _ & L & E).
  destruct (Nat.eq_dec (List.length (_message_buffer self)) _MAX_BUFFER_SIZE) as [Q | Q].
  - rewrite (E Q). rewrite length_app. cbn [List.length].
    destruct (_message_buffer self) as [ | x b]; cbn [List.length tl] in *; lia.
  - rewrite L by lia. rewrite length_app. cbn [List.length]. lia.
Qed.

Lemma publish_all_published (ms : list message) (self : CloudConnector) :
  _is_connected (fold_left (fun self m => client_publish m self) ms self) = _is_connected self /\
  _message_buffer (fold_left (fun self m => client_publish m self) ms self) = _message_buffer self /\
  published (fold_left (fun self m => client_publish m self) ms self) = published self ++ ms.
Proof.
  revert self. induction ms as [ | m ms IH]; intro self; cbn [fold_left].
  - rewrite app_nil_r. auto.
  - destruct (IH (client_publish m self)) as (A & B & C).
    rewrite A, B, C. cbn [client_publish _is_connected _message_buffer published].
    rewrite <- app_assoc. auto.
Qed.

Lemma drain_buffer_spec (self : CloudConnector) :
  _is_connected (_drain_buffer self) = _is_connected self /\
  _message_buffer (_drain_buffer self) = [] /\
  published (_drain_buffer self) = published self ++ _message_buffer self.
Proof.
  unfold _drain_buffer. destruct (_message_buffer self) as [ | m b] eqn:E.
  - rewrite E, app_nil_r. auto.
  - destruct (publish_all_published (m :: b) (set_message_buffer [] self)) as (A & B & C).
    rewrite A, B, C. auto.
Qed.

Lemma apply_length (o : operation) (self : CloudConnector) :
  List.length (_message_buffer self) <= _MAX_BUFFER_SIZE ->
  List.length (_message_buffer (apply o self)) <= _MAX_BUFFER_SIZE.
Proof.
  intro B. destruct o as [topic payload | reason_code | | ]; cbn [apply].
  - unfold publish_telemetry. destruct (negb (_is_connected self)).
    + apply buffer_message_length. exact B.
    + exact B.
  - exact B.
  - exact B.
  - exact B.
Qed.

Lemma run_length (ops : list operation) (self : CloudConnector) :
  List.length (_message_buffer self) <= _MAX_BUFFER_SIZE ->
  List.length (_message_buffer (run ops self)) <= _MAX_BUFFER_SIZE.
Proof.
  revert self. unfold run. induction ops as [ | o ops IH]; intros self B; cbn [fold_left].
  - exact B.
  - apply IH. apply apply_length. exact B.
Qed.

(** Publishing a list of messages while disconnected keeps the newest
    [_MAX_BUFFER_SIZE] of the buffered and the new messages, in order. *)
Lemma publish_all_disconnected (ms : list message) (self : CloudConnector) :
  _is_connected self = false ->
  List.length (_message_buffer self) <= _MAX_BUFFER_SIZE ->
  _is_connected (publish_all ms self) = false /\
  published (publish_all ms self) = published self /\
  _message_buffer (publish_all ms self)
  = skipn (List.length (_message_buffer self ++ ms) - _MAX_BUFFER_SIZE)
      (_message_buffer self ++ ms).
Proof.
  revert self. unfold publish_all.
  induction ms as [ | [topic payload] ms IH]; intros self D B; cbn [fold_left].
  - rewrite app_nil_r.
    replace (List.length (_message_buffer self) - _MAX_BUFFER_SIZE) with 0 by lia.
    auto.
  - assert (S1 : publish_telemetry (fst (topic, payload)) (snd (topic, payload)) self
                 = _buffer_message topic payload self).
    { unfold publish_telemetry. rewrite D. reflexivity. }
    rewrite S1.
    destruct (buffer_message_buffer topic payload self B) as (C & P & L & E).
    pose proof (buffer_message_length topic payload self B) as B1.
    rewrite D in C.
    destruct (IH _ C B1) as (C' & P' & K).
    split; [exact C' | split; [rewrite P'; exact P | ]].
    rewrite K.
    pose proof max_buffer_size_positive as Pos.
    destruct (Nat.eq_dec (List.length (_message_buffer self)) _MAX_BUFFER_SIZE) as [Q | Q].
    + rewrite (E Q).
      destruct (_message_buffer self) as [ | x b]; cbn [List.length tl] in *; [lia | ].
      rewrite <- !app_assoc. cbn [app].
      match goal with
      | |- skipn ?n _ = skipn ?n' _ =>
          replace n with (List.length ms)
            by (repeat (rewrite length_app || cbn [List.length]); lia);
          replace n' with (S (List.length ms))
            by (repeat (rewrite length_app || cbn [List.length]); lia)
      end.
      reflexivity.
    + rewrite L by lia. rewrite <- app_assoc. reflexivity.
Qed.

(** The messages of the repository's test [test_buffer_overflow_drops_oldest],
    [topic/i] with [payload-i]. *)
Definition numbered_message (i : nat) : message :=
  (("topic/" ++ NilEmpty.string_of_uint (Nat.to_uint i))%string,
   ("payload-" ++ NilEmpty.string_of_uint (Nat.to_uint i))%string).

Example publish_1001_numbered_messages :
  let self := publish_all (map numbered_message (seq 0 1001)) __init__ in
  List.length (_message_buffer self) = 1000 /\
  hd_error (_message_buffer self) = Some ("topic/1", "payload-1")%string /\
  nth_error (_message_buffer self) 998 = Some ("topic/999", "payload-999")%string /\
  nth_error (_message_buffer self) 999 = Some ("topic/1000", "payload-1000")%string /\
  published (_drain_buffer self) = map numbered_message (seq 1 1000) /\
  _message_buffer (_drain_buffer self) = [].
Proof. vm_compute. repeat split. Qed.

(** A connector that is not connected stays so under every operation:
    publishing buffers, the connect callback raises, the other two clear a
    flag that is clear already. *)
Lemma apply_disconnected (o : operation) (self : CloudConnector) :
  _is_connected self = false ->
  apply o self
  = match o with
    | PublishTelemetry topic payload => _buffer_message topic payload self
    | _ => self
    end.
Proof.
  intro D. destruct o as [topic payload | reason_code | | ]; cbn [apply].
  - unfold publish_telemetry. rewrite D. reflexivity.
  - reflexivity.
  - destruct self as [c b p]. cbn in D. subst c. reflexivity.
  - destruct self as [c b p]. cbn in D. subst c. reflexivity.
Qed.

(** The messages handed to [publish_telemetry] by a sequence of operations,
    in order. *)
Fixpoint offered (ops : list operation) : list message :=
  match ops with
  | [] => []
  | PublishTelemetry topic payload :: ops => (topic, payload) :: offered ops
  | _ :: ops => offered ops
  end.

Lemma run_disconnected (ops : list operation) (self : CloudConnector) :
  _is_connected self = false ->
  List.length (_message_buffer self) <= _MAX_BUFFER_SIZE ->
  run ops self = publish_all (offered ops) self.
Proof.
  revert self. unfold run, publish_all.
  induction ops as [ | o ops IH]; intros self D B; cbn [fold_left offered].
  - reflexivity.
  - rewrite (apply_disconnected o self D).
    destruct o as [topic payload | reason_code | | ]; cbn [fold_left fst snd];
      try (apply IH; assumption).
    assert (S1 : publish_telemetry topic payload self = _buffer_message topic payload self).
    { unfold publish_telemetry. rewrite D. reflexivity. }
    rewrite S1.
    destruct (buffer_message_buffer topic payload self B) as (C & _).
    apply IH.
    + rewrite C. exact D.
    + apply buffer_message_length. exact B.
Qed.

(** C4.  The buffer never holds more than 1000 entries, whatever operations
    are applied to a fresh connector.  Publishing while disconnected sends
    nothing and appends the message, after dropping exactly the oldest entry
    when the buffer is full; publishing a list of messages to a fresh
    connector leaves the newest 1000 of them in order, so 1001 messages leave
    1000 entries, all but the first one.  [_drain_buffer] hands every
    buffered entry to the client in buffer order and leaves the buffer empty;
    on an empty buffer it changes nothing.  But the drain is not reached on
    reconnection: [_on_connect] raises [AttributeError] for every reason
    code and leaves the connector as it was, so no sequence of operations
    makes a fresh connector connected or hands a message to the client. *)
Theorem message_buffer_bounded_fifo :
  _MAX_BUFFER_SIZE = 1000 /\
  (forall ops : list operation,
     List.length (_message_buffer (run ops __init__)) <= 1000) /\
  (forall (self : CloudConnector) (topic payload : string),
     _is_connected self = false ->
     List.length (_message_buffer self) <= 1000 ->
     published (publish_telemetry topic payload self) = published self /\
     (List.length (_message_buffer self) < 1000 ->
      _message_buffer (publish_telemetry topic payload self)
      = _message_buffer self ++ [(topic, payload)]) /\
     (List.length (_message_buffer self) = 1000 ->
      _message_buffer (publish_telemetry topic payload self)
      = tl (_message_buffer self) ++ [(topic, payload)])) /\
  (forall ms : list message,
     _message_buffer (publish_all ms __init__) = skipn (List.length ms - 1000) ms /\
     published (publish_all ms __init__) = []) /\
  (forall ms : list message,
     List.length ms = 1001 ->
     _message_buffer (publish_all ms __init__) = tl ms /\
     List.length (_message_buffer (publish_all ms __init__)) = 1000 /\
     (forall n : nat,
        nth_error (_message_buffer (publish_all ms __init__)) n = nth_error ms (S n))) /\
  (forall self : CloudConnector,
     _is_connected (_drain_buffer self) = _is_connected self /\
     published (_drain_buffer self) = published self ++ _message_buffer self /\
     _message_buffer (_drain_buffer self) = []) /\
  (forall self : CloudConnector,
     _message_buffer self = [] -> _drain_buffer self = self) /\
  (forall (reason_code : ReasonCode) (self : CloudConnector),
     _on_connect reason_code self = (self, Raised AttributeError)) /\
  (forall ops : list operation,
     _is_connected (run ops __init__) = false /\
     published (run ops __init__) = []).
Proof.
  assert (M : _MAX_BUFFER_SIZE = 1000) by reflexivity.
  assert (A : forall ms : list message,
            _message_buffer (publish_all ms __init__) = skipn (List.length ms - 1000) ms /\
            published (publish_all ms __init__) = []).
  { intro ms.
    destruct (publish_all_disconnected ms __init__ eq_refl (Nat.le_0_l _)) as (_ & P & B).
    rewrite <- M. split; [exact B | exact P]. }
  split; [exact M | ].
  split; [intro ops; rewrite <- M; apply run_length; apply Nat.le_0_l | ].
  split.
  { intros self topic payload D B. rewrite <- M in *.
    unfold publish_telemetry. rewrite D. cbn [negb].
    destruct (buffer_message_buffer topic payload self B) as (_ & P & L & E).
    auto. }
  split; [exact A | ].
  split.
  { intros ms L. destruct (A ms) as [B _].
    assert (T : _message_buffer (publish_all ms __init__) = tl ms).
    { rewrite B, L. destruct ms; reflexivity. }
    split; [exact T | ]. rewrite T. split.
    - destruct ms as [ | m ms]; [discriminate L | ].
      cbn [tl List.length] in *. lia.
    - intro n. destruct ms; [destruct n | ]; reflexivity. }
  split.
  { intro self. destruct (drain_buffer_spec self) as (C & B & P). auto. }
  split.
  { intros self E. unfold _drain_buffer. rewrite E. reflexivity. }
  split.
  { intros reason_code self. reflexivity. }
  intro ops. rewrite (run_disconnected ops __init__ eq_refl (Nat.le_0_l _)).
  destruct (publish_all_disconnected (offered ops) __init__ eq_refl (Nat.le_0_l _))
    as (C & P & _).
  split; [exact C | exact P].
Qed.

(** One message waits in the buffer when the broker accepts the connection:
    the callback raises, and the message is still waiting. *)
Lemma message_buffer_bounded_fifo_reconnection :
  _message_buffer
    (publish_telemetry "drone/d1/telemetry/position" "p2"
       (publish_telemetry "drone/d1/telemetry/position" "p1" __init__))
  = [("drone/d1/telemetry/position", "p1"); ("drone/d1/telemetry/position", "p2")]%string /\
  _on_connect 0%Z
    (publish_telemetry "drone/d1/telemetry/position" "p1" __init__)
  = (publish_telemetry "drone/d1/telemetry/position" "p1" __init__, Raised AttributeError).
Proof.
  destruct message_buffer_bounded_fifo as (_ & _ & P & _ & _ & _ & _ & C & _).
  destruct (P (publish_telemetry "drone/d1/telemetry/position" "p1" __init__)
              "drone/d1/telemetry/position"%string "p2"%string) as (_ & L & _).
  - reflexivity.
  - cbn. lia.
  - split; [apply L; cbn; lia | apply C].
Defined.

End ConnectorFacts.

(** ** Haversine distance *)

Section HaversineFacts.
Import Executor.
Local Open Scope R_scope.

Lemma atan2_0_1 : atan2 0 1 = 0.
Proof.
  unfold atan2. destruct (Rlt_dec 0 1) as [_ | N]; [ | exfalso; apply N; Lra.lra].
  replace (0 / 1) with 0 by (unfold Rdiv; ring). apply atan_0.
Qed.

Lemma haversine_distance_same_point (latitude_1 longitude_1 : R) :
  _haversine_distance latitude_1 longitude_1 latitude_1 longitude_1 = 0.
Proof.
  unfold _haversine_distance. cbv zeta.
  replace ((latitude_1 - latitude_1) * _DEGREES_TO_RADIANS / 2) with 0
    by (unfold Rdiv; ring).
  replace ((longitude_1 - longitude_1) * _DEGREES_TO_RADIANS / 2) with 0
    by (unfold Rdiv; ring).
  rewrite sin_0.
  replace (0 ^ 2 + cos (latitude_1 * _DEGREES_TO_RADIANS)
                   * cos (latitude_1 * _DEGREES_TO_RADIANS) * 0 ^ 2) with 0 by ring.
  replace (1 - 0) with 1 by ring.
  rewrite sqrt_0, sqrt_1, atan2_0_1. ring.
Qed.

Lemma sin_half_difference_sqr (a b k : R) :
  sin ((b - a) * k / 2) ^ 2 = sin ((a - b) * k / 2) ^ 2.
Proof.
  replace ((b - a) * k / 2) with (- ((a - b) * k / 2)) by (unfold Rdiv; ring).
  rewrite sin_neg. ring.
Qed.

Lemma atan2_sin_cos (a : R) : 0 <= a <= PI / 2 -> atan2 (sin a) (cos a) = a.
Proof.
  intros [L U]. pose proof PI_RGT_0 as P. unfold atan2.
  destruct (Rle_lt_or_eq_dec a (PI / 2) U) as [Lt | Eq].
  - assert (C : 0 < cos a) by (apply cos_gt_0; Lra.lra).
    destruct (Rlt_dec 0 (cos a)) as [_ | N]; [ | contradiction].
    change (sin a / cos a) with (tan a). apply atan_tan. Lra.lra.
  - subst a. rewrite cos_PI2, sin_PI2.
    destruct (Rlt_dec 0 0) as [F | _]; [Lra.lra | ].
    destruct (Rlt_dec 0 1) as [_ | F]; [reflexivity | Lra.lra].
Qed.

Lemma sqrt_sin_cos_abs (d : R) :
  - (PI / 2) <= d <= PI / 2 ->
  sqrt (sin d ^ 2) = sin (Rabs d) /\ sqrt (1 - sin d ^ 2) = cos (Rabs d).
Proof.
  intros [L U]. pose proof PI_RGT_0 as P.
  assert (E : 1 - sin d ^ 2 = Rsqr (cos d)).
  { rewrite cos2, Rsqr_pow2. reflexivity. }
  rewrite E, <- Rsqr_pow2, !sqrt_Rsqr_abs.
  destruct (Rle_lt_dec 0 d) as [Pd | Nd].
  - rewrite (Rabs_right d) by Lra.lra.
    rewrite (Rabs_right (sin d)) by (apply Rle_ge, sin_ge_0; Lra.lra).
    rewrite (Rabs_right (cos d)) by (apply Rle_ge, cos_ge_0; Lra.lra).
    split; reflexivity.
  - rewrite (Rabs_left d) by Lra.lra.
    rewrite sin_neg, cos_neg.
    assert (S : 0 <= sin (- d)) by (apply sin_ge_0; Lra.lra).
    rewrite sin_neg in S.
    rewrite (Rabs_left1 (sin d)) by Lra.lra.
    rewrite (Rabs_right (cos d)) by (apply Rle_ge, cos_ge_0; Lra.lra).
    split; reflexivity.
Qed.

(** Half a difference of at most 180 degrees, in radians. *)
Lemma half_difference_radians (a b : R) :
  Rabs (b - a) <= 180 ->
  Rabs ((b - a) * _DEGREES_TO_RADIANS / 2) = Rabs (b - a) * (PI / 180) / 2 /\
  - (PI / 2) <= (b - a) * _DEGREES_TO_RADIANS / 2 <= PI / 2.
Proof.
  intro B. pose proof PI_RGT_0 as P.
  set (d := (b - a) * _DEGREES_TO_RADIANS / 2).
  assert (A : Rabs d = Rabs (b - a) * (PI / 180) / 2).
  { unfold d, _DEGREES_TO_RADIANS.
    replace ((b - a) * (PI / 180) / 2) with ((b - a) * (PI / 360)) by (unfold Rdiv; field).
    rewrite Rabs_mult, (Rabs_right (PI / 360)) by Lra.lra.
    unfold Rdiv. field. }
  split; [exact A | ].
  assert (Q : Rabs d <= PI / 2).
  { rewrite A. pose proof (Rabs_pos (b - a)) as N.
    assert (M : Rabs (b - a) * (PI / 180) <= 180 * (PI / 180)).
    { apply Rmult_le_compat_r; [Lra.lra | exact B]. }
    Lra.lra. }
  unfold Rabs in Q. destruct (Rcase_abs d); Lra.lra.
Qed.

(** C9.  The distance of a point to itself is 0 and the distance is the same
    in both directions; it is measured on the sphere of radius 6,371,000 m:
    between two points of the equator whose longitudes differ by at most 180
    degrees it is the arc of the equator, the longitude difference in radians
    times 6,371,000 m. *)
Theorem haversine_distance_identity_symmetry :
  (forall latitude_1 longitude_1 : R,
     _haversine_distance latitude_1 longitude_1 latitude_1 longitude_1 = 0) /\
  (forall latitude_1 longitude_1 latitude_2 longitude_2 : R,
     _haversine_distance latitude_1 longitude_1 latitude_2 longitude_2
     = _haversine_distance latitude_2 longitude_2 latitude_1 longitude_1) /\
  (forall longitude_1 longitude_2 : R,
     Rabs (longitude_2 - longitude_1) <= 180 ->
     _haversine_distance 0 longitude_1 0 longitude_2
     = 6371000 * (Rabs (longitude_2 - longitude_1) * (PI / 180))).
Proof.
  split; [ | split].
  - exact haversine_distance_same_point.
  - intros latitude_1 longitude_1 latitude_2 longitude_2.
    unfold _haversine_distance. cbv zeta.
    rewrite (sin_half_difference_sqr latitude_1 latitude_2).
    rewrite (sin_half_difference_sqr longitude_1 longitude_2).
    rewrite (Rmult_comm (cos (latitude_1 * _DEGREES_TO_RADIANS))
               (cos (latitude_2 * _DEGREES_TO_RADIANS))).
    reflexivity.
  - intros longitude_1 longitude_2 B.
    destruct (half_difference_radians longitude_1 longitude_2 B) as [A R].
    unfold _haversine_distance. cbv zeta.
    replace ((0 - 0) * _DEGREES_TO_RADIANS / 2) with 0 by (unfold Rdiv; ring).
    replace (0 * _DEGREES_TO_RADIANS) with 0 by ring.
    rewrite sin_0, cos_0.
    set (d := (longitude_2 - longitude_1) * _DEGREES_TO_RADIANS / 2) in *.
    replace (0 ^ 2 + 1 * 1 * sin d ^ 2) with (sin d ^ 2) by ring.
    destruct (sqrt_sin_cos_abs d R) as [S C]. rewrite S, C.
    rewrite atan2_sin_cos.
    + rewrite A. unfold _EARTH_RADIUS_METERS. field.
    + split; [apply Rabs_pos | ]. apply Rabs_le. exact R.
Qed.

Lemma haversine_distance_identity_symmetry_quarter_equator :
  _haversine_distance 0 0 0 90 = 6371000 * (PI / 2).
Proof.
  destruct haversine_distance_identity_symmetry as (_ & _ & E).
  rewrite (E 0 90).
  - replace (90 - 0) with 90 by ring.
    rewrite (Rabs_right 90) by Lra.lra. field.
  - replace (90 - 0) with 90 by ring.
    rewrite (Rabs_right 90) by Lra.lra. Lra.lra.
Defined.

End HaversineFacts.

(** ** Mission executor *)

Section ExecutorFacts.
Import Executor.

(** A bridge that has received no call and whose [get_telemetry] calls
    follow [script]. *)
Definition fresh_bridge (script : list poll) : Bridge := {|
  goto_calls := [];
  set_mode_calls := [];
  telemetry_script := script
|}.

(** The waypoints of the repository's tests: 40.0 + i/1000 degrees north,
    -74.0 + i/1000 degrees east, 50 m up. *)
Definition test_waypoint (i : Z) : Waypoint := {|
  latitude := (40 + IZR i * 0.001)%R;
  longitude := (-74 + IZR i * 0.001)%R;
  altitude := 50%R;
  speed := 5%R;
  loiter_time_seconds := 0
|}.

Definition test_segment (waypoints : list Waypoint) : MissionSegment := {|
  segment_id := "seg-001";
  mission_id := "mission-001";
  waypoints := waypoints;
  capture_images := true
|}.

(** C5.  [load_segment] returns exactly when the executor is idle, completed
    or aborted and the segment has a waypoint, and then leaves the executor
    executing the segment from its first waypoint; from [LOADING],
    [EXECUTING] and [PAUSED] it raises; on a segment without waypoints it
    raises and the executor is what it was. *)
Theorem load_segment_accepted_exactly (segment : MissionSegment) (self : MissionExecutor) :
  (snd (load_segment segment self) = Returned tt <->
   (_state self = IDLE \/ _state self = COMPLETED \/ _state self = ABORTED) /\
   waypoints segment <> []) /\
  (snd (load_segment segment self) = Returned tt ->
   _state (fst (load_segment segment self)) = EXECUTING /\
   _current_segment (fst (load_segment segment self)) = Some segment /\
   _current_waypoint_index (fst (load_segment segment self)) = 0) /\
  (_state self = LOADING \/ _state self = EXECUTING \/ _state self = PAUSED ->
   load_segment segment self = (self, Raised RuntimeError)) /\
  (waypoints segment = [] ->
   exists e : exn, load_segment segment self = (self, Raised e)).
Proof.
  unfold load_segment.
  destruct (_state self) eqn:S; destruct (waypoints segment) as [ | w ws] eqn:W;
    cbn [ExecutorState_eqb orb negb fst snd _state _current_segment
         _current_waypoint_index set_state set_current_segment
         set_current_waypoint_index];
    (split; [split | split; [ | split]]); intros;
    repeat match goal with
           | H : _ \/ _ |- _ => destruct H
           | H : _ /\ _ |- _ => destruct H
           end;
    try discriminate; try congruence; try reflexivity; eauto;
    try (split; [tauto | discriminate]).
Qed.

Lemma load_segment_accepted_exactly_idle :
  _state (fst (load_segment (test_segment [test_waypoint 0]) (__init__ (fresh_bridge []))))
  = EXECUTING.
Proof.
  destruct (load_segment_accepted_exactly
              (test_segment [test_waypoint 0]) (__init__ (fresh_bridge [])))
    as (_ & E & _).
  apply E. reflexivity.
Defined.

(** The executor after [load_segment] of the test segment with the given
    waypoints, on a fresh bridge following [script]. *)
Definition loaded (waypoints : list Waypoint) (script : list poll) : MissionExecutor :=
  fst (load_segment (test_segment waypoints) (__init__ (fresh_bridge script))).

(** A [get_telemetry] call that times out while another actor calls
    [pause()], respectively [abort()]. *)
Definition timeout_while (r : request) : poll := {|
  reply := Raised TimeoutError;
  meanwhile := Some r
|}.

Lemma poll_until_arrival_interrupted (waypoint : Waypoint) (script : list poll)
    (self : MissionExecutor) :
  _state self = PAUSED \/ _state self = ABORTED ->
  poll_until_arrival waypoint script self = (self, Some (Returned tt)).
Proof.
  intros [S | S]; destruct script; cbn [poll_until_arrival]; rewrite S; reflexivity.
Qed.

Lemma serve_request_executing (r : request) (self : MissionExecutor) :
  _state self = EXECUTING ->
  (_state (serve (Some r) self) = PAUSED \/ _state (serve (Some r) self) = ABORTED) /\
  _current_waypoint_index (serve (Some r) self) = _current_waypoint_index self.
Proof.
  intro S. destruct r; cbn [serve]; unfold pause, abort; rewrite S; cbn; auto.
Qed.

(** A poll that does not detect arrival: the read fails with one of the two
    exceptions the loop swallows, or the position read is beyond the
    arrival threshold. *)
Definition no_arrival (waypoint : Waypoint) (threshold : R) (p : poll) : Prop :=
  reply p = Raised ConnectionError \/
  reply p = Raised TimeoutError \/
  exists telemetry,
    reply p = Returned telemetry /\ _has_arrived waypoint telemetry threshold = false.

Lemma navigate_interrupted (waypoint : Waypoint) (p : poll) (script : list poll)
    (r : request) (self : MissionExecutor) :
  _state self = EXECUTING ->
  telemetry_script (_bridge self) = p :: script ->
  meanwhile p = Some r ->
  no_arrival waypoint (_arrival_threshold_meters self) p ->
  exists self1,
    _navigate_to_waypoint waypoint self = (self1, Some (Returned tt)) /\
    (_state self1 = PAUSED \/ _state self1 = ABORTED) /\
    _current_waypoint_index self1 = _current_waypoint_index self.
Proof.
  intros S T M N.
  unfold _navigate_to_waypoint. cbv zeta.
  set (self0 := bridge_goto (latitude waypoint, longitude waypoint, altitude waypoint) self).
  assert (S0 : _state self0 = EXECUTING) by exact S.
  assert (T0 : telemetry_script (_bridge self0) = p :: script) by exact T.
  rewrite T0. cbn [poll_until_arrival]. rewrite S0. cbn [ExecutorState_eqb orb].
  rewrite M.
  set (self1 := serve (Some r) (bridge_set_script script self0)).
  destruct (serve_request_executing r (bridge_set_script script self0) S0) as [P I].
  fold self1 in P, I.
  assert (A : _arrival_threshold_meters self1 = _arrival_threshold_meters self).
  { unfold self1. destruct r; cbn [serve]; unfold pause, abort;
      cbn [bridge_set_script set_bridge _state]; rewrite S0; reflexivity. }
  exists self1. split; [ | split; [exact P | exact I]].
  destruct N as [E | [E | (telemetry & E & F)]]; rewrite E.
  - apply poll_until_arrival_interrupted. exact P.
  - apply poll_until_arrival_interrupted. exact P.
  - rewrite A, F. apply poll_until_arrival_interrupted. exact P.
Qed.

(** What the code does when a pause or an abort arrives during a poll that
    does not detect arrival: [execute] returns with the waypoint index moved
    past the waypoint it was flying to, and on the last waypoint of the
    segment it ends in [COMPLETED]. *)
Lemma execute_interrupted_poll_advances (segment : MissionSegment) (waypoint : Waypoint)
    (p : poll) (script : list poll) (r : request) (self : MissionExecutor) :
  _state self = EXECUTING ->
  _current_segment self = Some segment ->
  nth_error (waypoints segment) (_current_waypoint_index self) = Some waypoint ->
  telemetry_script (_bridge self) = p :: script ->
  meanwhile p = Some r ->
  no_arrival waypoint (_arrival_threshold_meters self) p ->
  snd (execute self) = Some (Returned tt) /\
  _current_waypoint_index (fst (execute self)) = S (_current_waypoint_index self) /\
  (S (_current_waypoint_index self) = List.length (waypoints segment) ->
   _state (fst (execute self)) = COMPLETED).
Proof.
  intros St G W T M N.
  assert (L : _current_waypoint_index self < List.length (waypoints segment)).
  { apply nth_error_Some. rewrite W. discriminate. }
  destruct (navigate_interrupted waypoint p script r self St T M N) as (self1 & V & P & I).
  unfold execute, _require_segment. rewrite St, G. cbn [ExecutorState_eqb negb].
  destruct (List.length (waypoints segment) - _current_waypoint_index self) as [ | k] eqn:K;
    [lia | ].
  cbn [execute_loop].
  destruct (Nat.ltb_spec (_current_waypoint_index self) (List.length (waypoints segment)));
    [ | lia].
  rewrite St. cbn [ExecutorState_eqb]. rewrite W, V.
  cbn [_current_waypoint_index set_current_waypoint_index _state].
  destruct (Nat.ltb_spec (S (_current_waypoint_index self1)) (List.length (waypoints segment)))
    as [Lt | Ge].
  - destruct P as [P | P]; rewrite P;
      cbn [ExecutorState_eqb fst snd _current_waypoint_index set_current_waypoint_index];
      rewrite I; (split; [reflexivity | split; [reflexivity | lia]]).
  - cbn [fst snd _current_waypoint_index set_state _state set_current_waypoint_index].
    rewrite I. split; [reflexivity | split; reflexivity].
Qed.

(** C1 fails on the code.  A two-waypoint segment is being executed, the
    first [get_telemetry] call times out and [pause()] is called meanwhile:
    [execute] returns with the executor paused, one [goto] sent, and the
    waypoint index at 1 although waypoint 0 was never reached.  With a
    one-waypoint segment and [abort()], the executor even ends [COMPLETED]. *)
Theorem execute_interrupted_before_arrival :
  _state (loaded [test_waypoint 0; test_waypoint 1] [timeout_while RequestPause])
  = EXECUTING /\
  _current_waypoint_index
    (loaded [test_waypoint 0; test_waypoint 1] [timeout_while RequestPause]) = 0 /\
  snd (execute (loaded [test_waypoint 0; test_waypoint 1] [timeout_while RequestPause]))
  = Some (Returned tt) /\
  _state (fst (execute (loaded [test_waypoint 0; test_waypoint 1]
                          [timeout_while RequestPause]))) = PAUSED /\
  List.length (goto_calls (_bridge (fst (execute (loaded [test_waypoint 0; test_waypoint 1]
                                              [timeout_while RequestPause]))))) = 1 /\
  _current_waypoint_index
    (fst (execute (loaded [test_waypoint 0; test_waypoint 1]
                     [timeout_while RequestPause]))) = 1 /\
  _state (fst (execute (loaded [test_waypoint 0] [timeout_while RequestAbort])))
  = COMPLETED /\
  _current_waypoint_index
    (fst (execute (loaded [test_waypoint 0] [timeout_while RequestAbort]))) = 1.
Proof. repeat split. Qed.

(** A [get_telemetry] call that reports the position of [waypoint], with
    the request [r] arriving meanwhile. *)
Definition reading_at (waypoint : Waypoint) (r : option request) : poll := {|
  reply := Returned {|
    MavlinkModels.latitude := latitude waypoint;
    MavlinkModels.longitude := longitude waypoint;
    MavlinkModels.altitude := altitude waypoint;
    MavlinkModels.heading := 0%R;
    MavlinkModels.ground_speed := 0%R;
    MavlinkModels.vertical_speed := 0%R;
    MavlinkModels.battery_voltage := 12%R;
    MavlinkModels.battery_remaining := 90;
    MavlinkModels.gps_fix_type := 3;
    MavlinkModels.satellites_visible := 10
  |};
  meanwhile := r
|}.

Lemma has_arrived_at_waypoint (waypoint : Waypoint) (altitude heading ground_speed
    vertical_speed battery_voltage : R) (battery_remaining gps_fix_type satellites_visible : Z) :
  _has_arrived waypoint
    {| MavlinkModels.latitude := latitude waypoint;
       MavlinkModels.longitude := longitude waypoint;
       MavlinkModels.altitude := altitude;
       MavlinkModels.heading := heading;
       MavlinkModels.ground_speed := ground_speed;
       MavlinkModels.vertical_speed := vertical_speed;
       MavlinkModels.battery_voltage := battery_voltage;
       MavlinkModels.battery_remaining := battery_remaining;
       MavlinkModels.gps_fix_type := gps_fix_type;
       MavlinkModels.satellites_visible := satellites_visible |}
    _DEFAULT_ARRIVAL_THRESHOLD_METERS = true.
Proof.
  unfold _has_arrived. cbn [MavlinkModels.latitude MavlinkModels.longitude].
  rewrite haversine_distance_same_point.
  destruct (Rle_dec 0 _DEFAULT_ARRIVAL_THRESHOLD_METERS) as [_ | N]; [reflexivity | ].
  exfalso. apply N. unfold _DEFAULT_ARRIVAL_THRESHOLD_METERS. Lra.lra.
Qed.

(** The end-to-end scenario of the specification: three waypoints, each
    reported reached by the first poll after its [goto]. *)
Example execute_three_waypoints :
  let self :=
    fst (execute (loaded [test_waypoint 0; test_waypoint 1; test_waypoint 2]
                    [reading_at (test_waypoint 0) None;
                     reading_at (test_waypoint 1) None;
                     reading_at (test_waypoint 2) None])) in
  _state self = COMPLETED /\
  _current_waypoint_index self = 3 /\
  List.length (goto_calls (_bridge self)) = 3.
Proof.
  unfold loaded, execute.
  cbn -[_has_arrived test_waypoint _DEFAULT_ARRIVAL_THRESHOLD_METERS].
  rewrite !has_arrived_at_waypoint.
  cbn -[_has_arrived test_waypoint _DEFAULT_ARRIVAL_THRESHOLD_METERS].
  rewrite !has_arrived_at_waypoint.
  cbn -[_has_arrived test_waypoint _DEFAULT_ARRIVAL_THRESHOLD_METERS].
  rewrite !has_arrived_at_waypoint.
  cbn -[test_waypoint].
  repeat split.
Qed.

(** The same with [pause()] called during the poll that detects the first
    arrival: the executor is paused at index 1 after one [goto]. *)
Example execute_paused_after_first_arrival :
  let self :=
    fst (execute (loaded [test_waypoint 0; test_waypoint 1; test_waypoint 2]
                    [reading_at (test_waypoint 0) (Some RequestPause);
                     reading_at (test_waypoint 1) None;
                     reading_at (test_waypoint 2) None])) in
  _state self = PAUSED /\
  _current_waypoint_index self = 1 /\
  List.length (goto_calls (_bridge self)) = 1.
Proof.
  unfold loaded, execute.
  cbn -[_has_arrived test_waypoint _DEFAULT_ARRIVAL_THRESHOLD_METERS].
  rewrite !has_arrived_at_waypoint.
  cbn -[test_waypoint].
  repeat split.
Qed.

End ExecutorFacts.

(** ** MAVLink bridge *)

Section BridgeFacts.
Import MavlinkModels Bridge.

Lemma require_connection_disconnected (self : MavlinkBridge) :
  _state self = DISCONNECTED ->
  _require_connection self = (self, Raised ConnectionError).
Proof.
  intro S. unfold _require_connection. rewrite S.
  destruct (_connection self); reflexivity.
Qed.

Lemma bind_raised {A B : Type} (m : method A) (k : A -> method B)
    (self : MavlinkBridge) (e : exn) :
  m self = (self, Raised e) -> bind m k self = (self, Raised e).
Proof. intro H. unfold bind. rewrite H. reflexivity. Qed.

(** A connection that answers one telemetry read and knows two modes. *)
Definition sample_connection : mavfile := {|
  target_system := 1;
  target_component := 1;
  mode_mapping := [("LOITER"%string, 5%Z); ("LAND"%string, 9%Z)];
  outbox := [];
  position_replies := [];
  status_replies := [];
  gps_replies := []
|}.

(** The bridge after a [connect] whose heartbeat wait failed: disconnected,
    with the connection object still assigned. *)
Definition after_failed_heartbeat : MavlinkBridge :=
  fst (connect (Returned sample_connection) (Raised TimeoutError) __init__).

(** C8.  Called on a disconnected bridge, each of [get_telemetry], [arm],
    [disarm], [set_mode], [goto], [takeoff], [land] and [send_command]
    raises [ConnectionError] and leaves the bridge as it was. *)
Theorem disconnected_bridge_refuses (self : MavlinkBridge) :
  _state self = DISCONNECTED ->
  get_telemetry self = (self, Raised ConnectionError) /\
  arm self = (self, Raised ConnectionError) /\
  disarm self = (self, Raised ConnectionError) /\
  (forall mode : string, set_mode mode self = (self, Raised ConnectionError)) /\
  (forall latitude longitude altitude : R,
     goto latitude longitude altitude self = (self, Raised ConnectionError)) /\
  (forall altitude : R, takeoff altitude self = (self, Raised ConnectionError)) /\
  land self = (self, Raised ConnectionError) /\
  (forall command : MavlinkCommand,
     send_command command self = (self, Raised ConnectionError)).
Proof.
  intro S. pose proof (require_connection_disconnected self S) as Q.
  assert (M : forall mode : string, set_mode mode self = (self, Raised ConnectionError)).
  { intro mode. apply bind_raised. exact Q. }
  repeat split; intros; try (apply bind_raised; first [exact Q | apply M]).
Qed.

Lemma disconnected_bridge_refuses_after_failed_heartbeat :
  _connection after_failed_heartbeat = Some sample_connection /\
  arm after_failed_heartbeat = (after_failed_heartbeat, Raised ConnectionError) /\
  land __init__ = (__init__, Raised ConnectionError).
Proof.
  split; [reflexivity | split].
  - apply (disconnected_bridge_refuses after_failed_heartbeat). reflexivity.
  - apply (disconnected_bridge_refuses __init__). reflexivity.
Defined.

End BridgeFacts.

(** ** Obstacle classifier *)

Section AvoidanceFacts.
Import Avoidance.
Local Open Scope float_scope.

(** *** Order of binary64 numbers *)

Lemma SFcompare_antisym (x y : spec_float) :
  SFcompare y x = option_map CompOpp (SFcompare x y).
Proof.
  destruct x as [sx | sx | | sx mx ex], y as [sy | sy | | sy my ey]; cbn;
    try reflexivity;
    try (destruct sx; reflexivity); try (destruct sy; reflexivity);
    try (destruct sx, sy; reflexivity).
  destruct sx, sy; cbn; try reflexivity;
    rewrite (Z.compare_antisym ex ey);
    destruct (ex ?= ey)%Z; cbn; try reflexivity;
    rewrite (Pos.compare_cont_antisym mx my Eq); reflexivity.
Qed.

Lemma ltb_true_leb_false (x y : float) : (x <? y) = true -> (y <=? x) = false.
Proof.
  rewrite ltb_spec, leb_spec. unfold SFltb, SFleb.
  rewrite (SFcompare_antisym (Prim2SF x) (Prim2SF y)).
  destruct (SFcompare (Prim2SF x) (Prim2SF y)) as [[ | | ] | ]; cbn; congruence.
Qed.

Lemma leb_true_ltb_false (x y : float) : (x <=? y) = true -> (y <? x) = false.
Proof.
  rewrite ltb_spec, leb_spec. unfold SFltb, SFleb.
  rewrite (SFcompare_antisym (Prim2SF x) (Prim2SF y)).
  destruct (SFcompare (Prim2SF x) (Prim2SF y)) as [[ | | ] | ]; cbn; congruence.
Qed.

(** A number that is at least a positive number is not at most zero. *)
Lemma above_positive_not_leb_zero (m r : float) :
  (0 <? m) = true -> (m <=? r) = true -> (r <=? 0) = false.
Proof.
  rewrite ltb_spec, !leb_spec. unfold SFltb, SFleb.
  change (Prim2SF 0) with (S754_zero false).
  destruct (Prim2SF m) as [sm | sm | | sm mm em], (Prim2SF r) as [sr | sr | | sr mr er];
    cbn; try discriminate; try reflexivity;
    try (destruct sm; cbn; try discriminate; destruct sr; cbn; try discriminate; reflexivity);
    try (destruct sr; cbn; try discriminate; reflexivity);
    try (destruct sm; cbn; discriminate).
Qed.

Ltac compare_cases :=
  repeat match goal with
    | |- context [(?a ?= ?b)%Z] => destruct (Z.compare_spec a b); subst
    | |- context [PosDef.Pos.compare_cont Eq ?a ?b] =>
        change (PosDef.Pos.compare_cont Eq a b) with (Pos.compare a b);
        destruct (Pos.compare_spec a b); subst
    end.

Lemma SFleb_trans (x y z : spec_float) :
  SFleb x y = true -> SFleb y z = true -> SFleb x z = true.
Proof.
  unfold SFleb.
  destruct x as [sx | sx | | sx mx ex], y as [sy | sy | | sy my ey],
           z as [sz | sz | | sz mz ez]; cbn;
    try discriminate; try reflexivity;
    try destruct sx; try destruct sy; try destruct sz; cbn;
    try discriminate; try reflexivity;
    compare_cases; cbn; intros; try discriminate; try reflexivity; try lia.
Qed.

Lemma leb_trans (x y z : float) :
  (x <=? y) = true -> (y <=? z) = true -> (x <=? z) = true.
Proof. rewrite !leb_spec. apply SFleb_trans. Qed.

Lemma ltb_true_leb_true (x y : float) : (x <? y) = true -> (x <=? y) = true.
Proof.
  rewrite ltb_spec, leb_spec. unfold SFltb, SFleb.
  destruct (SFcompare (Prim2SF x) (Prim2SF y)) as [[ | | ] | ]; congruence.
Qed.

(** Above the larger of two bounds is not below the smaller one. *)
Lemma above_upper_not_leb_lower (lower upper x : float) :
  (lower <=? upper) = true -> (upper <? x) = true -> (x <=? lower) = false.
Proof.
  intros B A. destruct (x <=? lower) eqn:E; [ | reflexivity].
  pose proof (leb_trans x lower upper E B) as T.
  rewrite (ltb_true_leb_false upper x A) in T. discriminate T.
Qed.

(** Below the smaller of two bounds is not above the larger one. *)
Lemma below_lower_not_above_upper (lower upper x : float) :
  (lower <=? upper) = true -> (x <? lower) = true -> (upper <? x) = false.
Proof.
  intros B A. destruct (upper <? x) eqn:E; [ | reflexivity].
  pose proof (leb_trans x lower upper (ltb_true_leb_true x lower A) B) as T.
  rewrite (ltb_true_leb_false upper x E) in T. discriminate T.
Qed.

(** *** Classification *)

(** The severities a frame in range gives, band by band. *)
Lemma process_depth_frame_in_range (frame : DepthFrame) (self : ObstacleAvoidance) :
  (0 <? min_distance_meters frame) = true ->
  (min_distance_meters frame <=? _detection_range_meters self) = true ->
  map severity (process_depth_frame frame self)
  = if min_distance_meters frame / _detection_range_meters self <=? 0.2 then [CRITICAL]
    else if min_distance_meters frame / _detection_range_meters self <=? 0.4 then [HIGH]
    else if min_distance_meters frame / _detection_range_meters self <=? 0.6 then [MEDIUM]
    else if min_distance_meters frame / _detection_range_meters self <=? 0.8 then [LOW]
    else [].
Proof.
  intros P I. unfold process_depth_frame, _classify_severity. cbv zeta.
  rewrite (ltb_true_leb_false _ _ P), (leb_true_ltb_false _ _ I),
    (above_positive_not_leb_zero _ _ P I).
  unfold _CRITICAL_RATIO, _HIGH_RATIO, _MEDIUM_RATIO, _LOW_RATIO.
  destruct (min_distance_meters frame / _detection_range_meters self <=? 0.2);
    [reflexivity | ].
  destruct (min_distance_meters frame / _detection_range_meters self <=? 0.4);
    [reflexivity | ].
  destruct (min_distance_meters frame / _detection_range_meters self <=? 0.6);
    [reflexivity | ].
  destruct (min_distance_meters frame / _detection_range_meters self <=? 0.8);
    reflexivity.
Qed.

(** C6.  For a frame whose nearest reading is positive and within the
    detection range, the severity follows the ratio of the reading to the
    range: at most 0.2 critical, above 0.2 and at most 0.4 high, above 0.4
    and at most 0.6 medium, above 0.6 and at most 0.8 low, the bounds 0.2,
    0.4, 0.6 and 0.8 themselves included; above 0.8 nothing is detected, nor
    is anything for a reading that is not positive or beyond the range. *)
Theorem process_depth_frame_severity_bands (frame : DepthFrame) (self : ObstacleAvoidance) :
  let ratio := min_distance_meters frame / _detection_range_meters self in
  ((0 <? min_distance_meters frame) = true ->
   (min_distance_meters frame <=? _detection_range_meters self) = true ->
   ((ratio <=? 0.2) = true ->
    map severity (process_depth_frame frame self) = [CRITICAL]) /\
   ((0.2 <? ratio) = true -> (ratio <=? 0.4) = true ->
    map severity (process_depth_frame frame self) = [HIGH]) /\
   ((0.4 <? ratio) = true -> (ratio <=? 0.6) = true ->
    map severity (process_depth_frame frame self) = [MEDIUM]) /\
   ((0.6 <? ratio) = true -> (ratio <=? 0.8) = true ->
    map severity (process_depth_frame frame self) = [LOW]) /\
   ((0.8 <? ratio) = true -> process_depth_frame frame self = []) /\
   (ratio = 0.2 -> map severity (process_depth_frame frame self) = [CRITICAL]) /\
   (ratio = 0.4 -> map severity (process_depth_frame frame self) = [HIGH]) /\
   (ratio = 0.6 -> map severity (process_depth_frame frame self) = [MEDIUM]) /\
   (ratio = 0.8 -> map severity (process_depth_frame frame self) = [LOW])) /\
  ((min_distance_meters frame <=? 0) = true -> process_depth_frame frame self = []) /\
  ((_detection_range_meters self <? min_distance_meters frame) = true ->
   process_depth_frame frame self = []).
Proof.
  cbv zeta. split; [ | split].
  - intros P I. pose proof (process_depth_frame_in_range frame self P I) as S.
    set (ratio := min_distance_meters frame / _detection_range_meters self) in *.
    assert (B24 : (0.2 <=? 0.4) = true) by reflexivity.
    assert (B26 : (0.2 <=? 0.6) = true) by reflexivity.
    assert (B28 : (0.2 <=? 0.8) = true) by reflexivity.
    assert (B46 : (0.4 <=? 0.6) = true) by reflexivity.
    assert (B48 : (0.4 <=? 0.8) = true) by reflexivity.
    assert (B68 : (0.6 <=? 0.8) = true) by reflexivity.
    repeat split.
    + intro C. rewrite S, C. reflexivity.
    + intros A C. rewrite S, (ltb_true_leb_false _ _ A), C. reflexivity.
    + intros A C.
      rewrite S, (above_upper_not_leb_lower 0.2 0.4 ratio B24 A), (ltb_true_leb_false _ _ A), C.
      reflexivity.
    + intros A C.
      rewrite S, (above_upper_not_leb_lower 0.2 0.6 ratio B26 A),
        (above_upper_not_leb_lower 0.4 0.6 ratio B46 A), (ltb_true_leb_false _ _ A), C.
      reflexivity.
    + intro A.
      assert (E : map severity (process_depth_frame frame self) = []).
      { rewrite S, (above_upper_not_leb_lower 0.2 0.8 ratio B28 A),
          (above_upper_not_leb_lower 0.4 0.8 ratio B48 A),
          (above_upper_not_leb_lower 0.6 0.8 ratio B68 A), (ltb_true_leb_false _ _ A).
        reflexivity. }
      destruct (process_depth_frame frame self); [reflexivity | discriminate E].
    + intro E. rewrite S, E. reflexivity.
    + intro E. rewrite S, E. reflexivity.
    + intro E. rewrite S, E. reflexivity.
    + intro E. rewrite S, E. reflexivity.
  - intro Z. unfold process_depth_frame. cbv zeta. rewrite Z. reflexivity.
  - intro F. unfold process_depth_frame. cbv zeta. rewrite F.
    destruct (min_distance_meters frame <=? 0); reflexivity.
Qed.

(** The frames of the boundary tests: a detection range of 10 m and a
    nearest reading of [min_distance] metres. *)
Definition frame_at (min_distance : float) : DepthFrame := {|
  width := 640;
  height := 480;
  min_distance_meters := min_distance;
  max_distance_meters := 20;
  timestamp_ms := 0
|}.

Lemma process_depth_frame_severity_bands_at_boundaries :
  map severity (process_depth_frame (frame_at 2) (__init__ 10 2)) = [CRITICAL] /\
  map severity (process_depth_frame (frame_at 4) (__init__ 10 2)) = [HIGH] /\
  map severity (process_depth_frame (frame_at 6) (__init__ 10 2)) = [MEDIUM] /\
  map severity (process_depth_frame (frame_at 8) (__init__ 10 2)) = [LOW] /\
  process_depth_frame (frame_at 8.5) (__init__ 10 2) = [].
Proof.
  destruct (process_depth_frame_severity_bands (frame_at 2) (__init__ 10 2)) as [B2 _].
  destruct (B2 eq_refl eq_refl) as (_ & _ & _ & _ & _ & C & _).
  destruct (process_depth_frame_severity_bands (frame_at 4) (__init__ 10 2)) as [B4 _].
  destruct (B4 eq_refl eq_refl) as (_ & _ & _ & _ & _ & _ & H & _).
  destruct (process_depth_frame_severity_bands (frame_at 6) (__init__ 10 2)) as [B6 _].
  destruct (B6 eq_refl eq_refl) as (_ & _ & _ & _ & _ & _ & _ & M & _).
  destruct (process_depth_frame_severity_bands (frame_at 8) (__init__ 10 2)) as [B8 _].
  destruct (B8 eq_refl eq_refl) as (_ & _ & _ & _ & _ & _ & _ & _ & L).
  destruct (process_depth_frame_severity_bands (frame_at 8.5) (__init__ 10 2)) as [B9 _].
  destruct (B9 eq_refl eq_refl) as (_ & _ & _ & _ & N & _).
  exact (conj (C eq_refl) (conj (H eq_refl) (conj (M eq_refl) (conj (L eq_refl) (N eq_refl))))).
Defined.

(** C10.  A depth frame gives at most one detection. *)
Theorem process_depth_frame_at_most_one (frame : DepthFrame) (self : ObstacleAvoidance) :
  (List.length (process_depth_frame frame self) <= 1)%nat.
Proof.
  unfold process_depth_frame. cbv zeta.
  destruct (min_distance_meters frame <=? 0); [apply Nat.le_0_l | ].
  destruct (_detection_range_meters self <? min_distance_meters frame); [apply Nat.le_0_l | ].
  destruct (negb (ObstacleSeverity_eqb
                    (_classify_severity (min_distance_meters frame)
                       (_detection_range_meters self)) NONE)).
  - apply Nat.le_refl.
  - apply Nat.le_0_l.
Qed.

(** *** Maneuver selection *)

Lemma choose_lateral_direction_cases (bearing : float) :
  ((15 <? bearing) = true ->
   _choose_lateral_direction bearing = "lateral_left"%string) /\
  ((bearing <? -15) = true ->
   _choose_lateral_direction bearing = "lateral_right"%string) /\
  ((-15 <=? bearing) = true -> (bearing <=? 15) = true ->
   _choose_lateral_direction bearing = "climb"%string).
Proof.
  unfold _choose_lateral_direction, _BEARING_CENTER_THRESHOLD_DEGREES.
  change (PrimFloat.opp 15) with (-15).
  assert (B : (-15 <=? 15) = true) by reflexivity.
  repeat split.
  - intro A. rewrite A. reflexivity.
  - intro A. rewrite (below_lower_not_above_upper (-15) 15 bearing B A), A. reflexivity.
  - intros L U.
    rewrite (leb_true_ltb_false bearing 15 U), (leb_true_ltb_false (-15) bearing L).
    reflexivity.
Qed.

(** C7.  For a medium or low detection nearer than the minimum clearance,
    the maneuver is the lateral one chosen from the bearing: to the left
    for a bearing above +15 degrees, to the right for a bearing below -15
    degrees, and a climb for every bearing from -15 to +15 degrees, the two
    ends included. *)
Theorem lateral_direction_dead_zone (detection : ObstacleDetection)
    (self : ObstacleAvoidance) :
  severity detection = MEDIUM \/ severity detection = LOW ->
  (distance_meters detection <? _minimum_clearance_meters self) = true ->
  compute_avoidance [detection] self = Some (_select_maneuver detection) /\
  ((15 <? bearing_degrees detection) = true ->
   maneuver_type (_select_maneuver detection) = "lateral_left"%string) /\
  ((bearing_degrees detection <? -15) = true ->
   maneuver_type (_select_maneuver detection) = "lateral_right"%string) /\
  ((-15 <=? bearing_degrees detection) = true ->
   (bearing_degrees detection <=? 15) = true ->
   maneuver_type (_select_maneuver detection) = "climb"%string) /\
  (bearing_degrees detection = 15 \/ bearing_degrees detection = -15 ->
   maneuver_type (_select_maneuver detection) = "climb"%string).
Proof.
  intros V W.
  assert (T : maneuver_type (_select_maneuver detection)
              = _choose_lateral_direction (bearing_degrees detection)).
  { unfold _select_maneuver. destruct V as [V | V]; rewrite V; reflexivity. }
  destruct (choose_lateral_direction_cases (bearing_degrees detection)) as (L & R & C).
  rewrite T. split; [ | split; [exact L | split; [exact R | split; [exact C | ]]]].
  - unfold compute_avoidance, sorted_by_distance.
    cbn [fold_left insert_by_distance].
    rewrite (ltb_true_leb_false _ _ W).
    destruct V as [V | V]; rewrite V; reflexivity.
  - intros [E | E]; rewrite E; reflexivity.
Qed.

(** A low-severity detection 1 m ahead at the given bearing, for a
    classifier with a range of 10 m and a clearance of 2 m. *)
Definition low_detection_at (bearing : float) : ObstacleDetection := {|
  distance_meters := 1;
  bearing_degrees := bearing;
  severity := LOW;
  width_meters := 1;
  height_meters := 0.75
|}.

Lemma lateral_direction_dead_zone_tested_bearings :
  option_map maneuver_type (compute_avoidance [low_detection_at 15.1] (__init__ 10 2))
  = Some "lateral_left"%string /\
  option_map maneuver_type (compute_avoidance [low_detection_at (-15.1)] (__init__ 10 2))
  = Some "lateral_right"%string /\
  option_map maneuver_type (compute_avoidance [low_detection_at 15] (__init__ 10 2))
  = Some "climb"%string /\
  option_map maneuver_type (compute_avoidance [low_detection_at (-15)] (__init__ 10 2))
  = Some "climb"%string.
Proof.
  destruct (lateral_direction_dead_zone (low_detection_at 15.1) (__init__ 10 2)
              (or_intror eq_refl) eq_refl) as (A1 & L1 & _).
  destruct (lateral_direction_dead_zone (low_detection_at (-15.1)) (__init__ 10 2)
              (or_intror eq_refl) eq_refl) as (A2 & _ & R2 & _).
  destruct (lateral_direction_dead_zone (low_detection_at 15) (__init__ 10 2)
              (or_intror eq_refl) eq_refl) as (A3 & _ & _ & C3 & _).
  destruct (lateral_direction_dead_zone (low_detection_at (-15)) (__init__ 10 2)
              (or_intror eq_refl) eq_refl) as (A4 & _ & _ & _ & C4).
  rewrite A1, A2, A3, A4. cbn [option_map].
  rewrite (L1 eq_refl), (R2 eq_refl), (C3 eq_refl eq_refl), (C4 (or_intror eq_refl)).
  repeat split.
Defined.

End AvoidanceFacts.

(* ================================================================== *)
(** * Further properties *)

(** ** Mission executor: navigation *)

Section ExecutorNavigation.
Import Executor.

(** The [goto] target of a waypoint. *)
Definition target (waypoint : Waypoint) : R * R * R :=
  (latitude waypoint, longitude waypoint, altitude waypoint).

Lemma serve_keeps (r : option request) (self : MissionExecutor) :
  _current_waypoint_index (serve r self) = _current_waypoint_index self /\
  _current_segment (serve r self) = _current_segment self /\
  _arrival_threshold_meters (serve r self) = _arrival_threshold_meters self /\
  goto_calls (_bridge (serve r self)) = goto_calls (_bridge self) /\
  telemetry_script (_bridge (serve r self)) = telemetry_script (_bridge self).
Proof.
  destruct r as [[ | ] | ]; cbn [serve]; unfold pause, abort;
    destruct (_state self); cbn; auto.
Qed.

Lemma poll_until_arrival_keeps (waypoint : Waypoint) (script : list poll) :
  forall (self self' : MissionExecutor) (r : option (outcome unit)),
    poll_until_arrival waypoint script self = (self', r) ->
    _current_waypoint_index self' = _current_waypoint_index self /\
    _current_segment self' = _current_segment self /\
    _arrival_threshold_meters self' = _arrival_threshold_meters self /\
    goto_calls (_bridge self') = goto_calls (_bridge self).
Proof.
  induction script as [ | p script IH]; intros self self' r; cbn [poll_until_arrival].
  - destruct (ExecutorState_eqb (_state self) PAUSED || ExecutorState_eqb (_state self) ABORTED);
      intro E; inversion E; subst; auto.
  - destruct (ExecutorState_eqb (_state self) PAUSED || ExecutorState_eqb (_state self) ABORTED).
    { intro E; inversion E; subst; auto. }
    destruct (serve_keeps (meanwhile p) (bridge_set_script script self)) as (I & G & T & C & _).
    set (self1 := serve (meanwhile p) (bridge_set_script script self)) in *.
    assert (K : forall s r0, poll_until_arrival waypoint script self1 = (s, r0) ->
                _current_waypoint_index s = _current_waypoint_index self /\
                _current_segment s = _current_segment self /\
                _arrival_threshold_meters s = _arrival_threshold_meters self /\
                goto_calls (_bridge s) = goto_calls (_bridge self)).
    { intros s r0 E. destruct (IH _ _ _ E) as (I' & G' & T' & C').
      rewrite I', G', T', C'. auto. }
    destruct (reply p) as [telemetry | e].
    + destruct (_has_arrived waypoint telemetry (_arrival_threshold_meters self1)).
      * intro E; inversion E; subst; auto.
      * apply K.
    + destruct e; try apply K; intro E; inversion E; subst; auto.
Qed.

Lemma navigate_to_waypoint_keeps (waypoint : Waypoint) (self self' : MissionExecutor)
    (r : option (outcome unit)) :
  _navigate_to_waypoint waypoint self = (self', r) ->
  _current_waypoint_index self' = _current_waypoint_index self /\
  _current_segment self' = _current_segment self /\
  _arrival_threshold_meters self' = _arrival_threshold_meters self /\
  goto_calls (_bridge self') = goto_calls (_bridge self) ++ [target waypoint].
Proof.
  unfold _navigate_to_waypoint. cbv zeta. intro E.
  apply poll_until_arrival_keeps in E. exact E.
Qed.

Lemma skipn_nth_error {A : Type} (l : list A) (i : nat) (x : A) :
  nth_error l i = Some x -> skipn i l = x :: skipn (S i) l.
Proof.
  revert i. induction l as [ | y l IH]; intros [ | i] E; cbn in *; try discriminate.
  - inversion E. reflexivity.
  - apply IH. exact E.
Qed.

(** How many [goto] calls a run of the loop has sent: one per waypoint
    passed, and one more when it did not return normally. *)
Definition gotos_sent (r : option (outcome unit)) (before after : nat) : nat :=
  match r with
  | Some (Returned _) => after - before
  | _ => S (after - before)
  end.

Lemma execute_loop_gotos (segment : MissionSegment) :
  forall (fuel : nat) (self self' : MissionExecutor) (r : option (outcome unit)),
    List.length (waypoints segment) - _current_waypoint_index self < fuel ->
    _current_waypoint_index self <= List.length (waypoints segment) ->
    execute_loop fuel segment self = (self', r) ->
    _current_waypoint_index self <= _current_waypoint_index self'
      <= List.length (waypoints segment) /\
    _current_segment self' = _current_segment self /\
    goto_calls (_bridge self')
    = goto_calls (_bridge self)
      ++ map target
           (firstn (gotos_sent r (_current_waypoint_index self)
                      (_current_waypoint_index self'))
              (skipn (_current_waypoint_index self) (waypoints segment))) /\
    (r = Some (Returned tt) ->
     _state self' = PAUSED \/ _state self' = ABORTED \/
     (_state self' = COMPLETED /\
      _current_waypoint_index self' = List.length (waypoints segment))).
Proof.
  induction fuel as [ | fuel IH]; intros self self' r F B; [lia | ].
  cbn [execute_loop].
  destruct (Nat.ltb_spec (_current_waypoint_index self) (List.length (waypoints segment)))
    as [Lt | Ge].
  - destruct (ExecutorState_eqb (_state self) PAUSED) eqn:P.
    { intro E; inversion E; subst. cbn [gotos_sent]. rewrite Nat.sub_diag.
      cbn [firstn map]. rewrite app_nil_r.
      repeat split; try lia. intros _. left.
      destruct (_state self'); try discriminate P; reflexivity. }
    destruct (ExecutorState_eqb (_state self) ABORTED) eqn:A.
    { intro E; inversion E; subst. cbn [gotos_sent]. rewrite Nat.sub_diag.
      cbn [firstn map]. rewrite app_nil_r.
      repeat split; try lia. intros _. right; left.
      destruct (_state self'); try discriminate A; reflexivity. }
    destruct (nth_error (waypoints segment) (_current_waypoint_index self))
      as [waypoint | ] eqn:W.
    2:{ apply nth_error_None in W. lia. }
    destruct (_navigate_to_waypoint waypoint self) as [self1 r1] eqn:N.
    destruct (navigate_to_waypoint_keeps _ _ _ _ N) as (I1 & G1 & _ & C1).
    pose proof (skipn_nth_error _ _ _ W) as K.
    assert (Stop : (self1, r1) = (self', r) ->
                   r <> Some (Returned tt) ->
                   _current_waypoint_index self <= _current_waypoint_index self'
                     <= List.length (waypoints segment) /\
                   _current_segment self' = _current_segment self /\
                   goto_calls (_bridge self')
                   = goto_calls (_bridge self)
                     ++ map target
                          (firstn (gotos_sent r (_current_waypoint_index self)
                                     (_current_waypoint_index self'))
                             (skipn (_current_waypoint_index self) (waypoints segment))) /\
                   (r = Some (Returned tt) ->
                    _state self' = PAUSED \/ _state self' = ABORTED \/
                    (_state self' = COMPLETED /\
                     _current_waypoint_index self' = List.length (waypoints segment)))).
    { intros E NR. inversion E; subst self' r.
      rewrite I1, G1, C1, K.
      assert (GS : gotos_sent r1 (_current_waypoint_index self) (_current_waypoint_index self)
                   = 1).
      { unfold gotos_sent. rewrite Nat.sub_diag.
        destruct r1 as [[[] | e] | ]; try reflexivity. exfalso. apply NR. reflexivity. }
      rewrite GS. cbn [firstn map].
      repeat split; try lia. intro H. contradiction. }
    destruct r1 as [[[] | e] | ].
    + intro E.
      set (self2 := set_current_waypoint_index (S (_current_waypoint_index self1)) self1) in E.
      assert (I2 : _current_waypoint_index self2 = S (_current_waypoint_index self))
        by (unfold self2; cbn; rewrite I1; reflexivity).
      destruct (IH self2 self' r) as (Bd & G & C & St); try (rewrite I2; lia); [exact E | ].
      rewrite I2 in Bd, C.
      split; [lia | ]. split; [rewrite G; exact G1 | ]. split; [ | exact St].
      rewrite C. unfold self2. cbn [_bridge set_current_waypoint_index]. rewrite C1, K.
      rewrite <- app_assoc. cbn [app].
      replace (gotos_sent r (_current_waypoint_index self) (_current_waypoint_index self'))
        with (S (gotos_sent r (S (_current_waypoint_index self))
                   (_current_waypoint_index self'))).
      { reflexivity. }
      unfold gotos_sent. destruct r as [[[] | e] | ]; lia.
    + intro E. apply Stop; [exact E | ]. inversion E. discriminate.
    + intro E. apply Stop; [exact E | ]. inversion E. discriminate.
  - intro E; inversion E; subst. cbn [gotos_sent _current_waypoint_index set_state].
    rewrite Nat.sub_diag. cbn [firstn map]. rewrite app_nil_r.
    cbn [_bridge _current_segment _state].
    repeat split; try lia. intros _. right; right. split; [reflexivity | lia].
Qed.

(** X1.  Whatever the bridge reports, [execute] sends its [goto] calls to
    the waypoints in flight order from the current index, none skipped and
    none repeated; the index never goes back and never passes the number of
    waypoints; and when [execute] returns normally the executor is paused,
    aborted, or completed with every waypoint passed. *)
Theorem execute_gotos_in_flight_order (segment : MissionSegment) (self : MissionExecutor) :
  _state self = EXECUTING ->
  _current_segment self = Some segment ->
  _current_waypoint_index self <= List.length (waypoints segment) ->
  _current_waypoint_index self <= _current_waypoint_index (fst (execute self))
    <= List.length (waypoints segment) /\
  goto_calls (_bridge (fst (execute self)))
  = goto_calls (_bridge self)
    ++ map target
         (firstn (gotos_sent (snd (execute self)) (_current_waypoint_index self)
                    (_current_waypoint_index (fst (execute self))))
            (skipn (_current_waypoint_index self) (waypoints segment))) /\
  (snd (execute self) = Some (Returned tt) ->
   _state (fst (execute self)) = PAUSED \/ _state (fst (execute self)) = ABORTED \/
   (_state (fst (execute self)) = COMPLETED /\
    _current_waypoint_index (fst (execute self)) = List.length (waypoints segment))).
Proof.
  intros St G B. unfold execute, _require_segment. rewrite St, G.
  cbn [ExecutorState_eqb negb].
  destruct (execute_loop
              (S (List.length (waypoints segment) - _current_waypoint_index self))
              segment self) as [self' r] eqn:E.
  apply execute_loop_gotos in E; [ | lia | exact B].
  cbn [fst snd]. destruct E as (Bd & _ & C & F). auto.
Qed.

Lemma execute_gotos_in_flight_order_interrupted :
  _current_waypoint_index
    (fst (execute (loaded [test_waypoint 0; test_waypoint 1] [timeout_while RequestPause])))
  <= 2.
Proof.
  destruct (execute_gotos_in_flight_order
              (test_segment [test_waypoint 0; test_waypoint 1])
              (loaded [test_waypoint 0; test_waypoint 1] [timeout_while RequestPause]))
    as ((_ & U) & _).
  - reflexivity.
  - reflexivity.
  - cbn. lia.
  - exact U.
Defined.

(** A poll during which nothing is asked of the executor and whose position
    is within the arrival threshold of the waypoint. *)
Definition arrives (waypoint : Waypoint) (threshold : R) (p : poll) : Prop :=
  meanwhile p = None /\
  exists telemetry,
    reply p = Returned telemetry /\ _has_arrived waypoint telemetry threshold = true.

Lemma navigate_arrives (waypoint : Waypoint) (p : poll) (script : list poll)
    (self : MissionExecutor) :
  _state self = EXECUTING ->
  telemetry_script (_bridge self) = p :: script ->
  arrives waypoint (_arrival_threshold_meters self) p ->
  _navigate_to_waypoint waypoint self
  = (bridge_set_script script (bridge_goto (target waypoint) self), Some (Returned tt)).
Proof.
  intros St T (M & telemetry & Rp & A).
  unfold _navigate_to_waypoint. cbv zeta. fold (target waypoint).
  set (self0 := bridge_goto (target waypoint) self).
  assert (S0 : _state self0 = EXECUTING) by exact St.
  assert (T0 : telemetry_script (_bridge self0) = p :: script) by exact T.
  rewrite T0. cbn [poll_until_arrival]. rewrite S0. cbn [ExecutorState_eqb orb].
  rewrite M, Rp. cbn [serve].
  change (_arrival_threshold_meters (bridge_set_script script self0))
    with (_arrival_threshold_meters self).
  rewrite A. reflexivity.
Qed.

Lemma execute_loop_all_arrive (segment : MissionSegment) (script : list poll) :
  forall (remaining : list Waypoint) (polls : list poll) (fuel : nat) (self : MissionExecutor),
    _state self = EXECUTING ->
    skipn (_current_waypoint_index self) (waypoints segment) = remaining ->
    _current_waypoint_index self <= List.length (waypoints segment) ->
    Forall2 (fun w p => arrives w (_arrival_threshold_meters self) p) remaining polls ->
    telemetry_script (_bridge self) = polls ++ script ->
    List.length remaining < fuel ->
    exists self',
      execute_loop fuel segment self = (self', Some (Returned tt)) /\
      _state self' = COMPLETED /\
      _current_waypoint_index self' = List.length (waypoints segment) /\
      goto_calls (_bridge self') = goto_calls (_bridge self) ++ map target remaining /\
      set_mode_calls (_bridge self') = set_mode_calls (_bridge self) /\
      telemetry_script (_bridge self') = script.
Proof.
  induction remaining as [ | w remaining IH]; intros polls fuel self St K B A T F.
  - inversion A; subst polls. destruct fuel as [ | fuel]; [cbn in F; lia | ].
    cbn [execute_loop].
    assert (Ge : List.length (waypoints segment) <= _current_waypoint_index self).
    { destruct (Nat.le_gt_cases (List.length (waypoints segment))
                  (_current_waypoint_index self)) as [L | L]; [exact L | ].
      assert (N : skipn (_current_waypoint_index self) (waypoints segment) <> []).
      { intro Z. apply (f_equal (@List.length _)) in Z. rewrite length_skipn in Z.
        cbn in Z. lia. }
      contradiction. }
    destruct (Nat.ltb_spec (_current_waypoint_index self) (List.length (waypoints segment)));
      [lia | ].
    eexists. split; [reflexivity | ]. cbn. rewrite app_nil_r.
    repeat split; try lia. exact T.
  - inversion A as [ | w0 p ws ps Ap Ar]; subst.
    destruct fuel as [ | fuel]; [cbn in F; lia | ].
    assert (W : nth_error (waypoints segment) (_current_waypoint_index self) = Some w).
    { rewrite <- (Nat.add_0_r (_current_waypoint_index self)).
      rewrite <- nth_error_skipn, K. reflexivity. }
    assert (Lt : _current_waypoint_index self < List.length (waypoints segment)).
    { apply nth_error_Some. rewrite W. discriminate. }
    cbn [execute_loop].
    destruct (Nat.ltb_spec (_current_waypoint_index self) (List.length (waypoints segment)));
      [ | lia].
    rewrite St. cbn [ExecutorState_eqb]. rewrite W.
    rewrite (navigate_arrives w p (ps ++ script) self St T Ap).
    set (self2 := set_current_waypoint_index
                    (S (_current_waypoint_index
                          (bridge_set_script (ps ++ script) (bridge_goto (target w) self))))
                    (bridge_set_script (ps ++ script) (bridge_goto (target w) self))).
    destruct (IH ps fuel self2) as (self' & E & S' & I' & G' & M' & T').
    + exact St.
    + unfold self2. cbn [_current_waypoint_index set_current_waypoint_index
                           bridge_set_script bridge_goto set_bridge].
      pose proof (skipn_nth_error _ _ _ W) as Q. rewrite K in Q. inversion Q. reflexivity.
    + unfold self2. cbn. lia.
    + exact Ar.
    + reflexivity.
    + cbn in F. lia.
    + exists self'. split; [exact E | ]. split; [exact S' | ]. split; [exact I' | ].
      split; [ | split; [exact M' | exact T']].
      rewrite G'. unfold self2. cbn. rewrite <- app_assoc. reflexivity.
Qed.

(** X2.  When every remaining waypoint is reported reached by the first poll
    after its [goto], and nobody interferes, [execute] returns with the
    executor [COMPLETED], the index at the number of waypoints, one [goto]
    sent per remaining waypoint in order, no mode change, and exactly one
    poll consumed per waypoint. *)
Theorem execute_completes_when_waypoints_reached (segment : MissionSegment)
    (polls script : list poll) (self : MissionExecutor) :
  _state self = EXECUTING ->
  _current_segment self = Some segment ->
  _current_waypoint_index self <= List.length (waypoints segment) ->
  Forall2 (fun w p => arrives w (_arrival_threshold_meters self) p)
    (skipn (_current_waypoint_index self) (waypoints segment)) polls ->
  telemetry_script (_bridge self) = polls ++ script ->
  snd (execute self) = Some (Returned tt) /\
  _state (fst (execute self)) = COMPLETED /\
  _current_waypoint_index (fst (execute self)) = List.length (waypoints segment) /\
  goto_calls (_bridge (fst (execute self)))
  = goto_calls (_bridge self)
    ++ map target (skipn (_current_waypoint_index self) (waypoints segment)) /\
  set_mode_calls (_bridge (fst (execute self))) = set_mode_calls (_bridge self) /\
  telemetry_script (_bridge (fst (execute self))) = script.
Proof.
  intros St G B A T. unfold execute, _require_segment. rewrite St, G.
  cbn [ExecutorState_eqb negb].
  assert (F : List.length (skipn (_current_waypoint_index self) (waypoints segment))
              < S (List.length (waypoints segment) - _current_waypoint_index self)).
  { rewrite length_skipn. lia. }
  destruct (execute_loop_all_arrive segment script _ polls
              (S (List.length (waypoints segment) - _current_waypoint_index self))
              self St eq_refl B A T F) as (self' & E & S' & I' & G' & M' & T').
  rewrite E. cbn [fst snd].
  exact (conj eq_refl (conj S' (conj I' (conj G' (conj M' T'))))).
Qed.

Lemma arrives_reading_at (waypoint : Waypoint) :
  arrives waypoint _DEFAULT_ARRIVAL_THRESHOLD_METERS (reading_at waypoint None).
Proof.
  split; [reflexivity | ]. eexists. split; [reflexivity | ].
  apply has_arrived_at_waypoint.
Qed.

Lemma execute_completes_when_waypoints_reached_two :
  _state
    (fst (execute (loaded [test_waypoint 0; test_waypoint 1]
                     [reading_at (test_waypoint 0) None; reading_at (test_waypoint 1) None])))
  = COMPLETED.
Proof.
  destruct (execute_completes_when_waypoints_reached
              (test_segment [test_waypoint 0; test_waypoint 1])
              [reading_at (test_waypoint 0) None; reading_at (test_waypoint 1) None] []
              (loaded [test_waypoint 0; test_waypoint 1]
                 [reading_at (test_waypoint 0) None; reading_at (test_waypoint 1) None]))
    as (_ & C & _).
  - reflexivity.
  - reflexivity.
  - cbn. lia.
  - repeat constructor; apply arrives_reading_at.
  - reflexivity.
  - exact C.
Defined.

(** A [get_telemetry] call that fails with one of the two exceptions the
    polling loop catches, nothing being asked of the executor meanwhile. *)
Definition failed_read (p : poll) : Prop :=
  meanwhile p = None /\
  (reply p = Raised ConnectionError \/ reply p = Raised TimeoutError).

Lemma poll_until_arrival_failed_reads (waypoint : Waypoint) (script : list poll) :
  forall (failures : list poll) (self : MissionExecutor),
    Forall failed_read failures ->
    _state self <> PAUSED -> _state self <> ABORTED ->
    telemetry_script (_bridge self) = failures ++ script ->
    poll_until_arrival waypoint (failures ++ script) self
    = poll_until_arrival waypoint script (bridge_set_script script self).
Proof.
  induction failures as [ | p failures IH]; intros self F NP NA T.
  - cbn [app] in *. f_equal.
    destruct self as [[g m t] st seg i thr]. cbn in T. subst t. reflexivity.
  - inversion F as [ | p0 fs (M & Rp) F']; subst.
    cbn [app poll_until_arrival].
    assert (G : ExecutorState_eqb (_state self) PAUSED
                || ExecutorState_eqb (_state self) ABORTED = false).
    { destruct (_state self); try reflexivity; congruence. }
    rewrite G, M. cbn [serve].
    assert (Step : poll_until_arrival waypoint (failures ++ script)
                     (bridge_set_script (failures ++ script) self)
                   = poll_until_arrival waypoint script (bridge_set_script script self)).
    { rewrite (IH (bridge_set_script (failures ++ script) self) F' NP NA eq_refl).
      reflexivity. }
    destruct Rp as [Rp | Rp]; rewrite Rp; exact Step.
Qed.

(** X3.  Telemetry reads that fail with [ConnectionError] or [TimeoutError]
    during navigation are retried and change nothing: navigating with any
    number of failed reads ahead of the script gives what navigating with
    the rest of the script gives. *)
Theorem navigate_retries_failed_reads (waypoint : Waypoint) (failures script : list poll)
    (self : MissionExecutor) :
  Forall failed_read failures ->
  _state self <> PAUSED -> _state self <> ABORTED ->
  telemetry_script (_bridge self) = failures ++ script ->
  _navigate_to_waypoint waypoint self
  = _navigate_to_waypoint waypoint (bridge_set_script script self).
Proof.
  intros F NP NA T. unfold _navigate_to_waypoint. cbv zeta.
  cbn [bridge_goto set_bridge _bridge telemetry_script bridge_set_script].
  rewrite T.
  rewrite (poll_until_arrival_failed_reads waypoint script failures
             (bridge_goto (latitude waypoint, longitude waypoint, altitude waypoint) self)
             F NP NA T).
  reflexivity.
Qed.

Lemma navigate_retries_failed_reads_twice :
  _navigate_to_waypoint (test_waypoint 0)
    (loaded [test_waypoint 0]
       [{| reply := Raised TimeoutError; meanwhile := None |};
        {| reply := Raised ConnectionError; meanwhile := None |};
        reading_at (test_waypoint 0) None])
  = _navigate_to_waypoint (test_waypoint 0)
      (bridge_set_script [reading_at (test_waypoint 0) None]
         (loaded [test_waypoint 0]
            [{| reply := Raised TimeoutError; meanwhile := None |};
             {| reply := Raised ConnectionError; meanwhile := None |};
             reading_at (test_waypoint 0) None])).
Proof.
  apply (navigate_retries_failed_reads (test_waypoint 0)
           [{| reply := Raised TimeoutError; meanwhile := None |};
            {| reply := Raised ConnectionError; meanwhile := None |}]).
  - constructor; [split; [reflexivity | right; reflexivity] | ].
    constructor; [split; [reflexivity | left; reflexivity] | constructor].
  - discriminate.
  - discriminate.
  - reflexivity.
Defined.

End ExecutorNavigation.

(** ** Mission executor: pause, resume, abort and progress *)

Section ExecutorControl.
Import Executor.

(** X4.  [pause] is accepted only while executing and [resume] only while
    paused; refused, they raise and leave the executor as it was.  With a
    bridge that accepts the mode change (the bridge of this model records
    the call and returns), pausing and then resuming brings the executor
    back to executing the same segment at the same waypoint index, with one
    [LOITER] mode command sent. *)
Theorem pause_resume_round_trip (self : MissionExecutor) :
  (_state self <> EXECUTING -> pause self = (self, Raised RuntimeError)) /\
  (_state self <> PAUSED -> resume self = (self, Raised RuntimeError)) /\
  (_state self = EXECUTING ->
   snd (pause self) = Returned tt /\
   _state (fst (pause self)) = PAUSED /\
   snd (resume (fst (pause self))) = Returned tt /\
   _state (fst (resume (fst (pause self)))) = EXECUTING /\
   _current_segment (fst (resume (fst (pause self)))) = _current_segment self /\
   _current_waypoint_index (fst (resume (fst (pause self))))
   = _current_waypoint_index self /\
   goto_calls (_bridge (fst (resume (fst (pause self))))) = goto_calls (_bridge self) /\
   set_mode_calls (_bridge (fst (resume (fst (pause self)))))
   = set_mode_calls (_bridge self) ++ ["LOITER"%string]).
Proof.
  unfold pause, resume. repeat split;
    destruct (_state self) eqn:St; cbn; try rewrite St; try reflexivity;
    try congruence; intros; try congruence; try discriminate.
Qed.

Lemma pause_resume_round_trip_loaded :
  _current_waypoint_index
    (fst (resume (fst (pause (loaded [test_waypoint 0; test_waypoint 1] [])))))
  = 0.
Proof.
  destruct (pause_resume_round_trip (loaded [test_waypoint 0; test_waypoint 1] []))
    as (_ & _ & R).
  destruct (R eq_refl) as (_ & _ & _ & _ & _ & I & _).
  exact I.
Defined.



End ExecutorControl.

(** ** Haversine distance: meridians *)

Section HaversineRange.
Import Executor.
Local Open Scope R_scope.

(** X7.  Between two points of the same longitude whose latitudes differ by
    at most 180 degrees, the distance is the arc of the meridian: the
    latitude difference in radians times 6,371,000 m. *)
Theorem haversine_distance_along_meridian (latitude_1 latitude_2 longitude_1 : R) :
  Rabs (latitude_2 - latitude_1) <= 180 ->
  _haversine_distance latitude_1 longitude_1 latitude_2 longitude_1
  = 6371000 * (Rabs (latitude_2 - latitude_1) * (PI / 180)).
Proof.
  intro B. pose proof PI_RGT_0 as P.
  unfold _haversine_distance. cbv zeta.
  replace ((longitude_1 - longitude_1) * _DEGREES_TO_RADIANS / 2) with 0
    by (unfold Rdiv; ring).
  rewrite sin_0.
  set (d := (latitude_2 - latitude_1) * _DEGREES_TO_RADIANS / 2).
  replace (sin d ^ 2
           + cos (latitude_1 * _DEGREES_TO_RADIANS)
             * cos (latitude_2 * _DEGREES_TO_RADIANS) * 0 ^ 2)
    with (sin d ^ 2) by ring.
  assert (A : Rabs d = Rabs (latitude_2 - latitude_1) * (PI / 180) / 2).
  { unfold d, _DEGREES_TO_RADIANS.
    replace ((latitude_2 - latitude_1) * (PI / 180) / 2)
      with ((latitude_2 - latitude_1) * (PI / 360)) by (unfold Rdiv; field).
    rewrite Rabs_mult, (Rabs_right (PI / 360)) by Lra.lra.
    unfold Rdiv. field. }
  assert (R : - (PI / 2) <= d <= PI / 2).
  { assert (Q : Rabs d <= PI / 2).
    { rewrite A. pose proof (Rabs_pos (latitude_2 - latitude_1)) as N.
      assert (M : Rabs (latitude_2 - latitude_1) * (PI / 180) <= 180 * (PI / 180)).
      { apply Rmult_le_compat_r; [Lra.lra | exact B]. }
      Lra.lra. }
    unfold Rabs in Q. destruct (Rcase_abs d); Lra.lra. }
  destruct (sqrt_sin_cos_abs d R) as [S C]. rewrite S, C.
  rewrite atan2_sin_cos.
  - rewrite A. unfold _EARTH_RADIUS_METERS. field.
  - split; [apply Rabs_pos | ]. apply Rabs_le. exact R.
Qed.

Lemma haversine_distance_equator_to_pole :
  _haversine_distance 0 0 90 0 = 6371000 * (PI / 2).
Proof.
  rewrite (haversine_distance_along_meridian 0 90 0).
  - replace (90 - 0) with 90 by ring.
    rewrite (Rabs_right 90) by Lra.lra. field.
  - replace (90 - 0) with 90 by ring.
    rewrite (Rabs_right 90) by Lra.lra. Lra.lra.
Defined.

End HaversineRange.

(** ** Mission executor: progress report *)

Section ExecutorProgress.
Import Executor.
Local Open Scope R_scope.

(** The report for a segment with [total] waypoints of which [index] have
    been passed, [distance] metres from the next one: 30 s per waypoint
    left. *)
Definition report (segment : MissionSegment) (index : nat) (distance : R)
  : WaypointProgress := {|
  progress_segment_id := segment_id segment;
  current_waypoint_index := index;
  total_waypoints := List.length (waypoints segment);
  distance_to_next_meters := distance;
  estimated_time_remaining_seconds :=
    INR (List.length (waypoints segment) - index) * 30
|}.

Lemma progress_report_accepted (segment : MissionSegment) (distance : R)
    (self : MissionExecutor) :
  waypoints segment <> [] ->
  (_current_waypoint_index self <= List.length (waypoints segment))%nat ->
  0 <= distance ->
  progress_report segment distance self
  = Returned (report segment (_current_waypoint_index self) distance).
Proof.
  intros W B D. unfold progress_report, make_progress, report. cbv zeta.
  cbn [total_waypoints distance_to_next_meters estimated_time_remaining_seconds].
  assert (E : IZR (Z.of_nat (List.length (waypoints segment))
                   - Z.of_nat (_current_waypoint_index self))
              = INR (List.length (waypoints segment) - _current_waypoint_index self)).
  { rewrite <- Nat2Z.inj_sub by exact B. rewrite <- INR_IZR_INZ. reflexivity. }
  rewrite E.
  destruct (Nat.leb_spec 1 (List.length (waypoints segment))) as [_ | L].
  2:{ destruct (waypoints segment); [congruence | cbn in L; lia]. }
  destruct (Rle_dec 0 distance) as [_ | N]; [ | contradiction].
  pose proof (pos_INR (List.length (waypoints segment) - _current_waypoint_index self)) as P.
  destruct (Rle_dec 0 (INR (List.length (waypoints segment) - _current_waypoint_index self)
                       * 30)) as [_ | N]; [reflexivity | ].
  exfalso. apply N. Lra.lra.
Qed.

(** X8.  [get_progress] raises [RuntimeError] when no segment is loaded.
    With a segment loaded, once every waypoint is passed (the bridge is then
    not asked) and when the telemetry read fails with [ConnectionError] or
    [TimeoutError], it reports the index, the number of waypoints, 30 s per
    waypoint left and the distance 0. *)
Theorem get_progress_report (self : MissionExecutor) :
  (_current_segment self = None ->
   get_progress self = (self, Some (Raised RuntimeError))) /\
  (forall segment : MissionSegment,
     _current_segment self = Some segment ->
     waypoints segment <> [] ->
     (_current_waypoint_index self <= List.length (waypoints segment))%nat ->
     (_current_waypoint_index self = List.length (waypoints segment) ->
      get_progress self
      = (self, Some (Returned (report segment (_current_waypoint_index self) 0)))) /\
     (forall (p : poll) (script : list poll) (next : Waypoint),
        nth_error (waypoints segment) (_current_waypoint_index self) = Some next ->
        telemetry_script (_bridge self) = p :: script ->
        reply p = Raised ConnectionError \/ reply p = Raised TimeoutError ->
        snd (get_progress self)
        = Some (Returned (report segment (_current_waypoint_index self) 0)))).
Proof.
  split.
  - intro N. unfold get_progress, _require_segment. rewrite N. reflexivity.
  - intros segment G W B. unfold get_progress, _require_segment. rewrite G. split.
    + intro E.
      destruct (Nat.ltb_spec (_current_waypoint_index self) (List.length (waypoints segment)));
        [lia | ].
      rewrite (progress_report_accepted segment 0 self W B (Rle_refl 0)). reflexivity.
    + intros p script next Nx T.
      assert (Lt : (_current_waypoint_index self < List.length (waypoints segment))%nat).
      { apply nth_error_Some. rewrite Nx. discriminate. }
      destruct (Nat.ltb_spec (_current_waypoint_index self) (List.length (waypoints segment)));
        [ | lia].
      rewrite T. cbv zeta.
      destruct (serve_keeps (meanwhile p) (bridge_set_script script self)) as (I & _).
      set (self1 := serve (meanwhile p) (bridge_set_script script self)) in *.
      assert (I1 : _current_waypoint_index self1 = _current_waypoint_index self) by exact I.
      assert (B1 : (_current_waypoint_index self1 <= List.length (waypoints segment))%nat)
        by (rewrite I1; exact B).
      intros [F | F]; rewrite F; cbn [snd];
        rewrite (progress_report_accepted segment 0 self1 W B1 (Rle_refl 0)), I1;
        reflexivity.
Qed.

Lemma get_progress_report_before_loading :
  get_progress (__init__ (fresh_bridge []))
  = (__init__ (fresh_bridge []), Some (Raised RuntimeError)).
Proof.
  destruct (get_progress_report (__init__ (fresh_bridge []))) as (N & _).
  apply N. reflexivity.
Defined.

End ExecutorProgress.

(** ** Fail-safe manager: thresholds, predicates and reconnection *)

Section FailSafeStates.
Import FailSafe.
Local Open Scope float_scope.

Lemma reaches_thresholds (settings : Config.EdgeSettings) (t : float)
    (self : FailSafeManager) :
  reaches settings t self ->
  _degraded_threshold_seconds self = Config.degraded_threshold_seconds settings /\
  _holding_threshold_seconds self = Config.holding_threshold_seconds settings /\
  _return_threshold_seconds self = Config.return_threshold_seconds settings.
Proof.
  induction 1 as [t | t self c now R IH L].
  - cbn. auto.
  - destruct IH as (D & H & K). destruct c; cbn [update_connectivity].
    + cbn. auto.
    + destruct (handle_disconnected_thresholds now self) as (D' & H' & K').
      rewrite D', H', K'. auto.
Qed.

(** X9.  Whatever the history of a manager, one observation of a live link
    (or a [reset]) makes it the manager [__init__] builds: connected, no
    timer, thresholds as configured.  The next outage is timed from its own
    start. *)
Theorem reconnection_restores_fresh_manager (settings : Config.EdgeSettings)
    (t : float) (self : FailSafeManager) :
  reaches settings t self ->
  (forall now : float, update_connectivity true now self = __init__ settings) /\
  reset self = __init__ settings /\
  (forall now later : float,
     update_connectivity false later (update_connectivity true now self)
     = update_connectivity false later (__init__ settings)).
Proof.
  intro R. destruct (reaches_thresholds settings t self R) as (D & H & K).
  assert (E : forall now : float, update_connectivity true now self = __init__ settings).
  { intro now. cbn [update_connectivity]. unfold __init__.
    rewrite <- D, <- H, <- K. reflexivity. }
  split; [exact E | split].
  - unfold __init__. rewrite <- D, <- H, <- K. reflexivity.
  - intros now later. rewrite E. reflexivity.
Qed.

Lemma reconnection_restores_fresh_manager_after_outage :
  update_connectivity true 300
    (update_connectivity false 200 (update_connectivity false 0 (__init__ Config.defaults)))
  = __init__ Config.defaults.
Proof.
  assert (R : reaches Config.defaults 200
                (update_connectivity false 200
                   (update_connectivity false 0 (__init__ Config.defaults)))).
  { apply reaches_call with (t := 0); [ | reflexivity].
    apply reaches_call with (t := 0); [apply reaches_init | reflexivity]. }
  destruct (reconnection_restores_fresh_manager Config.defaults 200 _ R) as (E & _).
  apply E.
Defined.

(** The state a disconnected update leaves, whatever the manager. *)
Lemma handle_disconnected_state_cases (now : float) (self : FailSafeManager) :
  _state (_handle_disconnected now self)
  = if reached (now - timer_start now self) (_return_threshold_seconds self) then RETURNING
    else if reached (now - timer_start now self) (_holding_threshold_seconds self)
         then HOLDING
    else if reached (now - timer_start now self) (_degraded_threshold_seconds self)
         then DEGRADED
    else _state self.
Proof.
  unfold _handle_disconnected, timer_start.
  destruct (_disconnected_since self) eqn:E; cbv zeta;
    cbn [_disconnected_since set_disconnected_since _degraded_threshold_seconds
         _holding_threshold_seconds _return_threshold_seconds];
    rewrite ?E;
    repeat match goal with |- context [if ?b then _ else _] => destruct b end;
    reflexivity.
Qed.

(** The state a disconnected update leaves, read off the elapsed time. *)
Lemma disconnected_state_cases (settings : Config.EdgeSettings) (t now : float)
    (self : FailSafeManager) :
  reaches settings t self ->
  (t <=? now) = true ->
  match _state (update_connectivity false now self) with
  | RETURNING =>
      reached (now - timer_start now self) (Config.return_threshold_seconds settings) = true
  | HOLDING =>
      reached (now - timer_start now self) (Config.holding_threshold_seconds settings) = true /\
      reached (now - timer_start now self) (Config.return_threshold_seconds settings) = false
  | DEGRADED =>
      reached (now - timer_start now self) (Config.degraded_threshold_seconds settings) = true /\
      reached (now - timer_start now self) (Config.holding_threshold_seconds settings) = false /\
      reached (now - timer_start now self) (Config.return_threshold_seconds settings) = false
  | CONNECTED =>
      reached (now - timer_start now self) (Config.degraded_threshold_seconds settings) = false /\
      reached (now - timer_start now self) (Config.holding_threshold_seconds settings) = false /\
      reached (now - timer_start now self) (Config.return_threshold_seconds settings) = false
  end.
Proof.
  intros R L.
  destruct (reaches_thresholds settings t self R) as (D & H & K).
  pose proof (crossed_at_timer_start t now self (reaches_consistent settings t self R) L)
    as C.
  cbn [update_connectivity]. rewrite handle_disconnected_state_cases.
  rewrite D, H, K. unfold crossed in C. rewrite D, H, K in C.
  set (e := now - timer_start now self) in *.
  destruct (reached e (Config.return_threshold_seconds settings)); [reflexivity | ].
  destruct (reached e (Config.holding_threshold_seconds settings)); [auto | ].
  destruct (reached e (Config.degraded_threshold_seconds settings)); [auto | ].
  destruct (_state self); auto; discriminate C.
Qed.

(** X10.  After a disconnected update, [should_return] holds exactly when
    the elapsed disconnection time (the binary64 difference of the reading
    and the timer, as the call computes it) has reached the return
    threshold, and [should_hold] exactly when it has reached the holding
    threshold but not the return threshold, whatever the order of the
    thresholds. *)
Theorem should_hold_should_return_by_elapsed_time (settings : Config.EdgeSettings)
    (t now : float) (self : FailSafeManager) :
  reaches settings t self ->
  (t <=? now) = true ->
  (should_return (update_connectivity false now self) = true <->
   reached (now - timer_start now self) (Config.return_threshold_seconds settings) = true) /\
  (should_hold (update_connectivity false now self) = true <->
   reached (now - timer_start now self) (Config.holding_threshold_seconds settings) = true /\
   reached (now - timer_start now self) (Config.return_threshold_seconds settings) = false).
Proof.
  intros R L. pose proof (disconnected_state_cases settings t now self R L) as C.
  unfold should_return, should_hold.
  destruct (_state (update_connectivity false now self)); cbn [FailSafeState_eqb];
    repeat split; intros; try discriminate; try tauto;
    repeat match goal with H : _ /\ _ |- _ => destruct H end; congruence.
Qed.

Lemma should_hold_should_return_by_elapsed_time_rounded :
  should_hold
    (update_connectivity false 30.1 (update_connectivity false 0.1 (__init__ Config.defaults)))
  = true.
Proof.
  assert (R : reaches Config.defaults 0.1
                (update_connectivity false 0.1 (__init__ Config.defaults))).
  { apply reaches_call with (t := 0.1); [apply reaches_init | reflexivity]. }
  destruct (should_hold_should_return_by_elapsed_time Config.defaults 0.1 30.1 _ R
              eq_refl) as (_ & H).
  apply H. split; reflexivity.
Defined.

(** X11.  When the holding threshold is not above the degraded threshold,
    which validation accepts, no sequence of updates ever leaves the manager
    [DEGRADED]: the escalation goes from [CONNECTED] straight to [HOLDING]
    or [RETURNING]. *)
Theorem degraded_unreachable_when_holding_not_above (settings : Config.EdgeSettings)
    (t : float) (self : FailSafeManager) :
  (Config.holding_threshold_seconds settings
   <= Config.degraded_threshold_seconds settings)%Z ->
  reaches settings t self ->
  _state self <> DEGRADED.
Proof.
  intros O R. induction R as [t | t self c now R IH L].
  - discriminate.
  - destruct c; cbn [update_connectivity].
    + discriminate.
    + destruct (reaches_thresholds settings t self R) as (D & H & _).
      rewrite handle_disconnected_state_cases, D, H.
      destruct (reached _ (_return_threshold_seconds self)); [discriminate | ].
      destruct (reached _ (Config.holding_threshold_seconds settings)) eqn:NH;
        [discriminate | ].
      destruct (reached _ (Config.degraded_threshold_seconds settings)) eqn:Dg;
        [ | exact IH].
      rewrite (reached_threshold_mono _ _ _ O Dg) in NH. discriminate NH.
Qed.

Lemma degraded_unreachable_when_holding_not_above_at_45s :
  _state
    (update_connectivity false 45 (update_connectivity false 0 (__init__ settings_degraded_60)))
  <> DEGRADED.
Proof.
  apply (degraded_unreachable_when_holding_not_above settings_degraded_60 45).
  - cbn. lia.
  - apply reaches_call with (t := 0); [ | reflexivity].
    apply reaches_call with (t := 0); [apply reaches_init | reflexivity].
Defined.

End FailSafeStates.

(** ** Store-and-forward channel: what is kept *)

Section ConnectorDelivery.
Import Connector.

(** X13.  Whatever operations (publishes, connect and disconnect callbacks,
    [disconnect]) are applied to a fresh connector, nothing is handed to the
    client, and the buffer holds the newest 1000 of the messages offered, in
    the order offered: none is invented, duplicated or reordered, and none
    is lost as long as no more than 1000 have been offered. *)
Theorem channel_keeps_message_order (ops : list operation) :
  published (run ops __init__) = [] /\
  _message_buffer (run ops __init__)
  = skipn (List.length (offered ops) - 1000) (offered ops) /\
  (List.length (offered ops) <= 1000 ->
   _message_buffer (run ops __init__) = offered ops).
Proof.
  rewrite (run_disconnected ops __init__ eq_refl (Nat.le_0_l _)).
  destruct (publish_all_disconnected (offered ops) __init__ eq_refl (Nat.le_0_l _))
    as (_ & P & B).
  cbn [__init__ _message_buffer app] in B.
  change _MAX_BUFFER_SIZE with 1000 in B.
  split; [exact P | split; [exact B | ]].
  intro L. rewrite B.
  replace (List.length (offered ops) - 1000) with 0 by lia. reflexivity.
Qed.

Lemma channel_keeps_message_order_across_callbacks :
  _message_buffer
    (run [PublishTelemetry "t" "p1"; OnDisconnect; PublishTelemetry "t" "p2";
          OnConnect 0%Z; PublishTelemetry "t" "p3"] __init__)
  = [("t", "p1"); ("t", "p2"); ("t", "p3")]%string.
Proof.
  destruct (channel_keeps_message_order
              [PublishTelemetry "t" "p1"; OnDisconnect; PublishTelemetry "t" "p2";
               OnConnect 0%Z; PublishTelemetry "t" "p3"]) as (_ & _ & K).
  apply K. cbn. lia.
Defined.

End ConnectorDelivery.

(** ** MAVLink bridge: connection, dispatch and telemetry *)

Section BridgeOperations.
Import MavlinkModels Bridge.
Local Open Scope R_scope.

(** The bridge holds the connection [c] and is not disconnected. *)
Definition connected_to (c : mavfile) (self : MavlinkBridge) : Prop :=
  _connection self = Some c /\ _state self <> DISCONNECTED.

Lemma require_connection_connected (c : mavfile) (self : MavlinkBridge) :
  connected_to c self -> _require_connection self = (self, Returned tt).
Proof.
  intros [C S]. unfold _require_connection. rewrite C.
  destruct (_state self); try reflexivity. congruence.
Qed.

Lemma require_connection_cases (self : MavlinkBridge) :
  _require_connection self = (self, Returned tt) \/
  _require_connection self = (self, Raised ConnectionError).
Proof.
  unfold _require_connection. destruct (_connection self); [ | auto].
  destruct (AutopilotState_eqb (_state self) DISCONNECTED); auto.
Qed.

(** Checking the connection twice is checking it once. *)
Lemma require_connection_twice {A : Type} (k : unit -> method A) (self : MavlinkBridge) :
  bind _require_connection (fun _ => bind _require_connection k) self
  = bind _require_connection k self.
Proof.
  unfold bind. destruct (require_connection_cases self) as [E | E]; rewrite E; [ | reflexivity].
  rewrite E. reflexivity.
Qed.

(** The connection with [sent] appended to what has gone out. *)
Definition with_sent (sent : list Bridge.sent) (c : mavfile) : mavfile := {|
  target_system := target_system c;
  target_component := target_component c;
  mode_mapping := mode_mapping c;
  outbox := outbox c ++ sent;
  position_replies := position_replies c;
  status_replies := status_replies c;
  gps_replies := gps_replies c
|}.

(** X15.  [connect] never leaves the bridge [CONNECTING]: when opening the
    link or waiting for the heartbeat raises, it raises [ConnectionError]
    and the bridge is [DISCONNECTED]; otherwise it returns with the bridge
    [CONNECTED] to the new connection, to which exactly the position and
    extended-status data streams have been requested at 4 Hz.  [disconnect]
    always returns with the bridge [DISCONNECTED] and without connection. *)
Theorem connect_disconnect_outcomes (self : MavlinkBridge) :
  (forall (e : exn) (heartbeat : outcome unit),
     snd (connect (Raised e) heartbeat self) = Raised ConnectionError /\
     _state (fst (connect (Raised e) heartbeat self)) = DISCONNECTED /\
     _connection (fst (connect (Raised e) heartbeat self)) = _connection self) /\
  (forall (c : mavfile) (e : exn),
     snd (connect (Returned c) (Raised e) self) = Raised ConnectionError /\
     _state (fst (connect (Returned c) (Raised e) self)) = DISCONNECTED /\
     _connection (fst (connect (Returned c) (Raised e) self)) = Some c) /\
  (forall c : mavfile,
     connect (Returned c) (Returned tt) self
     = ({| _connection :=
             Some (with_sent
                     [request_data_stream_send (target_system c) (target_component c)
                        MAV_DATA_STREAM_POSITION 4 1;
                      request_data_stream_send (target_system c) (target_component c)
                        MAV_DATA_STREAM_EXTENDED_STATUS 4 1] c);
           _state := CONNECTED |},
        Returned tt)) /\
  disconnect self = ({| _connection := None; _state := DISCONNECTED |}, Returned tt).
Proof.
  split; [ | split; [ | split]].
  - intros e heartbeat. repeat split.
  - intros c e. repeat split.
  - intro c. unfold connect, _request_data_streams, send, bind, set_state, set_connection,
      _get_connection, with_sent. cbn. rewrite <- app_assoc. reflexivity.
  - unfold disconnect. destruct (_connection self) eqn:C.
    + unfold send, bind, set_state, set_connection, _get_connection. cbn. rewrite C.
      reflexivity.
    + unfold set_state. rewrite C. reflexivity.
Qed.

(** A command carrying the given tag and parameters. *)
Definition command (tag : string) (parameters : list (string * R)) : MavlinkCommand := {|
  command_type := tag;
  parameters := parameters;
  cmd_target_system := 1;
  cmd_target_component := 1
|}.

(** X16.  [send_command] does what the method named by the command tag
    does, on every bridge, connected or not: [ARM], [DISARM], [LAND] and
    [RTL] whatever their parameters, and [SET_MODE], [TAKEOFF] and [GOTO]
    with the parameters they carry. *)
Theorem send_command_dispatches (self : MavlinkBridge) (params : list (string * R)) :
  send_command (command "ARM" params) self = arm self /\
  send_command (command "DISARM" params) self = disarm self /\
  send_command (command "LAND" params) self = land self /\
  send_command (command "RTL" params) self
  = bind (set_mode "RTL") (fun _ => set_state FLYING) self /\
  (forall mode : R,
     dict_get "mode" params = Some mode ->
     send_command (command "SET_MODE" params) self
     = set_mode (NilEmpty.string_of_int (Z.to_int (int_of mode))) self) /\
  (forall altitude : R,
     dict_get "altitude" params = Some altitude ->
     send_command (command "TAKEOFF" params) self = takeoff altitude self) /\
  (forall latitude longitude altitude : R,
     dict_get "latitude" params = Some latitude ->
     dict_get "longitude" params = Some longitude ->
     dict_get "altitude" params = Some altitude ->
     send_command (command "GOTO" params) self = goto latitude longitude altitude self).
Proof.
  assert (G : forall (A : Type) (m : method A),
            (_require_connection self = (self, Raised ConnectionError) ->
             m self = (self, Raised ConnectionError)) ->
            bind _require_connection (fun _ => m) self = m self).
  { intros A m E. unfold bind at 1.
    destruct (require_connection_cases self) as [Q | Q]; rewrite Q; [reflexivity | ].
    symmetry. apply E. exact Q. }
  repeat split.
  - change (send_command (command "ARM" params) self)
      with (bind _require_connection (fun _ => arm) self).
    apply G. intro Q. unfold arm, bind. rewrite Q. reflexivity.
  - change (send_command (command "DISARM" params) self)
      with (bind _require_connection (fun _ => disarm) self).
    apply G. intro Q. unfold disarm, bind. rewrite Q. reflexivity.
  - change (send_command (command "LAND" params) self)
      with (bind _require_connection (fun _ => land) self).
    apply G. intro Q. unfold land, set_mode, bind. rewrite Q. reflexivity.
  - change (send_command (command "RTL" params) self)
      with (bind _require_connection
              (fun _ => bind (set_mode "RTL") (fun _ => set_state FLYING)) self).
    apply G. intro Q. unfold set_mode, bind. rewrite Q. reflexivity.
  - intros mode M.
    change (send_command (command "SET_MODE" params) self)
      with (bind _require_connection
              (fun _ => match dict_get "mode" params with
                        | None => raise ValueError
                        | Some mode =>
                            set_mode (NilEmpty.string_of_int (Z.to_int (int_of mode)))
                        end) self).
    rewrite M. apply G. intro Q. unfold set_mode, bind. rewrite Q. reflexivity.
  - intros altitude M.
    change (send_command (command "TAKEOFF" params) self)
      with (bind _require_connection
              (fun _ => match dict_get "altitude" params with
                        | None => raise ValueError
                        | Some altitude => takeoff altitude
                        end) self).
    rewrite M. apply G. intro Q. unfold takeoff, bind. rewrite Q. reflexivity.
  - intros latitude longitude altitude M1 M2 M3.
    change (send_command (command "GOTO" params) self)
      with (bind _require_connection
              (fun _ => match dict_get "latitude" params,
                              dict_get "longitude" params,
                              dict_get "altitude" params with
                        | Some latitude, Some longitude, Some altitude =>
                            goto latitude longitude altitude
                        | _, _, _ => raise ValueError
                        end) self).
    rewrite M1, M2, M3. apply G. intro Q. unfold goto, bind. rewrite Q. reflexivity.
Qed.

Lemma send_command_dispatches_goto :
  send_command
    (command "GOTO" [("latitude"%string, 40); ("longitude"%string, -74);
                     ("altitude"%string, 50)]) __init__
  = goto 40 (-74) 50 __init__.
Proof.
  destruct (send_command_dispatches __init__
              [("latitude"%string, 40); ("longitude"%string, -74);
               ("altitude"%string, 50)]) as (_ & _ & _ & _ & _ & _ & G).
  apply G; reflexivity.
Defined.

(** The command tags the bridge knows. *)
Definition known_tag (tag : string) : Prop :=
  tag = "ARM"%string \/ tag = "DISARM"%string \/ tag = "SET_MODE"%string \/
  tag = "TAKEOFF"%string \/ tag = "GOTO"%string \/ tag = "LAND"%string \/
  tag = "RTL"%string.

Lemma unknown_tag_has_no_handler (tag : string) :
  ~ known_tag tag -> dict_get tag _command_handlers = None.
Proof.
  intro N. unfold known_tag in N.
  unfold _command_handlers, dict_get, _COMMAND_ARM, _COMMAND_DISARM, _COMMAND_SET_MODE,
    _COMMAND_TAKEOFF, _COMMAND_GOTO, _COMMAND_LAND, _COMMAND_RTL.
  repeat match goal with
         | |- context [String.eqb ?k tag] =>
             destruct (String.eqb_spec k tag) as [E | _];
             [exfalso; apply N; rewrite <- E; tauto | ]
         end.
  reflexivity.
Qed.

(** X17.  On a connected bridge, a command with an unknown tag, a
    [SET_MODE] without [mode], a [TAKEOFF] without [altitude], a [GOTO]
    lacking any of its three coordinates, and a mode name the autopilot does
    not list (for [set_mode] as for [land]) raise [ValueError]; nothing is
    sent and the bridge is what it was, so a refused [land] does not leave it
    [LANDING]. *)
Theorem bridge_validation_errors (c : mavfile) (self : MavlinkBridge) :
  connected_to c self ->
  (forall cmd : MavlinkCommand,
     ~ known_tag (command_type cmd) ->
     send_command cmd self = (self, Raised ValueError)) /\
  (forall params : list (string * R),
     dict_get "mode" params = None ->
     send_command (command "SET_MODE" params) self = (self, Raised ValueError)) /\
  (forall params : list (string * R),
     dict_get "altitude" params = None ->
     send_command (command "TAKEOFF" params) self = (self, Raised ValueError)) /\
  (forall params : list (string * R),
     dict_get "latitude" params = None \/ dict_get "longitude" params = None \/
     dict_get "altitude" params = None ->
     send_command (command "GOTO" params) self = (self, Raised ValueError)) /\
  (forall mode : string,
     dict_get mode (mode_mapping c) = None ->
     set_mode mode self = (self, Raised ValueError)) /\
  (dict_get "LAND" (mode_mapping c) = None -> land self = (self, Raised ValueError)).
Proof.
  intro K. pose proof (require_connection_connected c self K) as Q.
  destruct K as [C S].
  assert (M : forall mode : string,
            dict_get mode (mode_mapping c) = None ->
            set_mode mode self = (self, Raised ValueError)).
  { intros mode N. unfold set_mode, bind, _get_connection. rewrite Q, C, N. reflexivity. }
  split; [ | split; [ | split; [ | split; [ | split]]]].
  - intros cmd N. unfold send_command, bind. rewrite Q.
    rewrite (unknown_tag_has_no_handler _ N). reflexivity.
  - intros params N.
    change (send_command (command "SET_MODE" params) self)
      with (bind _require_connection
              (fun _ => match dict_get "mode" params with
                        | None => raise ValueError
                        | Some mode =>
                            set_mode (NilEmpty.string_of_int (Z.to_int (int_of mode)))
                        end) self).
    unfold bind. rewrite Q, N. reflexivity.
  - intros params N.
    change (send_command (command "TAKEOFF" params) self)
      with (bind _require_connection
              (fun _ => match dict_get "altitude" params with
                        | None => raise ValueError
                        | Some altitude => takeoff altitude
                        end) self).
    unfold bind. rewrite Q, N. reflexivity.
  - intros params N.
    change (send_command (command "GOTO" params) self)
      with (bind _require_connection
              (fun _ => match dict_get "latitude" params,
                              dict_get "longitude" params,
                              dict_get "altitude" params with
                        | Some latitude, Some longitude, Some altitude =>
                            goto latitude longitude altitude
                        | _, _, _ => raise ValueError
                        end) self).
    unfold bind. rewrite Q.
    destruct N as [N | [N | N]]; rewrite N;
      repeat match goal with
             | |- context [match dict_get ?k params with _ => _ end] =>
                 destruct (dict_get k params)
             end;
      reflexivity.
  - exact M.
  - intro N. unfold land, bind. rewrite (M _ N). reflexivity.
Qed.

(** The bridge after a successful [connect] to [sample_connection]. *)
Definition sample_connected : mavfile :=
  with_sent
    [request_data_stream_send 1 1 MAV_DATA_STREAM_POSITION 4 1;
     request_data_stream_send 1 1 MAV_DATA_STREAM_EXTENDED_STATUS 4 1]
    sample_connection.

Definition sample_bridge : MavlinkBridge :=
  fst (connect (Returned sample_connection) (Returned tt) __init__).

Lemma sample_bridge_connected : connected_to sample_connected sample_bridge.
Proof.
  split; [reflexivity | discriminate].
Qed.

Lemma bridge_validation_errors_unknown_mode :
  set_mode "ACRO" sample_bridge = (sample_bridge, Raised ValueError).
Proof.
  destruct (bridge_validation_errors sample_connected sample_bridge)
    as (_ & _ & _ & _ & M & _).
  - exact sample_bridge_connected.
  - apply M. reflexivity.
Defined.



End BridgeOperations.

(** ** MAVLink bridge: telemetry reads *)

Section BridgeTelemetry.
Import MavlinkModels Bridge.
Local Open Scope R_scope.

Lemma Rleb_true_iff (x y : R) : Rleb x y = true <-> x <= y.
Proof.
  unfold Rleb. destruct (Rle_dec x y); split; auto; discriminate.
Qed.

(** What [TelemetryData] accepts. *)
Definition accepted (t : TelemetryData) : Prop :=
  0 <= heading t <= 360 /\ 0 <= ground_speed t /\ 0 <= battery_voltage t /\
  (0 <= battery_remaining t <= 100)%Z /\ (0 <= gps_fix_type t)%Z /\
  (0 <= satellites_visible t)%Z.

Lemma make_telemetry_cases (t : TelemetryData) (self : MavlinkBridge) :
  (accepted t -> make_telemetry t self = (self, Returned t)) /\
  (~ accepted t -> make_telemetry t self = (self, Raised ValidationError)).
Proof.
  unfold make_telemetry, accepted.
  match goal with |- context [if ?b then _ else _] => destruct b eqn:B end.
  - split; [reflexivity | ]. intro N. exfalso. apply N.
    repeat rewrite andb_true_iff in B. repeat rewrite Rleb_true_iff in B.
    repeat rewrite Z.leb_le in B. tauto.
  - split; [ | reflexivity]. intro A. exfalso.
    assert (T : Rleb 0 (heading t) && Rleb (heading t) 360
                && Rleb 0 (ground_speed t) && Rleb 0 (battery_voltage t)
                && (0 <=? battery_remaining t)%Z && (battery_remaining t <=? 100)%Z
                && (0 <=? gps_fix_type t)%Z && (0 <=? satellites_visible t)%Z = true).
    { repeat rewrite andb_true_iff. repeat rewrite Rleb_true_iff.
      repeat rewrite Z.leb_le. tauto. }
    congruence.
Qed.

Lemma make_telemetry_no_timeout (t : TelemetryData) (self : MavlinkBridge) :
  snd (make_telemetry t self) <> Raised TimeoutError.
Proof.
  unfold make_telemetry.
  match goal with |- context [if ?b then _ else _] => destruct b end; discriminate.
Qed.

(** The connection after one reply of each type has been taken. *)
Definition after_read (c : mavfile) : mavfile := {|
  target_system := target_system c;
  target_component := target_component c;
  mode_mapping := mode_mapping c;
  outbox := outbox c;
  position_replies := tl (position_replies c);
  status_replies := tl (status_replies c);
  gps_replies := tl (gps_replies c)
|}.

(** The telemetry the three messages carry: degrees from 1e-7 degrees and
    centidegrees, volts from millivolts, and the altitude and the two speeds
    divided by 100. *)
Definition telemetry_of (p : GLOBAL_POSITION_INT) (s : SYS_STATUS) (g : GPS_RAW_INT) :
    TelemetryData := {|
  latitude := IZR (lat p) / 10000000;
  longitude := IZR (lon p) / 10000000;
  altitude := IZR (relative_alt p) / 100;
  heading := IZR (hdg p) / 100;
  ground_speed := Rmax 0 (IZR (vx p) / 100);
  vertical_speed := IZR (vz p) / 100;
  battery_voltage := IZR (voltage_battery s) / 1000;
  battery_remaining := status_battery_remaining s;
  gps_fix_type := fix_type g;
  satellites_visible := gps_satellites_visible g
|}.

Lemma get_telemetry_connected (c : mavfile) (self : MavlinkBridge)
    (p : GLOBAL_POSITION_INT) (s : SYS_STATUS) (g : GPS_RAW_INT) :
  connected_to c self ->
  hd None (position_replies c) = Some p ->
  hd None (status_replies c) = Some s ->
  hd None (gps_replies c) = Some g ->
  get_telemetry self
  = make_telemetry (telemetry_of p s g)
      {| _connection := Some (after_read c); _state := _state self |}.
Proof.
  intros K P S G. pose proof (require_connection_connected c self K) as Q.
  destruct K as [C _].
  unfold get_telemetry, recv_position, recv_status, recv_gps, bind, ret,
    set_connection, _get_connection.
  rewrite Q, C.
  cbn [_connection _state fst snd position_replies status_replies gps_replies outbox
       target_system target_component mode_mapping].
  change (match position_replies c with r :: _ => r | [] => None end)
    with (hd None (position_replies c)).
  rewrite P. cbn [_connection _state fst snd position_replies status_replies gps_replies outbox target_system target_component mode_mapping].
  change (match status_replies c with r :: _ => r | [] => None end)
    with (hd None (status_replies c)).
  rewrite S. cbn [_connection _state fst snd position_replies status_replies gps_replies outbox target_system target_component mode_mapping].
  change (match gps_replies c with r :: _ => r | [] => None end)
    with (hd None (gps_replies c)).
  rewrite G. cbn [_connection _state fst snd position_replies status_replies gps_replies outbox target_system target_component mode_mapping].
  unfold after_read. f_equal.
  unfold telemetry_of, _COORDINATE_SCALE, _SPEED_SCALE, _HEADING_SCALE, _VOLTAGE_SCALE.
  f_equal; field.
Qed.

Lemma get_telemetry_keeps (self : MavlinkBridge) :
  _state (fst (get_telemetry self)) = _state self /\
  option_map outbox (_connection (fst (get_telemetry self)))
  = option_map outbox (_connection self).
Proof.
  unfold get_telemetry, recv_position, recv_status, recv_gps, make_telemetry, bind, ret,
    raise, set_connection, _get_connection, _require_connection.
  destruct self as [[c | ] st]; cbn [_connection _state]; [ | split; reflexivity].
  destruct (AutopilotState_eqb st DISCONNECTED); [split; reflexivity | ].
  cbn [_connection _state fst snd position_replies status_replies gps_replies outbox].
  destruct (position_replies c) as [ | [p | ] ?]; try (split; reflexivity).
  destruct (status_replies c) as [ | [s | ] ?]; try (split; reflexivity).
  destruct (gps_replies c) as [ | [g | ] ?]; try (split; reflexivity).
  cbn [_connection _state fst snd position_replies status_replies gps_replies outbox].
  match goal with |- context [if ?b then _ else _] => destruct b end; split; reflexivity.
Qed.

(** X19.  A telemetry read on a connected bridge raises [TimeoutError]
    exactly when the next position, status or GPS reply is missing; and on
    every bridge, whatever a read returns or raises, it leaves the autopilot
    state as it was and sends nothing. *)
Theorem get_telemetry_timeouts (c : mavfile) (self : MavlinkBridge) :
  connected_to c self ->
  (snd (get_telemetry self) = Raised TimeoutError <->
   hd None (position_replies c) = None \/ hd None (status_replies c) = None \/
   hd None (gps_replies c) = None) /\
  _state (fst (get_telemetry self)) = _state self /\
  option_map outbox (_connection (fst (get_telemetry self))) = Some (outbox c).
Proof.
  intro K. split.
  - destruct (hd None (position_replies c)) as [p | ] eqn:P;
      destruct (hd None (status_replies c)) as [s | ] eqn:S;
      destruct (hd None (gps_replies c)) as [g | ] eqn:G.
    1: { rewrite (get_telemetry_connected c self p s g K P S G).
         split.
         - intro T. exfalso. revert T. apply make_telemetry_no_timeout.
         - intros [E | [E | E]]; discriminate. }
    all: split; [intros _; auto | intros _].
    all: pose proof (require_connection_connected c self K) as Q; destruct K as [C _].
    all: unfold get_telemetry, recv_position, recv_status, recv_gps, bind, ret,
           set_connection, _get_connection; rewrite Q, C.
    all: cbn [_connection _state fst snd position_replies status_replies gps_replies
              outbox target_system target_component mode_mapping].
    all: change (match position_replies c with r :: _ => r | [] => None end)
           with (hd None (position_replies c)); rewrite P; cbn [_connection _state fst snd position_replies status_replies gps_replies outbox target_system target_component mode_mapping]; try reflexivity.
    all: change (match status_replies c with r :: _ => r | [] => None end)
           with (hd None (status_replies c)); rewrite S; cbn [_connection _state fst snd position_replies status_replies gps_replies outbox target_system target_component mode_mapping]; try reflexivity.
    all: change (match gps_replies c with r :: _ => r | [] => None end)
           with (hd None (gps_replies c)); rewrite G; cbn [_connection _state fst snd position_replies status_replies gps_replies outbox target_system target_component mode_mapping]; reflexivity.
  - destruct (get_telemetry_keeps self) as [S O]. split; [exact S | ].
    rewrite O. destruct K as [C _]. rewrite C. reflexivity.
Qed.

(** A connection with one missing GPS reply. *)
Definition missing_gps : mavfile := {|
  target_system := 1;
  target_component := 1;
  mode_mapping := [];
  outbox := [];
  position_replies :=
    [Some {| lat := 407128000; lon := -740060000; relative_alt := 5000;
             hdg := 9000; vx := 0; vz := 0 |}];
  status_replies := [Some {| voltage_battery := 12600; status_battery_remaining := 80 |}];
  gps_replies := [None]
|}.

Lemma get_telemetry_timeouts_missing_gps :
  snd (get_telemetry {| _connection := Some missing_gps; _state := FLYING |})
  = Raised TimeoutError.
Proof.
  destruct (get_telemetry_timeouts missing_gps
              {| _connection := Some missing_gps; _state := FLYING |}) as ([_ T] & _).
  - split; [reflexivity | discriminate].
  - apply T. right. right. reflexivity.
Defined.

(** The raw message fields inside the ranges [TelemetryData] asks of the
    scaled ones. *)
Definition fields_in_range (p : GLOBAL_POSITION_INT) (s : SYS_STATUS) (g : GPS_RAW_INT) :
    Prop :=
  (0 <= hdg p <= 36000 /\ 0 <= voltage_battery s /\
   0 <= status_battery_remaining s <= 100 /\ 0 <= fix_type g /\
   0 <= gps_satellites_visible g)%Z.

Lemma accepted_telemetry_of (p : GLOBAL_POSITION_INT) (s : SYS_STATUS) (g : GPS_RAW_INT) :
  accepted (telemetry_of p s g) <-> fields_in_range p s g.
Proof.
  unfold accepted, fields_in_range, telemetry_of.
  cbn [heading ground_speed battery_voltage battery_remaining gps_fix_type
       satellites_visible].
  pose proof (Rmax_l 0 (IZR (vx p) / 100)) as V.
  split.
  - intros ((H0 & H1) & _ & B & R).
    assert (0 <= IZR (hdg p)) as H0' by Lra.lra.
    assert (IZR (hdg p) <= 36000) as H1' by Lra.lra.
    assert (0 <= IZR (voltage_battery s)) as B' by Lra.lra.
    apply le_IZR in H0', H1', B'. tauto.
  - intros ((H0 & H1) & B & R).
    apply IZR_le in H0, H1, B.
    repeat split; try tauto; Lra.lra.
Qed.

(** X20.  When all three replies arrive on a connected bridge, the read
    returns the scaled telemetry exactly when the heading is within 0 to
    36000 centidegrees, the battery voltage is not negative, the remaining
    battery is within 0 to 100 and the GPS fix type and satellite count are
    not negative; otherwise it raises [ValidationError].  Position, altitude
    and speeds are never a reason to refuse, and a negative [vx] is
    reported as ground speed 0. *)
Theorem get_telemetry_validation (c : mavfile) (self : MavlinkBridge)
    (p : GLOBAL_POSITION_INT) (s : SYS_STATUS) (g : GPS_RAW_INT) :
  connected_to c self ->
  hd None (position_replies c) = Some p ->
  hd None (status_replies c) = Some s ->
  hd None (gps_replies c) = Some g ->
  (fields_in_range p s g -> snd (get_telemetry self) = Returned (telemetry_of p s g)) /\
  (~ fields_in_range p s g -> snd (get_telemetry self) = Raised ValidationError) /\
  ((vx p <= 0)%Z -> ground_speed (telemetry_of p s g) = 0).
Proof.
  intros K P S G. rewrite (get_telemetry_connected c self p s g K P S G).
  destruct (make_telemetry_cases (telemetry_of p s g)
              {| _connection := Some (after_read c); _state := _state self |}) as [Y N].
  split; [ | split].
  - intro A. rewrite Y; [reflexivity | ]. apply accepted_telemetry_of. exact A.
  - intro A. rewrite N; [reflexivity | ]. intro B. apply A.
    apply accepted_telemetry_of. exact B.
  - intro V. cbn [telemetry_of ground_speed]. apply Rmax_left.
    apply IZR_le in V. Lra.lra.
Qed.

(** A connection whose autopilot reports the remaining battery as unknown
    (-1). *)
Definition unknown_battery : mavfile := {|
  target_system := 1;
  target_component := 1;
  mode_mapping := [];
  outbox := [];
  position_replies :=
    [Some {| lat := 407128000; lon := -740060000; relative_alt := 5000;
             hdg := 9000; vx := 0; vz := 0 |}];
  status_replies := [Some {| voltage_battery := 12600; status_battery_remaining := -1 |}];
  gps_replies := [Some {| fix_type := 3; gps_satellites_visible := 10 |}]
|}.

Lemma get_telemetry_validation_unknown_battery :
  snd (get_telemetry {| _connection := Some unknown_battery; _state := CONNECTED |})
  = Raised ValidationError.
Proof.
  destruct (get_telemetry_validation unknown_battery
              {| _connection := Some unknown_battery; _state := CONNECTED |}
              {| lat := 407128000; lon := -740060000; relative_alt := 5000;
                 hdg := 9000; vx := 0; vz := 0 |}
              {| voltage_battery := 12600; status_battery_remaining := -1 |}
              {| fix_type := 3; gps_satellites_visible := 10 |}) as (_ & N & _).
  - split; [reflexivity | discriminate].
  - reflexivity.
  - reflexivity.
  - reflexivity.
  - apply N. unfold fields_in_range. cbn. lia.
Defined.

End BridgeTelemetry.

(** ** Obstacle avoidance: which detection decides, and what a frame can ask for *)

Section AvoidanceSelection.
Import Avoidance.
Local Open Scope float_scope.

(** *** More on the order of binary64 numbers *)

Lemma SFcompare_none (x y : spec_float) :
  SFcompare x y = None -> x = S754_nan \/ y = S754_nan.
Proof.
  destruct x as [sx | sx | | sx mx ex], y as [sy | sy | | sy my ey]; cbn; auto;
    try discriminate;
    try (destruct sx; discriminate); try (destruct sy; discriminate);
    try (destruct sx, sy; discriminate).
Qed.

Lemma SFcompare_nan (x y : spec_float) :
  x = S754_nan \/ y = S754_nan -> SFcompare x y = None.
Proof.
  intros [E | E]; subst; [reflexivity | ]. destruct x; reflexivity.
Qed.

(** Two numbers that are not NaN are comparable. *)
Lemma ltb_false_leb_true (x y : float) :
  (x <=? x) = true -> (y <=? y) = true -> (x <? y) = false -> (y <=? x) = true.
Proof.
  rewrite !leb_spec, ltb_spec. unfold SFleb, SFltb. intros X Y.
  rewrite (SFcompare_antisym (Prim2SF x) (Prim2SF y)).
  destruct (SFcompare (Prim2SF x) (Prim2SF y)) as [[ | | ] | ] eqn:C; cbn;
    try congruence.
  destruct (SFcompare_none _ _ C) as [N | N]; rewrite N in *; discriminate.
Qed.

Lemma leb_true_refl_l (x y : float) : (x <=? y) = true -> (x <=? x) = true.
Proof.
  rewrite !leb_spec. unfold SFleb. intro L.
  destruct (Prim2SF x) as [sx | sx | | sx mx ex]; try (destruct sx; reflexivity).
  - discriminate L.
  - cbn. destruct sx; rewrite Z.compare_refl;
      change (PosDef.Pos.compare_cont Eq mx mx) with (Pos.compare mx mx);
      rewrite Pos.compare_refl; reflexivity.
Qed.

Lemma leb_true_refl_r (x y : float) : (x <=? y) = true -> (y <=? y) = true.
Proof.
  rewrite !leb_spec. unfold SFleb. intro L.
  destruct (Prim2SF y) as [sy | sy | | sy my ey]; try (destruct sy; reflexivity).
  - rewrite (SFcompare_nan (Prim2SF x) S754_nan (or_intror eq_refl)) in L. discriminate L.
  - cbn. destruct sy; rewrite Z.compare_refl;
      change (PosDef.Pos.compare_cont Eq my my) with (Pos.compare my my);
      rewrite Pos.compare_refl; reflexivity.
Qed.

Lemma ltb_leb_trans (x y z : float) :
  (x <? y) = true -> (y <=? z) = true -> (x <? z) = true.
Proof.
  intros A B. destruct (x <? z) eqn:E; [reflexivity | exfalso].
  pose proof (leb_true_refl_l x y (ltb_true_leb_true x y A)) as X.
  pose proof (leb_true_refl_r y z B) as Z.
  pose proof (ltb_false_leb_true x z X Z E) as L.
  pose proof (leb_trans y z x B L) as T.
  rewrite (ltb_true_leb_false x y A) in T. discriminate T.
Qed.

(** *** The head of the sorted detections *)

(** The [Field(ge=0.0)] of [distance_meters]; it excludes NaN. *)
Definition valid_distance (d : ObstacleDetection) : Prop :=
  (0 <=? distance_meters d) = true.

Definition nearer (d x : ObstacleDetection) : Prop :=
  (distance_meters d <? distance_meters x) = true.

Definition not_farther (d x : ObstacleDetection) : Prop :=
  (distance_meters d <=? distance_meters x) = true.

(** [d] is the first of the nearest detections of [l]: those before it are
    farther, those behind it not nearer. *)
Definition first_nearest (d : ObstacleDetection) (l : list ObstacleDetection) : Prop :=
  exists before behind : list ObstacleDetection,
    l = before ++ d :: behind /\
    Forall (nearer d) before /\ Forall (not_farther d) behind.

Lemma sorted_by_distance_snoc (l : list ObstacleDetection) (d : ObstacleDetection) :
  sorted_by_distance (l ++ [d]) = insert_by_distance d (sorted_by_distance l).
Proof.
  unfold sorted_by_distance. rewrite fold_left_app. reflexivity.
Qed.

Lemma sorted_by_distance_head (l : list ObstacleDetection) :
  Forall valid_distance l -> l <> [] ->
  exists (h : ObstacleDetection) (t : list ObstacleDetection),
    sorted_by_distance l = h :: t /\ first_nearest h l.
Proof.
  induction l as [ | d l IH] using rev_ind; [congruence | ].
  intros V _. apply Forall_app in V. destruct V as [V D].
  apply Forall_inv in D. rewrite sorted_by_distance_snoc.
  destruct l as [ | x l'].
  - exists d, []. split; [reflexivity | ]. exists [], []. repeat split; constructor.
  - destruct (IH V) as (h & t & S & before & behind & E & B & A); [discriminate | ].
    rewrite S. cbn [insert_by_distance].
    destruct (distance_meters d <? distance_meters h) eqn:L.
    + exists d, (h :: t). split; [reflexivity | ].
      exists (x :: l'), []. split; [reflexivity | ]. split; [ | constructor].
      rewrite E. apply Forall_app. split; [ | constructor].
      * eapply Forall_impl; [ | exact B]. intros a N. unfold nearer in *.
        apply (ltb_leb_trans _ _ _ L). apply ltb_true_leb_true. exact N.
      * exact L.
      * eapply Forall_impl; [ | exact A]. intros a N. unfold nearer, not_farther in *.
        apply (ltb_leb_trans _ _ _ L). exact N.
    + exists h, (insert_by_distance d t). split; [reflexivity | ].
      exists before, (behind ++ [d]). split; [ | split].
      * rewrite E. rewrite <- app_assoc. reflexivity.
      * exact B.
      * apply Forall_app. split; [exact A | ]. constructor; [ | constructor].
        unfold not_farther. apply ltb_false_leb_true; [ | | exact L].
        -- exact (leb_true_refl_r _ _ D).
        -- assert (H : In h (x :: l')).
           { rewrite E. apply in_or_app. right. left. reflexivity. }
           rewrite Forall_forall in V. exact (leb_true_refl_r _ _ (V h H)).
Qed.

Lemma first_nearest_unique (d d' : ObstacleDetection) (l : list ObstacleDetection) :
  first_nearest d l -> first_nearest d' l -> d = d'.
Proof.
  intros (b & a & E & B & A) (b' & a' & E' & B' & A'). subst l.
  revert b' E' B'. induction b as [ | x b IH]; intros [ | y b'] E' B'; cbn in E'.
  - congruence.
  - exfalso. injection E' as X T. subst y a.
    apply Forall_inv in B'. unfold nearer in B'.
    rewrite Forall_forall in A.
    assert (N : not_farther d d') by (apply A; apply in_or_app; right; left; reflexivity).
    unfold not_farther in N. rewrite (ltb_true_leb_false _ _ B') in N. discriminate N.
  - exfalso. injection E' as X T. subst x a'.
    apply Forall_inv in B. unfold nearer in B.
    rewrite Forall_forall in A'.
    assert (N : not_farther d' d) by (apply A'; apply in_or_app; right; left; reflexivity).
    unfold not_farther in N. rewrite (ltb_true_leb_false _ _ B) in N. discriminate N.
  - injection E' as X T. subst y.
    apply (IH (Forall_inv_tail B) b' T (Forall_inv_tail B')).
Qed.

(** X21.  Among detections whose distances pass their field check,
    [compute_avoidance] lets the first of the nearest decide, whatever the
    severities of the others: a list that is not empty has such a
    detection, and there is no maneuver when it has severity [NONE] or is
    not inside the minimum clearance, else the maneuver for that
    detection. *)
Theorem compute_avoidance_nearest_decides (detections : list ObstacleDetection)
    (self : ObstacleAvoidance) :
  Forall valid_distance detections ->
  (detections <> [] -> exists d : ObstacleDetection, first_nearest d detections) /\
  (forall d : ObstacleDetection,
     first_nearest d detections ->
     (severity d = NONE -> compute_avoidance detections self = None) /\
     ((_minimum_clearance_meters self <=? distance_meters d) = true ->
      compute_avoidance detections self = None) /\
     (severity d <> NONE ->
      (_minimum_clearance_meters self <=? distance_meters d) = false ->
      compute_avoidance detections self = Some (_select_maneuver d))).
Proof.
  intro V. split.
  - intro N. destruct (sorted_by_distance_head detections V N) as (h & t & S & F).
    exists h. exact F.
  - intros d F.
    assert (N : detections <> []).
    { destruct F as (b & a & E & _). rewrite E. destruct b; discriminate. }
    destruct (sorted_by_distance_head detections V N) as (h & t & S & F').
    rewrite (first_nearest_unique d h detections F F').
    assert (C : compute_avoidance detections self
                = if ObstacleSeverity_eqb (severity h) NONE then None
                  else if _minimum_clearance_meters self <=? distance_meters h then None
                  else Some (_select_maneuver h)).
    { unfold compute_avoidance. destruct detections; [congruence | ]. rewrite S.
      reflexivity. }
    rewrite C. split; [ | split].
    + intro E. rewrite E. reflexivity.
    + intro E. rewrite E. destruct (ObstacleSeverity_eqb (severity h) NONE); reflexivity.
    + intros E L. rewrite L. destruct (severity h); try reflexivity. congruence.
Qed.

(** A harmless detection one metre ahead and a critical one just behind. *)
Definition harmless_ahead : ObstacleDetection := {|
  distance_meters := 1;
  bearing_degrees := 0;
  severity := NONE;
  width_meters := 1;
  height_meters := 0.75
|}.

Definition critical_behind : ObstacleDetection := {|
  distance_meters := 1.5;
  bearing_degrees := 0;
  severity := CRITICAL;
  width_meters := 1;
  height_meters := 0.75
|}.

Lemma compute_avoidance_nearest_decides_masked_critical :
  compute_avoidance [harmless_ahead; critical_behind] (__init__ 10 2) = None.
Proof.
  destruct (compute_avoidance_nearest_decides [harmless_ahead; critical_behind]
              (__init__ 10 2)) as [_ D].
  - repeat constructor.
  - destruct (D harmless_ahead) as (S & _).
    + exists [], [critical_behind]. repeat constructor.
    + apply S. reflexivity.
Defined.

(** *** What a depth frame yields *)

Lemma div_not_nan (x y : float) :
  Prim2SF (x / y) <> S754_nan -> Prim2SF x <> S754_nan /\ Prim2SF y <> S754_nan.
Proof.
  rewrite div_spec. intro N.
  split; intro E; apply N; rewrite E; [reflexivity | ].
  destruct (Prim2SF x); reflexivity.
Qed.

Lemma leb_true_not_nan (x y : float) : (x <=? y) = true -> Prim2SF x <> S754_nan.
Proof.
  rewrite leb_spec. unfold SFleb. intros L E. rewrite E in L. discriminate L.
Qed.

Lemma not_nan_leb_refl (x : float) : Prim2SF x <> S754_nan -> (x <=? x) = true.
Proof.
  rewrite leb_spec. unfold SFleb. intro N.
  destruct (Prim2SF x) as [sx | sx | | sx mx ex]; try (destruct sx; reflexivity).
  - congruence.
  - cbn. destruct sx; rewrite Z.compare_refl;
      change (PosDef.Pos.compare_cont Eq mx mx) with (Pos.compare mx mx);
      rewrite Pos.compare_refl; reflexivity.
Qed.

(** For numbers that are not NaN, not at most is above. *)
Lemma leb_false_ltb_true (x y : float) :
  (x <=? x) = true -> (y <=? y) = true -> (x <=? y) = false -> (y <? x) = true.
Proof.
  intros X Y L. destruct (y <? x) eqn:E; [reflexivity | ].
  rewrite (ltb_false_leb_true y x Y X E) in L. discriminate L.
Qed.

Lemma estimate_obstacle_width_at_least_half (frame : DepthFrame) :
  (0.5 <=? _estimate_obstacle_width frame) = true.
Proof.
  unfold _estimate_obstacle_width, max. cbv zeta.
  destruct (max_distance_meters frame <=? 0); [reflexivity | ].
  match goal with |- context [if ?a <? ?b then _ else _] => destruct (a <? b) eqn:L end.
  - apply ltb_true_leb_true. exact L.
  - reflexivity.
Qed.

Lemma detection_of_frame (frame : DepthFrame) (self : ObstacleAvoidance)
    (d : ObstacleDetection) :
  In d (process_depth_frame frame self) ->
  process_depth_frame frame self = [d] /\
  distance_meters d = min_distance_meters frame /\
  (0 <? distance_meters d) = true /\
  (distance_meters d <=? _detection_range_meters self) = true /\
  bearing_degrees d = 0 /\
  severity d <> NONE /\
  severity d = _classify_severity (min_distance_meters frame) (_detection_range_meters self) /\
  (0.5 <=? width_meters d) = true /\
  height_meters d = width_meters d * 0.75.
Proof.
  unfold process_depth_frame. cbv zeta.
  destruct (min_distance_meters frame <=? 0) eqn:P; [intros []| ].
  destruct (_detection_range_meters self <? min_distance_meters frame) eqn:I; [intros [] | ].
  destruct (_classify_severity (min_distance_meters frame) (_detection_range_meters self))
    eqn:C; cbn [negb ObstacleSeverity_eqb app In].
  1: intros [].
  all: intros [E | []]; subst d;
    cbn [distance_meters bearing_degrees severity width_meters height_meters].
  all: assert (N : Prim2SF (min_distance_meters frame) <> S754_nan /\
                   Prim2SF (_detection_range_meters self) <> S754_nan).
  all: try (apply div_not_nan; revert C; unfold _classify_severity;
            destruct (_detection_range_meters self <=? 0); [discriminate | ]; cbv zeta;
            repeat match goal with
                   | |- context [if ?a <=? ?b then _ else _] =>
                       let L := fresh "L" in
                       destruct (a <=? b) eqn:L;
                       [intros _; exact (leb_true_not_nan _ _ L) | ]
                   end;
            discriminate).
  all: destruct N as [M R];
    pose proof (not_nan_leb_refl _ M) as M';
    pose proof (not_nan_leb_refl _ R) as R';
    assert (Z : (0 <=? 0) = true) by reflexivity.
  all: repeat split; try discriminate; try reflexivity.
  all: try apply estimate_obstacle_width_at_least_half.
  all: try (apply leb_false_ltb_true; assumption).
  all: apply ltb_false_leb_true; assumption.
Qed.

(** X22.  Every detection [process_depth_frame] builds carries the frame's
    minimum distance, which is then above 0 and within the detection range
    (so not NaN, even when the frame or the range is), the bearing 0, a
    severity other than [NONE], a width of at least 0.5 and three quarters
    of that width as height. *)
Theorem process_depth_frame_detection (frame : DepthFrame) (self : ObstacleAvoidance)
    (d : ObstacleDetection) :
  In d (process_depth_frame frame self) ->
  process_depth_frame frame self = [d] /\
  distance_meters d = min_distance_meters frame /\
  (0 <? distance_meters d) = true /\
  (distance_meters d <=? _detection_range_meters self) = true /\
  bearing_degrees d = 0 /\
  severity d <> NONE /\
  severity d = _classify_severity (min_distance_meters frame) (_detection_range_meters self) /\
  (0.5 <=? width_meters d) = true /\
  height_meters d = width_meters d * 0.75.
Proof.
  exact (detection_of_frame frame self d).
Qed.

Lemma process_depth_frame_detection_two_metres :
  process_depth_frame (frame_at 2) (__init__ 10 2)
  = [ {| distance_meters := 2; bearing_degrees := 0; severity := CRITICAL;
         width_meters := 0.5; height_meters := 0.375 |} ].
Proof.
  destruct (process_depth_frame_detection (frame_at 2) (__init__ 10 2)
              {| distance_meters := 2; bearing_degrees := 0; severity := CRITICAL;
                 width_meters := 0.5; height_meters := 0.375 |}) as (E & _).
  - left. reflexivity.
  - exact E.
Defined.

(** The four maneuvers a frame can ask for. *)
Definition hold_position : AvoidanceManeuver := {|
  maneuver_type := "hold";
  magnitude_meters := 0;
  duration_seconds := 2;
  priority := 10
|}.

Definition climb_away : AvoidanceManeuver := {|
  maneuver_type := "climb";
  magnitude_meters := 5;
  duration_seconds := 3;
  priority := 8
|}.

Definition climb_centered (priority : Z) : AvoidanceManeuver := {|
  maneuver_type := "climb";
  magnitude_meters := 3;
  duration_seconds := 2.5;
  priority := priority
|}.

(** X23.  A maneuver computed from the detections of one depth frame is
    never lateral: the frame's obstacle is taken as centred, so a critical
    one asks to hold, a high one to climb 5 m, and a medium or low one to
    climb as well, with the lateral magnitude of 3 m and priority 5 or 2;
    and there is a maneuver only when the frame's minimum distance is inside
    the minimum clearance. *)
Theorem frame_maneuver_never_lateral (frame : DepthFrame) (self : ObstacleAvoidance)
    (m : AvoidanceManeuver) :
  compute_avoidance (process_depth_frame frame self) self = Some m ->
  (_minimum_clearance_meters self <=? min_distance_meters frame) = false /\
  (map severity (process_depth_frame frame self) = [CRITICAL] /\ m = hold_position \/
   map severity (process_depth_frame frame self) = [HIGH] /\ m = climb_away \/
   map severity (process_depth_frame frame self) = [MEDIUM] /\ m = climb_centered 5 \/
   map severity (process_depth_frame frame self) = [LOW] /\ m = climb_centered 2).
Proof.
  intro C.
  destruct (process_depth_frame frame self) as [ | d l] eqn:D; [discriminate C | ].
  assert (I : In d (process_depth_frame frame self)) by (rewrite D; left; reflexivity).
  destruct (detection_of_frame frame self d I)
    as (E & Dist & _ & _ & B & S & _).
  rewrite D in E. injection E as E. subst l.
  unfold compute_avoidance, sorted_by_distance in C. cbn [fold_left insert_by_distance] in C.
  rewrite Dist in C.
  destruct (_minimum_clearance_meters self <=? min_distance_meters frame).
  - destruct (ObstacleSeverity_eqb (severity d) NONE); discriminate C.
  - split; [reflexivity | ].
    unfold _select_maneuver in C. rewrite B in C. cbn [map].
    destruct (severity d); cbn in C; try congruence; injection C as C; subst m.
    + right. right. right. split; reflexivity.
    + right. right. left. split; reflexivity.
    + right. left. split; reflexivity.
    + left. split; reflexivity.
Qed.

Lemma frame_maneuver_never_lateral_medium :
  map severity (process_depth_frame (frame_at 1.5) (__init__ 3 2)) = [MEDIUM] /\
  compute_avoidance (process_depth_frame (frame_at 1.5) (__init__ 3 2)) (__init__ 3 2)
  = Some (climb_centered 5).
Proof.
  assert (C : compute_avoidance (process_depth_frame (frame_at 1.5) (__init__ 3 2))
                (__init__ 3 2) = Some (climb_centered 5)) by reflexivity.
  split; [ | exact C].
  destruct (frame_maneuver_never_lateral (frame_at 1.5) (__init__ 3 2) (climb_centered 5) C)
    as (_ & [[_ M] | [[_ M] | [[S _] | [_ M]]]]); try discriminate M.
  exact S.
Defined.

End AvoidanceSelection.

(** ** Supervisor: reacting to the fail-safe state *)

Section SupervisorReactions.
Import Executor Supervisor.

(** X24.  What one pass of the supervisor's fail-safe reaction does, with a
    bridge that accepts the mode changes.  While the fail-safe manager is
    [RETURNING] and the executor is idle, the abort raises [RuntimeError]
    and no mode is set, so return-to-launch is not commanded; with any other
    executor state the executor ends [ABORTED] and the bridge is set to
    [LOITER] and then to [RTL], again on every pass.  While it is [HOLDING]
    the bridge is set to [LOITER] and the executor keeps its state.  In no
    case is a waypoint sent or the segment or waypoint index changed, and
    while [CONNECTED] or [DEGRADED] nothing happens at all. *)
Theorem handle_fail_safe_state_reactions (fail_safe : FailSafe.FailSafeManager)
    (executor : MissionExecutor) :
  (FailSafe._state fail_safe = FailSafe.RETURNING ->
   (_state executor = IDLE ->
    _handle_fail_safe_state fail_safe executor = (executor, Raised RuntimeError)) /\
   (_state executor <> IDLE ->
    snd (_handle_fail_safe_state fail_safe executor) = Returned tt /\
    _state (fst (_handle_fail_safe_state fail_safe executor)) = ABORTED /\
    set_mode_calls (_bridge (fst (_handle_fail_safe_state fail_safe executor)))
    = set_mode_calls (_bridge executor) ++ ["LOITER"; "RTL"]%string)) /\
  (FailSafe._state fail_safe = FailSafe.HOLDING ->
   snd (_handle_fail_safe_state fail_safe executor) = Returned tt /\
   _state (fst (_handle_fail_safe_state fail_safe executor)) = _state executor /\
   set_mode_calls (_bridge (fst (_handle_fail_safe_state fail_safe executor)))
   = set_mode_calls (_bridge executor) ++ ["LOITER"%string]) /\
  (FailSafe._state fail_safe = FailSafe.CONNECTED \/
   FailSafe._state fail_safe = FailSafe.DEGRADED ->
   _handle_fail_safe_state fail_safe executor = (executor, Returned tt)) /\
  goto_calls (_bridge (fst (_handle_fail_safe_state fail_safe executor)))
  = goto_calls (_bridge executor) /\
  _current_segment (fst (_handle_fail_safe_state fail_safe executor))
  = _current_segment executor /\
  _current_waypoint_index (fst (_handle_fail_safe_state fail_safe executor))
  = _current_waypoint_index executor.
Proof.
  unfold _handle_fail_safe_state, FailSafe.should_return, FailSafe.should_hold, abort.
  split; [ | split; [ | split]].
  - intro R. rewrite R. cbn [FailSafe.FailSafeState_eqb]. split.
    + intro I. rewrite I. reflexivity.
    + intro N. destruct (_state executor); try congruence; cbn;
        (split; [reflexivity | split; [reflexivity | ]]);
        rewrite <- app_assoc; reflexivity.
  - intro H. rewrite H. cbn. repeat split.
  - intros [C | C]; rewrite C; reflexivity.
  - destruct (FailSafe._state fail_safe), (_state executor); cbn; repeat split.
Qed.

(** The fail-safe manager after two minutes without connectivity. *)
Definition two_minutes_offline : FailSafe.FailSafeManager :=
  FailSafe.update_connectivity false 120%float
    (FailSafe.update_connectivity false 0%float (FailSafe.__init__ Config.defaults)).

Lemma handle_fail_safe_state_reactions_without_mission :
  _handle_fail_safe_state two_minutes_offline (__init__ (fresh_bridge []))
  = (__init__ (fresh_bridge []), Raised RuntimeError).
Proof.
  destruct (handle_fail_safe_state_reactions two_minutes_offline
              (__init__ (fresh_bridge []))) as (R & _).
  destruct R as [I _]; [reflexivity | ].
  apply I. reflexivity.
Defined.

End SupervisorReactions.
